(** * apply_standard_offsets: calibration record builder and remote deployment

    A shallow embedding of [apply_standard_offsets.py].

    - Text is [string]; a character stands for a code point below 256, and
      [lower], [strip] and [repr] are Python's on that range.
    - A parsed JSON document is a [json] value.  A Python [dict] keeps its
      insertion order, so an object is an association list read by its
      first binding of a key.  A Python [float] inside a document is
      carried by the text [repr] prints for it; the floats the script
      computes with (clock readings and the restart timeout) are binary64
      numbers, Rocq's primitive [float].
    - A raised exception is an [Err]; the dynamic type errors of Python
      ([AttributeError], [TypeError], [KeyError]) are kept apart from the
      [RuntimeError]s the script raises itself.
    - Everything outside the process (clock, HTTP, subprocesses, the file
      system) is an oracle of an environment that answers from the history
      of events; the script is a state-and-error computation over that
      history. *)

From Stdlib Require Import String Ascii List ZArith Bool Lia Arith.
From Stdlib Require Import DecimalString Floats Uint63.
Import ListNotations.
Local Open Scope list_scope.
Local Open Scope string_scope.
Set Warnings "-register-all".

(** String append is [++]; list append is written [+++]. *)
Notation "xs +++ ys" := (@app _ xs ys) (at level 60, right associativity).

(** ** Python text primitives *)

Module PyStr.

Definition code (c : ascii) : nat := nat_of_ascii c.

(** The double quote, and the line feed, as characters. *)
Definition dquote : ascii := ascii_of_nat 34.
Definition dq : string := String dquote EmptyString.
Definition nl : string := String (ascii_of_nat 10) EmptyString.

Definition between (lo hi n : nat) : bool := (lo <=? n)%nat && (n <=? hi)%nat.

(** [str.isspace] on one character. *)
Definition isspace (c : ascii) : bool :=
  let n := code c in
  between 9 13 n || between 28 32 n || (n =? 133)%nat || (n =? 160)%nat.

(** [str.lower] on one character: A-Z, and the upper-case letters of the
    Latin-1 supplement (U+00C0..U+00DE without the multiplication sign). *)
Definition lower_char (c : ascii) : ascii :=
  let n := code c in
  if between 65 90 n || (between 192 222 n && negb (n =? 215)%nat)
  then ascii_of_nat (n + 32) else c.

Fixpoint lower (s : string) : string :=
  match s with
  | EmptyString => EmptyString
  | String c r => String (lower_char c) (lower r)
  end.

Fixpoint rev_onto (s acc : string) : string :=
  match s with
  | EmptyString => acc
  | String c r => rev_onto r (String c acc)
  end.

Definition rev (s : string) : string := rev_onto s EmptyString.

Fixpoint lstrip_by (p : ascii -> bool) (s : string) : string :=
  match s with
  | EmptyString => EmptyString
  | String c r => if p c then lstrip_by p r else s
  end.

Definition strip_by (p : ascii -> bool) (s : string) : string :=
  rev (lstrip_by p (rev (lstrip_by p s))).

(** [s.strip()] *)
Definition strip (s : string) : string := strip_by isspace s.

(** [s.strip(c)] for a one-character argument. *)
Definition strip_char (c : ascii) (s : string) : string :=
  strip_by (Ascii.eqb c) s.

Fixpoint mem_char (c : ascii) (s : string) : bool :=
  match s with
  | EmptyString => false
  | String d r => Ascii.eqb c d || mem_char c r
  end.

(** [needle in s] for strings. *)
Fixpoint contains (needle s : string) : bool :=
  String.prefix needle s ||
  match s with
  | EmptyString => false
  | String _ r => contains needle r
  end.

(** [sep.join(parts)] *)
Fixpoint join (sep : string) (parts : list string) : string :=
  match parts with
  | [] => ""
  | [p] => p
  | p :: rest => p ++ sep ++ join sep rest
  end.

(** [s[:n]] *)
Fixpoint take (n : nat) (s : string) : string :=
  match n, s with
  | S m, String c r => String c (take m r)
  | _, _ => EmptyString
  end.

(** [str(n)] for an [int]. *)
Definition of_Z (n : Z) : string := NilZero.string_of_int (Z.to_int n).

Definition hex_digit (upper : bool) (n : nat) : ascii :=
  if (n <? 10)%nat then ascii_of_nat (48 + n)
  else ascii_of_nat ((if upper then 55 else 87) + n).

Definition hex2 (upper : bool) (n : nat) : string :=
  String (hex_digit upper (n / 16)) (String (hex_digit upper (n mod 16)) EmptyString).

(** [str.isprintable] on one character. *)
Definition isprintable (c : ascii) : bool :=
  let n := code c in
  between 32 126 n || (between 161 255 n && negb (n =? 173)%nat).

Definition repr_char (quote : ascii) (c : ascii) : string :=
  let n := code c in
  if Ascii.eqb c quote || (n =? 92)%nat then String "\" (String c EmptyString)
  else if (n =? 9)%nat then "\t"
  else if (n =? 10)%nat then "\n"
  else if (n =? 13)%nat then "\r"
  else if isprintable c then String c EmptyString
  else "\x" ++ hex2 false n.

Fixpoint repr_body (quote : ascii) (s : string) : string :=
  match s with
  | EmptyString => EmptyString
  | String c r => repr_char quote c ++ repr_body quote r
  end.

(** [repr(s)] for a [str]: single quotes, unless the text has a single
    quote and no double quote. *)
Definition repr (s : string) : string :=
  let quote : ascii :=
    if mem_char "'" s && negb (mem_char dquote s) then dquote else "'"%char in
  String quote (repr_body quote s ++ String quote EmptyString).

(** [urllib.parse.quote(s)] with its default [safe="/"]. *)
Definition quote_safe (c : ascii) : bool :=
  let n := code c in
  between 65 90 n || between 97 122 n || between 48 57 n
  || mem_char c "_.-~/".

Definition quote_char (c : ascii) : string :=
  let n := code c in
  if quote_safe c then String c EmptyString
  else if (n <? 128)%nat then "%" ++ hex2 true n
  else "%" ++ hex2 true (192 + n / 64) ++ "%" ++ hex2 true (128 + n mod 64).

Fixpoint quote (s : string) : string :=
  match s with
  | EmptyString => EmptyString
  | String c r => quote_char c ++ quote r
  end.

(** [bool(s)] *)
Definition nonempty (s : string) : bool :=
  match s with EmptyString => false | _ => true end.

(** [a or b] on strings. *)
Definition or_else (a b : string) : string := if nonempty a then a else b.

End PyStr.

(** The answer of a library call that may raise. *)
Inductive answer (A : Type) : Type :=
| Fine (a : A)
| Raised (type_name msg : string).

Arguments Fine {A} a.
Arguments Raised {A} type_name msg.

(** ** JSON values and the Python operations the script applies to them *)

Inductive json : Type :=
| JNull
| JBool (b : bool)
| JInt (n : Z)
| JFloat (text : string)
| JStr (s : string)
| JArr (items : list json)
| JObj (fields : list (string * json)).

Inductive pyerr : Type :=
| RuntimeError (msg : string)
| HTTPError (code : Z) (body : answer string)
| AttributeError
| TypeError
| KeyError (key_repr : string)
| OtherError (type_name msg : string).

(** The outcome of running a piece of the script: a value, a raised
    exception, or a loop that used up the steps it was given. *)
Inductive result (A : Type) : Type :=
| Ok (a : A)
| Err (e : pyerr)
| Diverge.

Arguments Ok {A} a.
Arguments Err {A} e.
Arguments Diverge {A}.

Definition rbind {A B : Type} (r : result A) (f : A -> result B) : result B :=
  match r with
  | Ok a => f a
  | Err e => Err e
  | Diverge => Diverge
  end.

Declare Scope res_scope.
Delimit Scope res_scope with res.
Notation "x <- r ;; k" := (rbind r (fun x => k))
  (at level 61, r at next level, right associativity) : res_scope.

Module Py.

Fixpoint assoc {A : Type} (k : string) (kvs : list (string * A)) : option A :=
  match kvs with
  | [] => None
  | (k', v) :: rest => if String.eqb k k' then Some v else assoc k rest
  end.

(** [d[k] = v] on a dict: an existing key keeps its place. *)
Fixpoint dict_set {A : Type} (k : string) (v : A) (kvs : list (string * A))
  : list (string * A) :=
  match kvs with
  | [] => [(k, v)]
  | (k', v') :: rest =>
      if String.eqb k k' then (k, v) :: rest else (k', v') :: dict_set k v rest
  end.

(** [bool(v)] *)
Definition truthy (v : json) : bool :=
  match v with
  | JNull => false
  | JBool b => b
  | JInt n => negb (n =? 0)%Z
  | JFloat t => negb (String.eqb t "0.0" || String.eqb t "-0.0")
  | JStr s => PyStr.nonempty s
  | JArr [] => false
  | JArr (_ :: _) => true
  | JObj [] => false
  | JObj (_ :: _) => true
  end.

(** [a or b] *)
Definition por (a b : json) : json := if truthy a then a else b.

(** [repr(v)] *)
Fixpoint repr (v : json) : string :=
  match v with
  | JNull => "None"
  | JBool true => "True"
  | JBool false => "False"
  | JInt n => PyStr.of_Z n
  | JFloat t => t
  | JStr s => PyStr.repr s
  | JArr items => "[" ++ PyStr.join ", " (map repr items) ++ "]"
  | JObj fields =>
      "{" ++ PyStr.join ", "
               (map (fun kv => let '(k, x) := kv in PyStr.repr k ++ ": " ++ repr x) fields)
          ++ "}"
  end.

(** [str(v)] *)
Definition str (v : json) : string :=
  match v with
  | JStr s => s
  | _ => repr v
  end.

(** [d.get(k, default)]; only a dict has [get]. *)
Definition get (d : json) (k : string) (default : json) : result json :=
  match d with
  | JObj fields =>
      Ok (match assoc k fields with Some v => v | None => default end)
  | _ => Err AttributeError
  end.

(** [d[k]] for a string key [k]. *)
Definition item (d : json) (k : string) : result json :=
  match d with
  | JObj fields =>
      match assoc k fields with
      | Some v => Ok v
      | None => Err (KeyError (PyStr.repr k))
      end
  | _ => Err TypeError
  end.

Fixpoint chars (s : string) : list json :=
  match s with
  | EmptyString => []
  | String c r => JStr (String c EmptyString) :: chars r
  end.

(** The elements [for x in v] runs over. *)
Definition iter (v : json) : result (list json) :=
  match v with
  | JArr items => Ok items
  | JObj fields => Ok (map (fun kv => JStr (fst kv)) fields)
  | JStr s => Ok (chars s)
  | _ => Err TypeError
  end.

(** [v == JStr s] on parsed JSON: a string equals only an equal string. *)
Definition eq_str (v : json) (s : string) : bool :=
  match v with
  | JStr t => String.eqb t s
  | _ => false
  end.

(** [k in v] for a string [k]. *)
Definition contains (k : string) (v : json) : result bool :=
  match v with
  | JObj fields => Ok (match assoc k fields with Some _ => true | None => false end)
  | JArr items => Ok (existsb (fun x => eq_str x k) items)
  | JStr s => Ok (PyStr.contains k s)
  | _ => Err TypeError
  end.

(** [v[0]] *)
Definition first (v : json) : result json :=
  match v with
  | JArr (x :: _) => Ok x
  | JArr [] => Err (OtherError "IndexError" "list index out of range")
  | JStr (String c _) => Ok (JStr (String c EmptyString))
  | JStr EmptyString => Err (OtherError "IndexError" "string index out of range")
  | JObj _ => Err (KeyError "0")
  | _ => Err TypeError
  end.

(** What a value used as a dict key is written as by [json.dump]; a list
    or a dict cannot be a key at all. *)
Definition key_text (v : json) : result string :=
  match v with
  | JStr s => Ok s
  | JNull => Ok "null"
  | JBool true => Ok "true"
  | JBool false => Ok "false"
  | JInt n => Ok (PyStr.of_Z n)
  | JFloat t => Ok t
  | JArr _ | JObj _ => Err TypeError
  end.

End Py.

Local Open Scope res_scope.

(** ** Record builder: the pure functions of the script *)

(** [{"markedBad": False, "source": None, "markedAt": None}] *)
Definition default_status : json :=
  JObj [("markedBad", JBool false); ("source", JNull); ("markedAt", JNull)].

(** The loop of [_attached_pipette_serials] over the [/instruments]
    payload; [out] is the dict being filled. *)
Fixpoint attached_loop (items : list json) (out : list (string * string))
  : result (list (string * string)) :=
  match items with
  | [] => Ok out
  | item :: rest =>
      ty <- Py.get item "instrumentType" JNull ;;
      if negb (Py.eq_str ty "pipette") then attached_loop rest out
      else
        m <- Py.get item "mount" (JStr "") ;;
        let mount := PyStr.lower (Py.str m) in
        sn <- Py.get item "serialNumber" (JStr "") ;;
        let serial := PyStr.strip (Py.str sn) in
        if (String.eqb mount "left" || String.eqb mount "right")
           && PyStr.nonempty serial
        then attached_loop rest (Py.dict_set mount serial out)
        else attached_loop rest out
  end.

(** [_attached_pipette_serials] after its HTTP request has answered
    [payload]. *)
Definition attached_of_payload (payload : json) : result (list (string * string)) :=
  data <- Py.get payload "data" (JArr []) ;;
  items <- Py.iter data ;;
  attached_loop items [].

Fixpoint find_by_mount_loop (items : list json) (mount : string) : result json :=
  match items with
  | [] =>
      Err (RuntimeError
             ("No pipette offset template found for mount=" ++ PyStr.repr mount ++ "."))
  | entry :: rest =>
      m <- Py.get entry "mount" (JStr "") ;;
      if String.eqb (PyStr.lower (Py.str m)) mount then Ok entry
      else find_by_mount_loop rest mount
  end.

Definition _find_template_by_mount (pipette_offsets : json) (mount : string)
  : result json :=
  data <- Py.get pipette_offsets "data" (JArr []) ;;
  items <- Py.iter data ;;
  find_by_mount_loop items mount.

(** The [for] loop of [_find_tip_template_for_pipette]: [Some entry] when
    it returns from inside the loop, [None] when it falls through. *)
Fixpoint find_tip_loop (items : list json) (preferred_serial : string)
  : result (option json) :=
  match items with
  | [] => Ok None
  | entry :: rest =>
      p <- Py.get entry "pipette" (JStr "") ;;
      if String.eqb (PyStr.strip (Py.str p)) preferred_serial then Ok (Some entry)
      else find_tip_loop rest preferred_serial
  end.

(** [bool(s)] for [s : str | None] *)
Definition opt_truthy (s : option string) : bool :=
  match s with
  | Some t => PyStr.nonempty t
  | None => false
  end.

Definition _find_tip_template_for_pipette
  (tip_lengths : json) (preferred_serial : option string) : result json :=
  found <-
    match preferred_serial with
    | Some s =>
        if PyStr.nonempty s then
          data <- Py.get tip_lengths "data" (JArr []) ;;
          items <- Py.iter data ;;
          find_tip_loop items s
        else Ok None
    | None => Ok None
    end ;;
  match found with
  | Some entry => Ok entry
  | None =>
      data <- Py.get tip_lengths "data" (JArr []) ;;
      if negb (Py.truthy data) then Err (RuntimeError "No tip length templates found.")
      else Py.first data
  end.

(** The builders read the clock through [_utc_now]; its answer is the
    argument [now]. *)
Definition _build_pipette_file (template : json) (now : string) : result json :=
  offset <- Py.item template "offset" ;;
  tiprack <- Py.item template "tiprack" ;;
  uri0 <- Py.get template "uri" (JStr "") ;;
  uri <- Py.get template "tiprackUri" uri0 ;;
  source <- Py.get template "source" (JStr "user") ;;
  status <- Py.get template "status" default_status ;;
  Ok (JObj [("offset", offset); ("tiprack", tiprack); ("uri", uri);
            ("last_modified", JStr now); ("source", source); ("status", status)]).

Definition _build_tip_length_file (template : json) (now : string) : result json :=
  uri <- Py.item template "uri" ;;
  tip_length <- Py.item template "tipLength" ;;
  source <- Py.get template "source" (JStr "user") ;;
  status <- Py.get template "status" default_status ;;
  definition_hash <- Py.item template "tiprack" ;;
  key <- Py.key_text uri ;;
  Ok (JObj [(key, JObj [("tipLength", tip_length); ("lastModified", JStr now);
                        ("source", source); ("status", status);
                        ("definitionHash", definition_hash)])]).

(** The first statement of [_build_deck_file]: the nested document is
    unwrapped, the flat one is taken as it is. *)
Definition deck_of_source (deck_source : json) : result json :=
  nested <- Py.contains "deckCalibration" deck_source ;;
  if nested then
    dc <- Py.item deck_source "deckCalibration" ;;
    Py.item dc "data"
  else Ok deck_source.

Definition _build_deck_file (deck_source : json) (default_pipette now : string)
  : result json :=
  deck <- deck_of_source deck_source ;;
  a <- Py.get deck "attitude" JNull ;;
  attitude <- (if Py.truthy a then Ok a else Py.get deck "matrix" JNull) ;;
  if negb (Py.truthy attitude)
  then Err (RuntimeError "Deck template missing calibration attitude/matrix.")
  else
    source <- Py.get deck "source" (JStr "user") ;;
    camel <- Py.get deck "pipetteCalibratedWith" (JStr default_pipette) ;;
    pcw <- Py.get deck "pipette_calibrated_with" camel ;;
    tiprack <- Py.get deck "tiprack" JNull ;;
    status <- Py.get deck "status" default_status ;;
    Ok (JObj [("attitude", attitude); ("last_modified", JStr now);
              ("source", source); ("pipette_calibrated_with", pcw);
              ("tiprack", tiprack); ("status", status)]).


(** ** The world outside the process *)

(** [subprocess.CompletedProcess] *)
Record CompletedProcess : Type := {
  returncode : Z;
  stdout : string;
  stderr : string
}.

(** What the script does to the outside, in the order it does it. *)
Inductive event : Type :=
| EvClock
| EvSleep (seconds : float)
| EvHttpGet (url api_version : string) (timeout : float)
| EvSubprocess (cmd : list string) (input : option string)
| EvPrint (line : string)
| EvWriteJson (path : string) (payload : json)
| EvMkdtemp (prefix : string)
| EvRmtree (path : string).

Definition trace : Type := list event.

(** The answer of [urlopen] followed by [json.loads]: a parsed body, an
    [HTTPError] with its status and what reading its body gives (the text,
    or the exception [exc.read()] raises), or any other exception. *)
Inductive http_answer : Type :=
| HttpJson (payload : json)
| HttpStatus (code : Z) (body : answer string)
| HttpFailure (type_name msg : string).

(** Every oracle answers from the events so far.  The [path_] fields are
    [pathlib]: [path_of s] is [str(Path(s))], [path_join a b] is [a / b];
    [expanduser], [resolve] and [Path.home()] may raise. *)
Record Env : Type := {
  time_time : trace -> float;
  utc_now : trace -> string;
  urlopen_json : trace -> string -> string -> float -> http_answer;
  subprocess_run : trace -> list string -> option string -> answer CompletedProcess;
  read_bytes : trace -> string -> answer string;
  json_load : trace -> string -> answer json;
  json_dump : trace -> string -> json -> answer unit;
  is_file : trace -> string -> bool;
  is_dir : trace -> string -> bool;
  mkdtemp : trace -> string -> answer string;
  path_of : string -> string;
  path_join : string -> string -> string;
  path_expanduser : string -> answer string;
  path_resolve : string -> answer string;
  path_is_absolute : string -> bool;
  script_dir : string;
  sys_executable : string;
  xdg_config_home : option string;
  home_dir : answer string
}.

(** [argparse.Namespace] as [main] fills it.  [args_robot_name] and
    [args_ssh_key_dir] are the attributes [_robot_name] and [_ssh_key_dir],
    absent until [main] sets them. *)
Record Args : Type := {
  host : string;
  api_port : Z;
  api_version : string;
  ssh_user : string;
  ssh_port : Z;
  ssh_key : string;
  ssh_key_dir : string;
  ssh_key_scope : string;
  ensure_ssh_key : bool;
  no_ensure_ssh_key : bool;
  dry_run : bool;
  remote_tag : string;
  restart_robot_server : bool;
  no_restart_robot_server : bool;
  restart_wait_seconds : float;
  offsets_dir : string;
  pipette_offsets_template : string;
  tip_length_template : string;
  deck_template : string;
  args_robot_name : option string;
  args_ssh_key_dir : option string
}.

Definition set_host (a : Args) (v : string) : Args :=
  {| host := v; api_port := api_port a; api_version := api_version a;
     ssh_user := ssh_user a; ssh_port := ssh_port a; ssh_key := ssh_key a;
     ssh_key_dir := ssh_key_dir a; ssh_key_scope := ssh_key_scope a;
     ensure_ssh_key := ensure_ssh_key a; no_ensure_ssh_key := no_ensure_ssh_key a;
     dry_run := dry_run a; remote_tag := remote_tag a;
     restart_robot_server := restart_robot_server a;
     no_restart_robot_server := no_restart_robot_server a;
     restart_wait_seconds := restart_wait_seconds a; offsets_dir := offsets_dir a;
     pipette_offsets_template := pipette_offsets_template a;
     tip_length_template := tip_length_template a; deck_template := deck_template a;
     args_robot_name := args_robot_name a; args_ssh_key_dir := args_ssh_key_dir a |}.

Definition set_ssh_key (a : Args) (v : string) : Args :=
  {| host := host a; api_port := api_port a; api_version := api_version a;
     ssh_user := ssh_user a; ssh_port := ssh_port a; ssh_key := v;
     ssh_key_dir := ssh_key_dir a; ssh_key_scope := ssh_key_scope a;
     ensure_ssh_key := ensure_ssh_key a; no_ensure_ssh_key := no_ensure_ssh_key a;
     dry_run := dry_run a; remote_tag := remote_tag a;
     restart_robot_server := restart_robot_server a;
     no_restart_robot_server := no_restart_robot_server a;
     restart_wait_seconds := restart_wait_seconds a; offsets_dir := offsets_dir a;
     pipette_offsets_template := pipette_offsets_template a;
     tip_length_template := tip_length_template a; deck_template := deck_template a;
     args_robot_name := args_robot_name a; args_ssh_key_dir := args_ssh_key_dir a |}.

Definition set_restart_robot_server (a : Args) (v : bool) : Args :=
  {| host := host a; api_port := api_port a; api_version := api_version a;
     ssh_user := ssh_user a; ssh_port := ssh_port a; ssh_key := ssh_key a;
     ssh_key_dir := ssh_key_dir a; ssh_key_scope := ssh_key_scope a;
     ensure_ssh_key := ensure_ssh_key a; no_ensure_ssh_key := no_ensure_ssh_key a;
     dry_run := dry_run a; remote_tag := remote_tag a;
     restart_robot_server := v;
     no_restart_robot_server := no_restart_robot_server a;
     restart_wait_seconds := restart_wait_seconds a; offsets_dir := offsets_dir a;
     pipette_offsets_template := pipette_offsets_template a;
     tip_length_template := tip_length_template a; deck_template := deck_template a;
     args_robot_name := args_robot_name a; args_ssh_key_dir := args_ssh_key_dir a |}.

(** [args._robot_name = name; args._ssh_key_dir = args.ssh_key_dir] *)
Definition set_preflight_hints (a : Args) (name : string) : Args :=
  {| host := host a; api_port := api_port a; api_version := api_version a;
     ssh_user := ssh_user a; ssh_port := ssh_port a; ssh_key := ssh_key a;
     ssh_key_dir := ssh_key_dir a; ssh_key_scope := ssh_key_scope a;
     ensure_ssh_key := ensure_ssh_key a; no_ensure_ssh_key := no_ensure_ssh_key a;
     dry_run := dry_run a; remote_tag := remote_tag a;
     restart_robot_server := restart_robot_server a;
     no_restart_robot_server := no_restart_robot_server a;
     restart_wait_seconds := restart_wait_seconds a; offsets_dir := offsets_dir a;
     pipette_offsets_template := pipette_offsets_template a;
     tip_length_template := tip_length_template a; deck_template := deck_template a;
     args_robot_name := Some name; args_ssh_key_dir := Some (ssh_key_dir a) |}.

(** ** Computations over the history of events *)

Definition M (A : Type) : Type := trace -> result A * trace.

Definition ret {A : Type} (a : A) : M A := fun tr => (Ok a, tr).

Definition raise {A : Type} (e : pyerr) : M A := fun tr => (Err e, tr).

Definition diverge {A : Type} : M A := fun tr => (Diverge, tr).

Definition bind {A B : Type} (m : M A) (f : A -> M B) : M B :=
  fun tr =>
    match m tr with
    | (Ok a, tr') => f a tr'
    | (Err e, tr') => (Err e, tr')
    | (Diverge, tr') => (Diverge, tr')
    end.

Declare Scope m_scope.
Delimit Scope m_scope with M.
Notation "x <- m ;; k" := (bind m (fun x => k))
  (at level 61, m at next level, right associativity) : m_scope.
Notation "m ;;; k" := (bind m (fun _ => k))
  (at level 61, right associativity) : m_scope.

(** A pure step that may raise. *)
Definition lift {A : Type} (r : result A) : M A := fun tr => (r, tr).

(** An effect that answers nothing. *)
Definition emit (ev : event) : M unit := fun tr => (Ok tt, tr +++ [ev]).

(** A look at the world that leaves no event. *)
Definition query {A : Type} (f : trace -> A) : M A := fun tr => (Ok (f tr), tr).

(** A library call: the oracle answers from the history before the call,
    and the call is recorded. *)
Definition call {A : Type} (ev : event) (f : trace -> answer A) : M A :=
  fun tr =>
    (match f tr with
     | Fine a => Ok a
     | Raised t m => Err (OtherError t m)
     end, tr +++ [ev]).

(** [try: m  except Exception: handler] *)
Definition catch {A : Type} (m : M A) (handler : pyerr -> M A) : M A :=
  fun tr =>
    match m tr with
    | (Err e, tr') => handler e tr'
    | other => other
    end.

(** [try: m  finally: cleanup] *)
Definition finally {A : Type} (m : M A) (cleanup : M unit) : M A :=
  fun tr =>
    match m tr with
    | (r, tr') =>
        match cleanup tr' with
        | (Ok _, tr'') => (r, tr'')
        | (Err e, tr'') => (Err e, tr'')
        | (Diverge, tr'') => (Diverge, tr'')
        end
    end.

Definition when (b : bool) (m : M unit) : M unit := if b then m else ret tt.

(** [for x in xs: body x] *)
Fixpoint for_each {A : Type} (xs : list A) (body : A -> M unit) : M unit :=
  match xs with
  | [] => ret tt
  | x :: rest => bind (body x) (fun _ => for_each rest body)
  end.

Local Open Scope m_scope.

(** [proc.stderr.strip() or proc.stdout.strip() or f"exit code {rc}"] *)
Definition failure_detail (proc : CompletedProcess) : string :=
  PyStr.or_else (PyStr.strip (stderr proc))
    (PyStr.or_else (PyStr.strip (stdout proc))
       ("exit code " ++ PyStr.of_Z (returncode proc))).

(** [(proc.stderr or proc.stdout or "").strip() or f"exit code {rc}"] *)
Definition helper_detail (proc : CompletedProcess) : string :=
  PyStr.or_else
    (PyStr.strip (PyStr.or_else (stderr proc) (PyStr.or_else (stdout proc) EmptyString)))
    ("exit code " ++ PyStr.of_Z (returncode proc)).

Definition _ssh_base (args : Args) : list string :=
  (["ssh"; "-p"; PyStr.of_Z (ssh_port args); "-o"; "StrictHostKeyChecking=accept-new"]
   +++ (if PyStr.nonempty (ssh_key args) then ["-i"; ssh_key args] else [])
   +++ [ssh_user args ++ "@" ++ host args]).

Definition slug_keep (ch : ascii) : bool :=
  let n := PyStr.code ch in
  PyStr.between 97 122 n || PyStr.between 48 57 n || PyStr.mem_char ch "._-".

Fixpoint slug_loop (value : string) (prev_dash : bool) : string :=
  match value with
  | EmptyString => EmptyString
  | String ch rest =>
      if slug_keep ch then String ch (slug_loop rest false)
      else if prev_dash then slug_loop rest true
      else String "-" (slug_loop rest true)
  end.

(** [s.replace("--", "-")] *)
Fixpoint replace_double_dash (s : string) : string :=
  match s with
  | EmptyString => EmptyString
  | String c rest =>
      match rest with
      | String d rest' =>
          if Ascii.eqb c "-" && Ascii.eqb d "-"
          then String "-" (replace_double_dash rest')
          else String c (replace_double_dash rest)
      | EmptyString => s
      end
  end.

(** The [while "--" in s] loop; a pass that finds a pair shortens [s], so
    [length s] passes are enough. *)
Fixpoint collapse_dashes (passes : nat) (s : string) : string :=
  match passes with
  | O => s
  | S n =>
      if PyStr.contains "--" s then collapse_dashes n (replace_double_dash s) else s
  end.

Definition _slug (value : string) : string :=
  let value := PyStr.lower (PyStr.strip value) in
  let s := PyStr.strip_char "-" (slug_loop value false) in
  PyStr.or_else (collapse_dashes (String.length s) s) "ot2".

(** The remote staging directory of a run. *)
Definition remote_tmp_of (args : Args) : string := "/data/" ++ remote_tag args.

Definition remote_deck_final : string := "/data/robot/deck_calibration.json".

(** [bool(p) and bool(s)] for [p : Path | None] and [s : str | None]; a
    [Path] is always true. *)
Definition present (p s : option string) : bool :=
  match p with
  | Some _ => opt_truthy s
  | None => false
  end.

(** How an f-string prints [s : str | None]. *)
Definition fmt_opt (s : option string) : string :=
  match s with
  | Some t => t
  | None => "None"
  end.

(** The list [to_copy] of [_remote_apply]: local file, remote staging path. *)
Definition to_copy_of (remote_tmp : string)
  (local_left local_right local_tip_left local_tip_right : option string)
  (local_deck : string) (left_serial right_serial : option string)
  : list (string * string) :=
  ([(local_deck, remote_tmp ++ "/deck_calibration.json")]
   +++ (if present local_left left_serial
       then [(fmt_opt local_left, remote_tmp ++ "/" ++ fmt_opt left_serial ++ ".left.pipette.json")]
       else [])
   +++ (if present local_right right_serial
       then [(fmt_opt local_right, remote_tmp ++ "/" ++ fmt_opt right_serial ++ ".right.pipette.json")]
       else [])
   +++ (if present local_tip_left left_serial
       then [(fmt_opt local_tip_left, remote_tmp ++ "/" ++ fmt_opt left_serial ++ ".tip_lengths.json")]
       else [])
   +++ (if present local_tip_right right_serial
       then [(fmt_opt local_tip_right, remote_tmp ++ "/" ++ fmt_opt right_serial ++ ".tip_lengths.json")]
       else [])).

Definition strict_mode_command : string := "set -euo pipefail".

Definition mkdir_command : string :=
  "mkdir -p /data/robot/pipettes/left /data/robot/pipettes/right /data/tip_lengths /data/robot".

Definition cal_dir_command : string :=
  "CAL_DIR=" ++ PyStr.dq
  ++ "$(python -c 'from opentrons.config import get_opentrons_path; print(get_opentrons_path("
  ++ PyStr.dq ++ "robot_calibration_dir" ++ PyStr.dq ++ "))' 2>/dev/null || true)" ++ PyStr.dq.

(** The copy of the deck file to the directory the robot resolves. *)
Definition deck_mirror_command (remote_tmp : string) : string :=
  "if [ -n " ++ PyStr.dq ++ "$CAL_DIR" ++ PyStr.dq ++ " ]; then mkdir -p "
  ++ PyStr.dq ++ "$CAL_DIR" ++ PyStr.dq ++ "; cp "
  ++ remote_tmp ++ "/deck_calibration.json " ++ PyStr.dq ++ "$CAL_DIR/deck_calibration.json"
  ++ PyStr.dq ++ "; "
  ++ "fi".

Definition deck_copy_command (remote_tmp : string) : string :=
  "cp " ++ remote_tmp ++ "/deck_calibration.json " ++ remote_deck_final.

(** The call of the robot's own [DeckCalibrationModel] on the deck file. *)
Definition validator_command : string :=
  "python -c 'from opentrons.calibration_storage.ot2.models import v1; "
  ++ "from opentrons.config import get_opentrons_path; "
  ++ "from pathlib import Path; "
  ++ "p = Path(get_opentrons_path(" ++ PyStr.dq ++ "robot_calibration_dir" ++ PyStr.dq
  ++ ")) / " ++ PyStr.dq ++ "deck_calibration.json" ++ PyStr.dq ++ "; "
  ++ "v1.DeckCalibrationModel.model_validate_json(p.read_text(encoding="
  ++ PyStr.dq ++ "utf-8" ++ PyStr.dq ++ ")); "
  ++ "print(" ++ PyStr.dq ++ "deck_calibration_valid" ++ PyStr.dq ++ ", str(p))'".

(** The lines appended after the validator, one per instrument file. *)
Definition instrument_copy_commands (remote_tmp : string)
  (local_left local_right local_tip_left local_tip_right : option string)
  (left_serial right_serial : option string) : list string :=
  ((if present local_left left_serial
    then ["cp " ++ remote_tmp ++ "/" ++ fmt_opt left_serial ++ ".left.pipette.json /data/robot/pipettes/left/"
          ++ fmt_opt left_serial ++ ".json"]
    else [])
   +++ (if present local_right right_serial
       then ["cp " ++ remote_tmp ++ "/" ++ fmt_opt right_serial
             ++ ".right.pipette.json /data/robot/pipettes/right/" ++ fmt_opt right_serial ++ ".json"]
       else [])
   +++ (if present local_tip_left left_serial
       then ["cp " ++ remote_tmp ++ "/" ++ fmt_opt left_serial ++ ".tip_lengths.json /data/tip_lengths/"
             ++ fmt_opt left_serial ++ ".json"]
       else [])
   +++ (if present local_tip_right right_serial
       then ["cp " ++ remote_tmp ++ "/" ++ fmt_opt right_serial ++ ".tip_lengths.json /data/tip_lengths/"
             ++ fmt_opt right_serial ++ ".json"]
       else [])).

(** The list [script_lines] of [_remote_apply]. *)
Definition script_lines_of (remote_tmp : string)
  (local_left local_right local_tip_left local_tip_right : option string)
  (left_serial right_serial : option string) : list string :=
  ([strict_mode_command;
    mkdir_command;
    cal_dir_command;
    deck_mirror_command remote_tmp;
    deck_copy_command remote_tmp;
    validator_command]
   +++ instrument_copy_commands remote_tmp local_left local_right local_tip_left
        local_tip_right left_serial right_serial).

Definition remote_script_of (remote_tmp : string)
  (local_left local_right local_tip_left local_tip_right : option string)
  (left_serial right_serial : option string) : string :=
  PyStr.join " && "
    (script_lines_of remote_tmp local_left local_right local_tip_left local_tip_right
       left_serial right_serial).

(** ** The script over an environment *)

Section Script.

Variable E : Env.

(** [subprocess.run(cmd, input=input, capture_output=True)] *)
Definition run_process (cmd : list string) (input : option string) : M CompletedProcess :=
  call (EvSubprocess cmd input) (fun tr => subprocess_run E tr cmd input).

Definition print (line : string) : M unit := emit (EvPrint line).

(** [time.time()] *)
Definition clock_read : M float := fun tr => (Ok (time_time E tr), tr +++ [EvClock]).

(** [time.sleep(seconds)] *)
Definition sleep (seconds : float) : M unit := emit (EvSleep seconds).

(** The request of [_http_json], with what came back. *)
Definition http_get (url api_version : string) (timeout : float) : M http_answer :=
  fun tr => (Ok (urlopen_json E tr url api_version timeout),
             tr +++ [EvHttpGet url api_version timeout]).

Definition _http_json (url api_version : string) (timeout : float) : M json :=
  a <- http_get url api_version timeout ;;
  match a with
  | HttpJson payload => ret payload
  | HttpStatus code body => raise (HTTPError code body)
  | HttpFailure type_name msg => raise (OtherError type_name msg)
  end.

Definition _run (cmd : list string) (check : bool) : M CompletedProcess :=
  proc <- run_process cmd None ;;
  if check && negb (returncode proc =? 0)%Z
  then raise (RuntimeError ("Command failed: " ++ PyStr.join " " cmd ++ PyStr.nl
                            ++ failure_detail proc))
  else ret proc.

Definition _ssh_copy_file (args : Args) (src dst : string) : M unit :=
  let ssh_cmd := _ssh_base args +++ ["cat > " ++ PyStr.quote dst] in
  data <- query (fun tr => read_bytes E tr src) ;;
  data <- lift (match data with
                | Fine d => Ok d
                | Raised t m => Err (OtherError t m)
                end) ;;
  proc <- run_process ssh_cmd (Some data) ;;
  if negb (returncode proc =? 0)%Z
  then raise (RuntimeError ("Upload failed: " ++ PyStr.join " " ssh_cmd ++ PyStr.nl
                            ++ failure_detail proc))
  else ret tt.

Definition _load_json (path : string) : M json :=
  a <- query (fun tr => json_load E tr path) ;;
  match a with
  | Fine v => ret v
  | Raised t m => raise (OtherError t m)
  end.

Definition _write_json (path : string) (payload : json) : M unit :=
  call (EvWriteJson path payload) (fun tr => json_dump E tr path payload).

(** The answer of a library call, as a step of the script. *)
Definition answered {A : Type} (a : answer A) : M A :=
  lift (match a with
        | Fine d => Ok d
        | Raised t m => Err (OtherError t m)
        end).

(** [Path.home() / ".config"] *)
Definition home_config : M string :=
  home <- answered (home_dir E) ;;
  ret (path_join E home ".config").

Definition _default_key_dir : M string :=
  base <-
    match xdg_config_home E with
    | Some s => if PyStr.nonempty s then ret (path_of E s) else home_config
    | None => home_config
    end ;;
  ret (path_join E (path_join E base "opentrons-tools") "ssh").

Definition health_url (host : string) (api_port : Z) : string :=
  "http://" ++ host ++ ":" ++ PyStr.of_Z api_port ++ "/health".

Definition _robot_name (host : string) (api_port : Z) (api_version : string) : M string :=
  payload <- _http_json (health_url host api_port) api_version 5 ;;
  name <- lift (Py.get payload "name" JNull) ;;
  ret (Py.str (Py.por name (JStr "opentrons"))).

(** [now - start > timeout_seconds] on Python floats: the subtraction
    rounds, and a comparison with a NaN is false. *)
Definition elapsed_exceeds (now start timeout_seconds : float) : bool :=
  PrimFloat.ltb timeout_seconds (PrimFloat.sub now start).

Definition timeout_message (url : string) (last_err : option string) : string :=
  "Timed out waiting for robot-server to become ready at " ++ url ++ "." ++ PyStr.nl
  ++ (if opt_truthy last_err then fmt_opt last_err else "timeout waiting for /health").

(** The [while True] loop of [_wait_for_robot_server_ready]; [steps] bounds
    the number of rounds.  The [try] around the request is the case
    analysis on what came back; the body of an [HTTPError] is read inside
    its handler, so an exception of that read leaves the loop. *)
Fixpoint wait_loop (steps : nat) (url api_version : string) (start timeout_seconds : float)
  (last_err : option string) : M unit :=
  match steps with
  | O => diverge
  | S steps' =>
      now <- clock_read ;;
      if elapsed_exceeds now start timeout_seconds
      then raise (RuntimeError (timeout_message url last_err))
      else
        a <- http_get url api_version 2 ;;
        match a with
        | HttpJson _ => ret tt
        | HttpStatus code body =>
            match body with
            | Fine text =>
                sleep 2 ;;;
                wait_loop steps' url api_version start timeout_seconds
                  (Some ("HTTP " ++ PyStr.of_Z code ++ ": " ++ PyStr.take 200 text))
            | Raised type_name msg => raise (OtherError type_name msg)
            end
        | HttpFailure type_name msg =>
            sleep 2 ;;;
            wait_loop steps' url api_version start timeout_seconds
              (Some (type_name ++ ": " ++ msg))
        end
  end.

Definition _wait_for_robot_server_ready (steps : nat) (host : string) (api_port : Z)
  (api_version : string) (timeout_seconds : float) : M unit :=
  let url := health_url host api_port in
  start <- clock_read ;;
  wait_loop steps url api_version start timeout_seconds None.

Definition _ssh_preflight (args : Args) : M unit :=
  proc <- run_process (_ssh_base args +++ ["true"]) None ;;
  if (returncode proc =? 0)%Z then ret tt
  else
    let detail := failure_detail proc in
    extra <-
      (if opt_truthy (args_robot_name args) then
         let dir_attr := match args_ssh_key_dir args with Some d => d | None => EmptyString end in
         base <- (if PyStr.nonempty dir_attr then ret (path_of E dir_attr)
                  else _default_key_dir) ;;
         key_dir <- answered (path_expanduser E base) ;;
         let pub := path_join E key_dir
                      ("ot2_" ++ _slug (fmt_opt (args_robot_name args)) ++ "_ed25519.pub") in
         found <- query (fun tr => is_file E tr pub) ;;
         ret (if found : bool
              then PyStr.nl
                   ++ "If you need to authorize a key on the robot, you can use this generated public key:"
                   ++ PyStr.nl ++ "  " ++ pub ++ PyStr.nl
              else EmptyString)
       else ret EmptyString) ;;
    raise (RuntimeError
             ("Unable to SSH to the robot with the current settings." ++ PyStr.nl
              ++ "  target: " ++ ssh_user args ++ "@" ++ host args ++ ":"
              ++ PyStr.of_Z (ssh_port args) ++ PyStr.nl
              ++ "  detail: " ++ detail ++ PyStr.nl ++ PyStr.nl
              ++ "Fix options:" ++ PyStr.nl
              ++ "- Provide an authorized key: --ssh-key /path/to/private_key" ++ PyStr.nl
              ++ "- Or (if the robot allows password auth) run once with: --ensure-ssh-key"
              ++ PyStr.nl ++ extra)).

Definition instruments_url (host : string) (api_port : Z) : string :=
  "http://" ++ host ++ ":" ++ PyStr.of_Z api_port ++ "/instruments".

Definition _attached_pipette_serials (host : string) (api_port : Z) (api_version : string)
  : M (list (string * string)) :=
  payload <- _http_json (instruments_url host api_port) api_version 20 ;;
  lift (attached_of_payload payload).

Definition _remote_apply (steps : nat) (args : Args)
  (local_left local_right local_tip_left local_tip_right : option string)
  (local_deck : string) (left_serial right_serial : option string) : M unit :=
  let remote_tmp := remote_tmp_of args in
  let to_copy := to_copy_of remote_tmp local_left local_right local_tip_left
                   local_tip_right local_deck left_serial right_serial in
  let remote_script := remote_script_of remote_tmp local_left local_right local_tip_left
                         local_tip_right left_serial right_serial in
  if dry_run args then
    print "[dry-run] files that would be uploaded:" ;;;
    for_each to_copy (fun p => print ("  " ++ fst p ++ " -> " ++ snd p)) ;;;
    print "[dry-run] remote apply script:" ;;;
    print remote_script
  else
    _run (_ssh_base args +++ ["mkdir -p " ++ remote_tmp]) true ;;;
    for_each to_copy (fun p => _ssh_copy_file args (fst p) (snd p)) ;;;
    _run (_ssh_base args +++ [remote_script]) true ;;;
    if restart_robot_server args then
      _run (_ssh_base args +++ ["systemctl restart opentrons-robot-server"]) true ;;;
      _wait_for_robot_server_ready steps (host args) (api_port args) (api_version args)
        (restart_wait_seconds args)
    else ret tt.

(** [right_serial or left_serial or ""] *)
Definition default_pipette_of (left_serial right_serial : option string) : string :=
  if opt_truthy right_serial then fmt_opt right_serial
  else if opt_truthy left_serial then fmt_opt left_serial
  else EmptyString.

(** [s or '<none>'] inside an f-string. *)
Definition or_none (s : option string) : string :=
  if opt_truthy s then fmt_opt s else "<none>".

(** The text [main] prints before a restart; its three characters outside
    ASCII are given by their UTF-8 bytes. *)
Definition restart_notice : string :=
  "Will restart opentrons-robot-server after copying files (expect ~1"
  ++ String (ascii_of_nat 195) (String (ascii_of_nat 162) EmptyString)
  ++ String (ascii_of_nat 226) (String (ascii_of_nat 130) (String (ascii_of_nat 172) EmptyString))
  ++ String (ascii_of_nat 226) (String (ascii_of_nat 128) (String (ascii_of_nat 156) EmptyString))
  ++ "3 minutes of 502/503 responses).".

(** The two statements of [main] that build and write the files of one
    mount; [mount] is the literal the source passes. *)
Definition prepare_mount (td_path : string) (pipette_tpl tip_tpl : json)
  (mount : string) (serial : option string) : M (option string * option string) :=
  if opt_truthy serial then
    p <- lift (_find_template_by_mount pipette_tpl mount) ;;
    let p_file := path_join E td_path (fmt_opt serial ++ "." ++ mount ++ ".pipette.json") in
    now <- query (utc_now E) ;;
    p_payload <- lift (_build_pipette_file p now) ;;
    _write_json p_file p_payload ;;;
    t <- lift (_find_tip_template_for_pipette tip_tpl serial) ;;
    let t_file := path_join E td_path (fmt_opt serial ++ ".tip_lengths.json") in
    now <- query (utc_now E) ;;
    t_payload <- lift (_build_tip_length_file t now) ;;
    _write_json t_file t_payload ;;;
    ret (Some p_file, Some t_file)
  else ret (None, None).

(** The body of the [with tempfile.TemporaryDirectory(...)] block. *)
Definition stage_and_apply (steps : nat) (args : Args) (td : string)
  (pipette_tpl tip_tpl deck_tpl : json) (left_serial right_serial : option string)
  : M unit :=
  let td_path := path_of E td in
  lf <- prepare_mount td_path pipette_tpl tip_tpl "left" left_serial ;;
  rf <- prepare_mount td_path pipette_tpl tip_tpl "right" right_serial ;;
  let default_pipette_for_deck := default_pipette_of left_serial right_serial in
  let deck_file := path_join E td_path "deck_calibration.json" in
  now <- query (utc_now E) ;;
  deck_payload <- lift (_build_deck_file deck_tpl default_pipette_for_deck now) ;;
  _write_json deck_file deck_payload ;;;
  written <- query (fun tr => is_file E tr deck_file) ;;
  (if negb written
   then raise (RuntimeError ("Failed to write deck calibration file: " ++ deck_file))
   else ret tt) ;;;
  print "Prepared local payloads:" ;;;
  for_each [fst lf; fst rf; snd lf; snd rf; Some deck_file]
    (fun p => match p with
              | Some f => print ("  " ++ f)
              | None => ret tt
              end) ;;;
  when (negb (dry_run args) && restart_robot_server args) (print restart_notice) ;;;
  _remote_apply steps args (fst lf) (fst rf) (snd lf) (snd rf) deck_file
    left_serial right_serial.

(** [main] when no [--host] was given: the host resolver is run. *)
Definition resolve_host (args : Args) (host_resolver : string) : M Args :=
  if PyStr.nonempty (host args) then ret args
  else
    found <- query (fun tr => is_file E tr host_resolver) ;;
    if negb found
    then raise (RuntimeError
                  ("--host was omitted and host resolver was not found: " ++ host_resolver
                   ++ ". " ++ "Pass --host HOST."))
    else
      proc <- run_process
                [sys_executable E; host_resolver; "--port"; PyStr.of_Z (api_port args);
                 "--api-version"; api_version args] None ;;
      if negb (returncode proc =? 0)%Z
      then raise (RuntimeError
                    ("Failed to auto-resolve OT-2 host. Pass --host HOST." ++ PyStr.nl
                     ++ helper_detail proc))
      else
        let args := set_host args (PyStr.strip (stdout proc)) in
        if negb (PyStr.nonempty (host args))
        then raise (RuntimeError "Host resolver returned empty host. Pass --host HOST.")
        else ret args.

(** [main] when no key is known and auto-setup applies: the key helper is
    run. *)
Definition ensure_key (args : Args) (ssh_key_helper : string) : M Args :=
  let auto_ensure := ensure_ssh_key args || negb (no_ensure_ssh_key args) in
  if negb (PyStr.nonempty (ssh_key args)) && auto_ensure && negb (dry_run args) then
    found <- query (fun tr => is_file E tr ssh_key_helper) ;;
    if negb found
    then raise (RuntimeError
                  ("SSH key helper was not found: " ++ ssh_key_helper ++ ". "
                   ++ "Provide --ssh-key PATH or pass --no-ensure-ssh-key."))
    else
      let ensure_cmd :=
        [sys_executable E; ssh_key_helper; "--host"; host args;
         "--api-port"; PyStr.of_Z (api_port args); "--api-version"; api_version args;
         "--ssh-user"; ssh_user args; "--ssh-port"; PyStr.of_Z (ssh_port args);
         "--scope"; ssh_key_scope args; "--ensure-authorized"]
        +++ (if PyStr.nonempty (ssh_key_dir args) then ["--key-dir"; ssh_key_dir args] else []) in
      proc <- run_process ensure_cmd None ;;
      if negb (returncode proc =? 0)%Z then
        let detail := helper_detail proc in
        let target := ssh_user args ++ "@" ++ host args ++ ":" ++ PyStr.of_Z (ssh_port args) in
        if PyStr.contains "Permission denied (publickey)" detail
        then raise (RuntimeError
                      ("Failed to set up SSH key for " ++ target ++ "." ++ PyStr.nl
                       ++ detail ++ PyStr.nl ++ PyStr.nl
                       ++ "This usually means the robot is configured for publickey-only SSH and does not allow password-based login, "
                       ++ "so the helper cannot install a new key automatically."
                       ++ PyStr.nl ++ PyStr.nl
                       ++ "Fix options:" ++ PyStr.nl
                       ++ "- Provide an already-authorized private key with --ssh-key" ++ PyStr.nl
                       ++ "- Or authorize the generated public key on the robot out-of-band (reimage / console access), then re-run"
                       ++ PyStr.nl))
        else raise (RuntimeError
                      ("Failed to ensure SSH key for " ++ target ++ "." ++ PyStr.nl ++ detail))
      else
        let args := set_ssh_key args (PyStr.strip (stdout proc)) in
        if negb (PyStr.nonempty (ssh_key args))
        then raise (RuntimeError "SSH key helper returned empty key path.")
        else ret args
  else ret args.

(** [main], from the parsed command line [args]. *)
Definition main (steps : nat) (args : Args) : M unit :=
  let repo_dir := script_dir E in
  let host_resolver := path_join E repo_dir "ot2_resolve_host.py" in
  let ssh_key_helper := path_join E repo_dir "ot2_ensure_ssh_key.py" in
  let args := set_restart_robot_server args (negb (no_restart_robot_server args)) in
  offsets <- answered (path_expanduser E (path_of E (offsets_dir args))) ;;
  offsets <- answered (path_resolve E offsets) ;;
  pipette_template_path <-
    answered (path_expanduser E (path_of E (pipette_offsets_template args))) ;;
  tip_template_path <-
    answered (path_expanduser E (path_of E (tip_length_template args))) ;;
  deck_template_path <- answered (path_expanduser E (path_of E (deck_template args))) ;;
  let under_offsets p := if path_is_absolute E p then p else path_join E offsets p in
  let pipette_template_path := under_offsets pipette_template_path in
  let tip_template_path := under_offsets tip_template_path in
  let deck_template_path := under_offsets deck_template_path in
  offsets_found <- query (fun tr => is_dir E tr offsets) ;;
  (if negb offsets_found
   then raise (RuntimeError
                 ("Offsets directory not found: " ++ offsets ++ ". "
                  ++ "Pass --offsets-dir PATH, or ensure an offsets/ folder exists next to this script."))
   else ret tt) ;;;
  for_each [pipette_template_path; tip_template_path; deck_template_path]
    (fun p =>
       found <- query (fun tr => is_file E tr p) ;;
       if negb found then raise (RuntimeError ("Template file not found: " ++ p))
       else ret tt) ;;;
  args <- resolve_host args host_resolver ;;
  robot_name <- catch (_robot_name (host args) (api_port args) (api_version args))
                  (fun _ => ret "opentrons") ;;
  let args := set_preflight_hints args robot_name in
  args <-
    (if negb (PyStr.nonempty (ssh_key args)) then
       key_dir <-
         (if PyStr.nonempty (ssh_key_dir args)
          then answered (path_expanduser E (path_of E (ssh_key_dir args)))
          else _default_key_dir) ;;
       let candidate := path_join E key_dir ("ot2_" ++ _slug robot_name ++ "_rsa") in
       found <- query (fun tr => is_file E tr candidate) ;;
       ret (if found : bool then set_ssh_key args candidate else args)
     else ret args) ;;
  args <- ensure_key args ssh_key_helper ;;
  when (negb (dry_run args)) (_ssh_preflight args) ;;;
  mounts <- _attached_pipette_serials (host args) (api_port args) (api_version args) ;;
  let left_serial := Py.assoc "left" mounts in
  let right_serial := Py.assoc "right" mounts in
  (if negb (opt_truthy left_serial) && negb (opt_truthy right_serial)
   then raise (RuntimeError "No attached left/right pipettes were found via /instruments.")
   else ret tt) ;;;
  pipette_tpl <- _load_json pipette_template_path ;;
  tip_tpl <- _load_json tip_template_path ;;
  deck_tpl <- _load_json deck_template_path ;;
  print "Detected pipettes:" ;;;
  print ("  left:  " ++ or_none left_serial) ;;;
  print ("  right: " ++ or_none right_serial) ;;;
  td <- call (EvMkdtemp "apply-standard-offsets-")
          (fun tr => mkdtemp E tr "apply-standard-offsets-") ;;
  finally
    (stage_and_apply steps args td pipette_tpl tip_tpl deck_tpl left_serial right_serial)
    (emit (EvRmtree td)) ;;;
  print "Done." ;;;
  when (negb (dry_run args) && negb (restart_robot_server args))
    (print "Recommend rebooting or restarting robot-server before running tests.") ;;;
  when (negb (dry_run args) && restart_robot_server args)
    (print "robot-server was restarted to load deck calibration (API may have been unavailable briefly).").

End Script.

(** The values [argparse] gives when the command line names no option. *)
Definition default_args (E : Env) : Args :=
  {| host := EmptyString; api_port := 31950; api_version := "2";
     ssh_user := "root"; ssh_port := 22; ssh_key := EmptyString;
     ssh_key_dir := EmptyString; ssh_key_scope := "per-robot";
     ensure_ssh_key := false; no_ensure_ssh_key := false;
     dry_run := false; remote_tag := "standard-offsets-upload";
     restart_robot_server := false; no_restart_robot_server := false;
     restart_wait_seconds := 120;
     offsets_dir := path_join E (script_dir E) "offsets";
     pipette_offsets_template := "pipette_offsets_all.json";
     tip_length_template := "tip_length_offsets_all.json";
     deck_template := "calibration_status_with_deck_offset.json";
     args_robot_name := None; args_ssh_key_dir := None |}.

(** ** Vocabulary of the statements *)



Definition is_dict (v : json) : bool :=
  match v with
  | JObj _ => true
  | _ => false
  end.

(** The binding of a key in a document, if it is a dict that has the key. *)
Definition lookup (v : json) (k : string) : option json :=
  match v with
  | JObj fields => Py.assoc k fields
  | _ => None
  end.

(** The text of a field of an entry; the empty text when the key is absent. *)
Definition field_text (entry : json) (k : string) : string :=
  match lookup entry k with
  | Some v => Py.str v
  | None => EmptyString
  end.



(** The error the script raises on an empty tip-length set. *)
Definition no_tip_templates : pyerr := RuntimeError "No tip length templates found.".

(** The error the script raises when the deck template has no attitude. *)
Definition schema_mismatch : pyerr :=
  RuntimeError "Deck template missing calibration attitude/matrix.".

(** What [_attached_pipette_serials] binds for one entry of the directory:
    its mount and serial, when the entry passes the tests of the loop. *)
Definition eligible (entry : json) : option (string * string) :=
  let ty := match lookup entry "instrumentType" with Some v => v | None => JNull end in
  let mount := PyStr.lower (field_text entry "mount") in
  let serial := PyStr.strip (field_text entry "serialNumber") in
  if Py.eq_str ty "pipette"
     && (String.eqb mount "left" || String.eqb mount "right")
     && PyStr.nonempty serial
  then Some (mount, serial) else None.

Definition bindings (entries : list json) : list (string * string) :=
  flat_map (fun e => match eligible e with Some p => [p] | None => [] end) entries.

(** An entry of the directory is flagged operational: its [ok] is true. *)
Definition operational (entry : json) : bool :=
  match lookup entry "ok" with
  | Some v => Py.truthy v
  | None => false
  end.

(** The entry is bound to the serial, the way the tip-length search reads
    the field: as text, without the blanks around it. *)
Definition bound_to (serial : string) (entry : json) : bool :=
  String.eqb (PyStr.strip (field_text entry "pipette")) serial.

(** The field of the entry is the very string [s]. *)
Definition field_equals (k s : string) (entry : json) : bool :=
  match lookup entry k with
  | Some v => Py.eq_str v s
  | None => false
  end.

(** [d.get(k)] on a dict. *)
Definition value_or_null (d : json) (k : string) : json :=
  match lookup d k with
  | Some v => v
  | None => JNull
  end.

(** The attitude the deck builder keeps: the [attitude] field when it is
    true in Python's sense, the [matrix] field otherwise. *)
Definition attitude_of (deck : json) : json :=
  Py.por (value_or_null deck "attitude") (value_or_null deck "matrix").

(** The precedence of the pipette-calibrated-with field, by presence of
    the keys. *)
Definition calibrated_with (deck : json) (default_pipette : string) : json :=
  match lookup deck "pipette_calibrated_with" with
  | Some v => v
  | None =>
      match lookup deck "pipetteCalibratedWith" with
      | Some v => v
      | None => JStr default_pipette
      end
  end.

(** A whole number of seconds, as a Python float. *)
Definition seconds_of_nat (n : nat) : float :=
  PrimFloat.of_uint63 (Uint63.of_Z (Z.of_nat n)).

(** ** A laboratory environment for concrete runs

    The clock advances one second per event, every subprocess exits with
    status 0, every file exists, and the controller answers [/health] with
    [health] and [/instruments] with [instruments]. *)

Definition lab_process : CompletedProcess :=
  {| returncode := 0; stdout := EmptyString; stderr := EmptyString |}.

Definition lab_pipette_templates (mounts : list string) : json :=
  JObj [("data",
         JArr (map (fun m =>
                      JObj [("mount", JStr m);
                            ("offset", JArr [JFloat "0.1"; JFloat "-0.2"; JFloat "0.3"]);
                            ("tiprack", JStr "opentrons/opentrons_96_tiprack_300ul/1");
                            ("uri", JStr "opentrons/opentrons_96_tiprack_300ul/1")])
                   mounts))].

Definition lab_tip_templates : json :=
  JObj [("data",
         JArr [JObj [("pipette", JStr "P300L123"); ("tipLength", JFloat "51.2");
                     ("tiprack", JStr "opentrons/opentrons_96_tiprack_300ul/1");
                     ("uri", JStr "opentrons/opentrons_96_tiprack_300ul/1")]])].

Definition lab_deck_template : json :=
  JObj [("attitude",
         JArr [JArr [JInt 1; JInt 0; JInt 0]; JArr [JInt 0; JInt 1; JInt 0];
               JArr [JInt 0; JInt 0; JInt 1]])].

Definition lab (pipette_mounts : list string) (instruments : json) (health : http_answer)
  : Env :=
  {| time_time := fun tr => seconds_of_nat (List.length tr);
     utc_now := fun _ => "2024-01-01T00:00:00+00:00";
     urlopen_json := fun _ url _ _ =>
       if String.eqb url "http://ot2:31950/instruments" then HttpJson instruments
       else health;
     subprocess_run := fun _ _ _ => Fine lab_process;
     read_bytes := fun _ _ => Fine "{}";
     json_load := fun _ path =>
       if String.eqb path "/opt/tools/offsets/pipette_offsets_all.json"
       then Fine (lab_pipette_templates pipette_mounts)
       else if String.eqb path "/opt/tools/offsets/tip_length_offsets_all.json"
       then Fine lab_tip_templates
       else Fine lab_deck_template;
     json_dump := fun _ _ _ => Fine tt;
     is_file := fun _ _ => true;
     is_dir := fun _ _ => true;
     mkdtemp := fun _ prefix => Fine ("/tmp/" ++ prefix ++ "k3x9");
     path_of := fun p => p;
     path_join := fun a b => a ++ "/" ++ b;
     path_expanduser := fun p => Fine p;
     path_resolve := fun p => Fine p;
     path_is_absolute := fun p => String.prefix "/" p;
     script_dir := "/opt/tools";
     sys_executable := "/usr/bin/python3";
     xdg_config_home := None;
     home_dir := Fine "/home/lab" |}.

Definition lab_args (E : Env) (dry : bool) (key : string) : Args :=
  let d := default_args E in
  {| host := "ot2"; api_port := api_port d; api_version := api_version d;
     ssh_user := ssh_user d; ssh_port := ssh_port d; ssh_key := key;
     ssh_key_dir := ssh_key_dir d; ssh_key_scope := ssh_key_scope d;
     ensure_ssh_key := ensure_ssh_key d; no_ensure_ssh_key := no_ensure_ssh_key d;
     dry_run := dry; remote_tag := remote_tag d;
     restart_robot_server := restart_robot_server d;
     no_restart_robot_server := no_restart_robot_server d;
     restart_wait_seconds := restart_wait_seconds d; offsets_dir := offsets_dir d;
     pipette_offsets_template := pipette_offsets_template d;
     tip_length_template := tip_length_template d; deck_template := deck_template d;
     args_robot_name := args_robot_name d; args_ssh_key_dir := args_ssh_key_dir d |}.

Definition lab_left_only : json :=
  JObj [("data",
         JArr [JObj [("instrumentType", JStr "pipette"); ("mount", JStr "left");
                     ("serialNumber", JStr "P300L123"); ("ok", JBool true)]])].

Definition lab_both : json :=
  JObj [("data",
         JArr [JObj [("instrumentType", JStr "pipette"); ("mount", JStr "left");
                     ("serialNumber", JStr "P300L123"); ("ok", JBool true)];
               JObj [("instrumentType", JStr "pipette"); ("mount", JStr "right");
                     ("serialNumber", JStr "P20R456"); ("ok", JBool true)]])].

Definition lab_healthy : http_answer := HttpJson (JObj [("name", JStr "OT2CEP2020")]).

(** The event is not an upload: no subprocess is fed a file. *)
Definition not_upload (ev : event) : Prop :=
  match ev with
  | EvSubprocess _ (Some _) => False
  | _ => True
  end.




(** The lines a dry run of [_remote_apply] prints. *)
Definition dry_run_report (to_copy : list (string * string)) (remote_script : string)
  : list string :=
  ["[dry-run] files that would be uploaded:"]
  +++ map (fun p => "  " ++ fst p ++ " -> " ++ snd p) to_copy
  +++ ["[dry-run] remote apply script:"; remote_script].

(** The upload of one staged file: [ssh ... "cat > dst"] fed with [data]. *)
Definition upload_event (args : Args) (data : string) (dst : string) : event :=
  EvSubprocess (_ssh_base args +++ ["cat > " ++ PyStr.quote dst]) (Some data).


(** The event is a health probe. *)
Definition is_probe (ev : event) : bool :=
  match ev with
  | EvHttpGet _ _ _ => true
  | _ => false
  end.

(** The detail the readiness waiter keeps of a probe that failed. *)
Definition failure_text (a : http_answer) : option string :=
  match a with
  | HttpJson _ => None
  | HttpStatus code (Fine text) =>
      Some ("HTTP " ++ PyStr.of_Z code ++ ": " ++ PyStr.take 200 text)
  | HttpStatus code (Raised _ _) => None
  | HttpFailure type_name msg => Some (type_name ++ ": " ++ msg)
  end.

Definition lab_starting : http_answer :=
  HttpStatus 503 (Fine "robot-server is starting").

(** The reading of the body of an HTTP error failed, and [e] is what that
    raised. *)
Definition body_unreadable (a : http_answer) (e : pyerr) : Prop :=
  exists code type_name msg,
    a = HttpStatus code (Raised type_name msg) /\ e = OtherError type_name msg.

(** The order on two finite floats of one sign is the order of their
    exponents, then of their mantissas. *)
Definition lex (e1 : Z) (m1 : positive) (e2 : Z) (m2 : positive) : comparison :=
  match Z.compare e1 e2 with
  | Lt => Lt
  | Gt => Gt
  | Eq => Pos.compare_cont Eq m1 m2
  end.

Definition lexo (e1 : Z) (m1 : positive) (e2 : Z) (m2 : positive) : comparison :=
  match Z.compare e1 e2 with
  | Lt => Gt
  | Gt => Lt
  | Eq => CompOpp (Pos.compare_cont Eq m1 m2)
  end.



(** ** Sample documents *)

Definition identity_matrix : json :=
  JArr [JArr [JInt 1; JInt 0; JInt 0]; JArr [JInt 0; JInt 1; JInt 0];
        JArr [JInt 0; JInt 0; JInt 1]].

Definition deck_with_attitude : json :=
  JObj [("attitude", identity_matrix); ("pipetteCalibratedWith", JStr "P20SV202020070101")].

Definition deck_with_matrix : json :=
  JObj [("deckCalibration",
         JObj [("data", JObj [("matrix", identity_matrix);
                              ("pipetteCalibratedWith", JStr "P20SV202020070101")])])].

Definition tip_entry (serial : string) (tip_length : string) : json :=
  JObj [("pipette", JStr serial); ("tipLength", JFloat tip_length);
        ("tiprack", JStr "opentrons/opentrons_96_tiprack_300ul/1");
        ("uri", JStr "opentrons/opentrons_96_tiprack_300ul/1")].

Definition tip_set (entries : list json) : json := JObj [("data", JArr entries)].

Definition directory (entries : list json) : json := JObj [("data", JArr entries)].

Definition instrument (instrument_type mount serial : string) (ok : bool) : json :=
  JObj [("instrumentType", JStr instrument_type); ("mount", JStr mount);
        ("serialNumber", JStr serial); ("ok", JBool ok)].

(** ** Statements about computations over the history

    [yields P Q m]: from any history, [m] only appends events, each
    appended event satisfies [P], and a value it returns satisfies [Q]. *)
Definition yields {A : Type} (P : event -> Prop) (Q : A -> Prop) (m : M A) : Prop :=
  forall tr, exists evs,
    snd (m tr) = tr +++ evs /\ Forall P evs /\ forall a, fst (m tr) = Ok a -> Q a.


(** [guarded P B m]: [m] only appends events, and either every appended
    event satisfies [P] or the exception that leaves [m], if any, is not
    of the class [B]. *)
Definition guarded {A : Type} (P : event -> Prop) (B : pyerr -> Prop) (m : M A) : Prop :=
  forall tr, exists evs,
    snd (m tr) = tr +++ evs
    /\ (Forall P evs \/ forall e, fst (m tr) = Err e -> ~ B e).

(** ** Vocabulary of the further properties *)

(** Every character of the text satisfies [p]. *)
Fixpoint all_chars (p : ascii -> bool) (s : string) : bool :=
  match s with
  | EmptyString => true
  | String c r => p c && all_chars p r
  end.

(** The text is not empty and its first character satisfies [p]. *)
Definition starts_with (p : ascii -> bool) (s : string) : bool :=
  match s with
  | EmptyString => false
  | String c _ => p c
  end.

(** The text is not empty and its last character satisfies [p]. *)
Definition ends_with (p : ascii -> bool) (s : string) : bool :=
  starts_with p (PyStr.rev s).

Definition is_dash (c : ascii) : bool := Ascii.eqb "-" c.

(** Two dashes stand side by side somewhere in the text. *)
Fixpoint double_dash (s : string) : bool :=
  match s with
  | EmptyString => false
  | String c rest =>
      match rest with
      | EmptyString => false
      | String d _ => (is_dash c && is_dash d) || double_dash rest
      end
  end.

(** ** The key helper, [ot2_ensure_ssh_key.py] *)

Module EnsureSshKey.

(** [re.sub(r"[^a-z0-9._-]+", "-", value)]: every maximal run of
    characters outside the class becomes one dash.  [in_run] tells that the
    character before was part of the run being replaced. *)
Fixpoint sub_foreign_runs (value : string) (in_run : bool) : string :=
  match value with
  | EmptyString => EmptyString
  | String c rest =>
      if negb (slug_keep c) then
        if in_run then sub_foreign_runs rest true
        else String "-" (sub_foreign_runs rest true)
      else String c (sub_foreign_runs rest false)
  end.

(** [re.sub(r"-{2,}", "-", value)]: every maximal run of two dashes or
    more becomes one dash; a dash that stands alone is not matched. *)
Fixpoint sub_dash_runs (value : string) (in_run : bool) : string :=
  match value with
  | EmptyString => EmptyString
  | String c rest =>
      if is_dash c then
        if in_run then sub_dash_runs rest true
        else
          match rest with
          | EmptyString => String c EmptyString
          | String d _ =>
              if is_dash d then String "-" (sub_dash_runs rest true)
              else String c (sub_dash_runs rest false)
          end
      else String c (sub_dash_runs rest false)
  end.

Definition _slug (value : string) : string :=
  let value := PyStr.lower (PyStr.strip value) in
  let value := sub_foreign_runs value false in
  let value := PyStr.strip_char "-" (sub_dash_runs value false) in
  PyStr.or_else value "ot2".

(** The name of the per-robot key file [main] of the helper generates. *)
Definition key_name (robot_name : string) : string :=
  "ot2_" ++ _slug robot_name ++ "_rsa".

End EnsureSshKey.

(** The text with every run of dashes squeezed to one dash; [prev] tells
    that the character before was a dash. *)
Fixpoint squeeze (prev : bool) (s : string) : string :=
  match s with
  | EmptyString => EmptyString
  | String c rest =>
      if is_dash c then
        if prev then squeeze true rest else String "-" (squeeze true rest)
      else String c (squeeze false rest)
  end.

(** The shape of a slug: its alphabet, and where its dashes may stand. *)
Definition slug_shape (s : string) : Prop :=
  all_chars slug_keep s = true
  /\ PyStr.nonempty s = true
  /\ double_dash s = false
  /\ starts_with is_dash s = false
  /\ ends_with is_dash s = false.

(** The event feeds a file to a subprocess. *)
Definition is_upload (ev : event) : Prop :=
  match ev with
  | EvSubprocess _ (Some _) => True
  | _ => False
  end.

(** The uploads [evs], made one after another from the history [h], put
    every file of [files] on the robot: each file was read, fed to its
    [ssh] command, and the command exited with status 0. *)
Inductive staged (E : Env) (args : Args)
  : trace -> list event -> list (string * string) -> Prop :=
| staged_nil (h : trace) : staged E args h [] []
| staged_cons (h : trace) (data : string) (proc : CompletedProcess)
    (p : string * string) (files : list (string * string)) (evs : list event) :
    read_bytes E h (fst p) = Fine data ->
    subprocess_run E h (_ssh_base args +++ ["cat > " ++ PyStr.quote (snd p)]) (Some data)
    = Fine proc ->
    returncode proc = 0%Z ->
    staged E args (h +++ [upload_event args data (snd p)]) evs files ->
    staged E args h (upload_event args data (snd p) :: evs) (p :: files).

(** The subprocess answered, and with exit status 0. *)
Definition exited_zero (a : answer CompletedProcess) : Prop :=
  match a with
  | Fine proc => returncode proc = 0%Z
  | Raised _ _ => False
  end.

(** What the readiness waiter does to the outside: it reads the clock,
    probes [/health] with a two-second timeout, and sleeps two seconds. *)
Definition waiter_event (url api_version : string) (ev : event) : Prop :=
  ev = EvClock \/ ev = EvSleep 2 \/ ev = EvHttpGet url api_version 2.

(** The number of sleeps among the events. *)
Definition sleeps (evs : list event) : nat :=
  List.length (filter (fun ev => match ev with EvSleep _ => true | _ => false end) evs).

(** The laboratory with a clock that stands still except while the script
    sleeps: it reads two seconds per sleep done. *)
Definition lab_steady (health : http_answer) : Env :=
  let L := lab [] lab_both health in
  {| time_time := fun tr => seconds_of_nat (2 * sleeps tr);
     utc_now := utc_now L;
     urlopen_json := urlopen_json L;
     subprocess_run := subprocess_run L;
     read_bytes := read_bytes L;
     json_load := json_load L;
     json_dump := json_dump L;
     is_file := is_file L;
     is_dir := is_dir L;
     mkdtemp := mkdtemp L;
     path_of := path_of L;
     path_join := path_join L;
     path_expanduser := path_expanduser L;
     path_resolve := path_resolve L;
     path_is_absolute := path_is_absolute L;
     script_dir := script_dir L;
     sys_executable := sys_executable L;
     xdg_config_home := xdg_config_home L;
     home_dir := home_dir L |}.

(** The event runs no program but [ssh], with the options and the target
    of [args], followed by one remote command. *)
Definition ssh_to_target (args : Args) (ev : event) : Prop :=
  match ev with
  | EvSubprocess cmd _ => exists command, cmd = _ssh_base args +++ [command]
  | _ => True
  end.



(** The event makes no temporary directory. *)
Definition not_mkdtemp (ev : event) : Prop :=
  match ev with
  | EvMkdtemp _ => False
  | _ => True
  end.


(** Within the events [m] appends, every temporary directory that was
    made is removed later on, unless [m] never ends. *)
Definition removes_what_it_makes {A : Type} (E : Env) (m : M A) : Prop :=
  forall tr, exists evs,
    snd (m tr) = tr +++ evs
    /\ (fst (m tr) <> Diverge ->
        forall pre post prefix td,
          evs = pre +++ EvMkdtemp prefix :: post ->
          mkdtemp E (tr +++ pre) prefix = Fine td ->
          In (EvRmtree td) post).

(** The laboratory bench of the examples: one pipette on the left. *)
Definition lab_bench : Env := lab ["left"] lab_left_only lab_healthy.
Definition lab_real_run : Args := lab_args lab_bench false "/root/.ssh/ot2".
Definition lab_dry_run : Args := lab_args lab_bench true "/root/.ssh/ot2".

(** Before anything is staged: the event is a request to the controller
    or the probe [ssh ... true]. *)
Definition before_staging (args : Args) (ev : event) : Prop :=
  match ev with
  | EvHttpGet _ _ _ => True
  | EvSubprocess cmd input => cmd = _ssh_base args +++ ["true"] /\ input = None
  | _ => False
  end.

(** From the history [tr], [m] raises, and what it did before satisfies
    [P]. *)
Definition fails_within {A : Type} (P : event -> Prop) (m : M A) (tr : trace) : Prop :=
  exists evs,
    snd (m tr) = tr +++ evs /\ Forall P evs /\ exists e, fst (m tr) = Err e.

(** The step leaves no event, and returns or raises. *)
Definition quiet {A : Type} (m : M A) : Prop :=
  forall tr, (exists a, m tr = (Ok a, tr)) \/ (exists e, m tr = (Err e, tr)).

(** The laboratory with a robot that refuses the key. *)
Definition lab_refusing : Env :=
  let L := lab_bench in
  {| time_time := time_time L;
     utc_now := utc_now L;
     urlopen_json := urlopen_json L;
     subprocess_run := fun _ _ _ =>
       Fine {| returncode := 255; stdout := EmptyString;
               stderr := "root@ot2: Permission denied (publickey)." |};
     read_bytes := read_bytes L;
     json_load := json_load L;
     json_dump := json_dump L;
     is_file := is_file L;
     is_dir := is_dir L;
     mkdtemp := mkdtemp L;
     path_of := path_of L;
     path_join := path_join L;
     path_expanduser := path_expanduser L;
     path_resolve := path_resolve L;
     path_is_absolute := path_is_absolute L;
     script_dir := script_dir L;
     sys_executable := sys_executable L;
     xdg_config_home := xdg_config_home L;
     home_dir := home_dir L |}.

(** * Properties *)

Local Open Scope res_scope.

Section RecordBuilder.

Lemma get_dict (fields : list (string * json)) (k : string) (d : json) :
  Py.get (JObj fields) k d =
  Ok (match Py.assoc k fields with Some v => v | None => d end).
Proof. reflexivity. Qed.

Lemma is_dict_inv (v : json) : is_dict v = true -> exists fields, v = JObj fields.
Proof. destruct v; simpl; try discriminate; eauto. Qed.

Lemma get_text (entry : json) (k : string) :
  is_dict entry = true ->
  exists v, Py.get entry k (JStr EmptyString) = Ok v /\ Py.str v = field_text entry k.
Proof.
  intros H. apply is_dict_inv in H as [fields ->].
  unfold field_text, lookup. rewrite get_dict.
  destruct (Py.assoc k fields); eauto.
Qed.



End RecordBuilder.

Section InstrumentDirectory.

Lemma assoc_dict_set {A : Type} (k m : string) (v : A) (out : list (string * A)) :
  Py.assoc m (Py.dict_set k v out) = if String.eqb m k then Some v else Py.assoc m out.
Proof.
  induction out as [|[k' v'] rest IH]; simpl.
  - reflexivity.
  - destruct (String.eqb k k') eqn:Hk; simpl.
    + apply String.eqb_eq in Hk. subst k'. destruct (String.eqb m k); reflexivity.
    + rewrite IH. destruct (String.eqb m k') eqn:Hm; [|reflexivity].
      apply String.eqb_eq in Hm. subst k'.
      rewrite String.eqb_sym, Hk. reflexivity.
Qed.

Lemma assoc_app {A : Type} (m : string) (l1 l2 : list (string * A)) :
  Py.assoc m (l1 +++ l2) =
  match Py.assoc m l1 with Some v => Some v | None => Py.assoc m l2 end.
Proof.
  induction l1 as [|[k v] rest IH]; simpl; [reflexivity|].
  destruct (String.eqb m k); [reflexivity | exact IH].
Qed.

(** One round of the loop either skips the entry or stores its binding. *)
Lemma attached_loop_step (e : json) (rest : list json) (out : list (string * string)) :
  is_dict e = true ->
  attached_loop (e :: rest) out =
  attached_loop rest
    (match eligible e with
     | Some (m, s) => Py.dict_set m s out
     | None => out
     end).
Proof.
  intros H. apply is_dict_inv in H as [fields ->].
  unfold eligible, field_text, lookup. simpl attached_loop.
  destruct (Py.eq_str _ "pipette"); simpl; [|reflexivity].
  destruct (Py.assoc "mount" fields), (Py.assoc "serialNumber" fields); simpl;
    try match goal with |- context [if ?c then _ else _] => destruct c end;
    reflexivity.
Qed.

Lemma attached_loop_spec (entries : list json) :
  forallb is_dict entries = true ->
  forall out, exists out',
    attached_loop entries out = Ok out' /\
    forall m, Py.assoc m out' =
              match Py.assoc m (rev (bindings entries)) with
              | Some s => Some s
              | None => Py.assoc m out
              end.
Proof.
  induction entries as [|e rest IH]; intros H out.
  - exists out. split; reflexivity.
  - simpl in H. apply andb_true_iff in H as [He Hrest].
    rewrite (attached_loop_step e rest out He).
    destruct (IH Hrest (match eligible e with
                        | Some (m, s) => Py.dict_set m s out
                        | None => out end)) as (out' & Hrun & Hout).
    exists out'. split; [exact Hrun|]. intros m. rewrite Hout.
    unfold bindings. simpl flat_map. fold (bindings rest).
    rewrite rev_app_distr, assoc_app.
    destruct (Py.assoc m (rev (bindings rest))); [reflexivity|].
    destruct (eligible e) as [[k v]|]; simpl; [|reflexivity].
    rewrite assoc_dict_set. destruct (String.eqb m k); reflexivity.
Qed.

End InstrumentDirectory.

Section DeckRecord.

(** The deck builder, once the document is unwrapped to a dict. *)
Lemma build_deck_file_unwrapped (src : json) (fields : list (string * json))
  (default_pipette now : string) :
  deck_of_source src = Ok (JObj fields) ->
  _build_deck_file src default_pipette now =
  if Py.truthy (attitude_of (JObj fields)) then
    Ok (JObj [("attitude", attitude_of (JObj fields));
              ("last_modified", JStr now);
              ("source", match Py.assoc "source" fields with
                         | Some v => v | None => JStr "user" end);
              ("pipette_calibrated_with", calibrated_with (JObj fields) default_pipette);
              ("tiprack", value_or_null (JObj fields) "tiprack");
              ("status", match Py.assoc "status" fields with
                         | Some v => v | None => default_status end)])
  else Err schema_mismatch.
Proof.
  intros Hsrc. unfold _build_deck_file. rewrite Hsrc.
  unfold attitude_of, calibrated_with, value_or_null, lookup, Py.por.
  cbn [rbind Py.get].
  destruct (Py.truthy (match Py.assoc "attitude" fields with
                       | Some v => v | None => JNull end)) eqn:Ha; cbn [rbind].
  - rewrite Ha. cbn [negb].
    destruct (Py.assoc "pipette_calibrated_with" fields); reflexivity.
  - destruct (Py.truthy (match Py.assoc "matrix" fields with
                         | Some v => v | None => JNull end)) eqn:Hm; cbn [negb].
    + destruct (Py.assoc "pipette_calibrated_with" fields); reflexivity.
    + reflexivity.
Qed.

End DeckRecord.

Section DeckClaims.

(** C4. Two deck templates that differ only in the name under which they
    carry the attitude matrix, [attitude] in one and [matrix] in the other,
    build the same result for the same default serial and timestamp: the
    same record when the matrix is true in Python's sense, the same error
    otherwise. *)
Theorem deck_schema_variants_agree
  (src_a src_b : json) (a b : list (string * json)) (matrix : json)
  (default_pipette now : string) :
  deck_of_source src_a = Ok (JObj a) ->
  deck_of_source src_b = Ok (JObj b) ->
  Py.assoc "attitude" a = Some matrix -> Py.assoc "matrix" a = None ->
  Py.assoc "matrix" b = Some matrix -> Py.assoc "attitude" b = None ->
  (forall k, k <> "attitude" -> k <> "matrix" -> Py.assoc k a = Py.assoc k b) ->
  _build_deck_file src_a default_pipette now = _build_deck_file src_b default_pipette now
  /\ (Py.truthy matrix = true ->
      exists record, _build_deck_file src_a default_pipette now = Ok record
                     /\ lookup record "attitude" = Some matrix).
Proof.
  intros Ha Hb Haa Ham Hbm Hba Hrest.
  rewrite (build_deck_file_unwrapped _ _ _ _ Ha), (build_deck_file_unwrapped _ _ _ _ Hb).
  assert (Hpcw : calibrated_with (JObj a) default_pipette
                 = calibrated_with (JObj b) default_pipette).
  { unfold calibrated_with, lookup.
    rewrite (Hrest "pipette_calibrated_with"), (Hrest "pipetteCalibratedWith");
      [reflexivity | discriminate ..]. }
  assert (Hpa : attitude_of (JObj a) = if Py.truthy matrix then matrix else JNull).
  { unfold attitude_of, value_or_null, lookup, Py.por. rewrite Haa, Ham. reflexivity. }
  assert (Hpb : attitude_of (JObj b) = matrix).
  { unfold attitude_of, value_or_null, lookup, Py.por. rewrite Hbm, Hba. reflexivity. }
  rewrite Hpa, Hpb, Hpcw. unfold value_or_null, lookup.
  rewrite (Hrest "source"), (Hrest "tiprack"), (Hrest "status") by discriminate.
  destruct (Py.truthy matrix) eqn:Ht; rewrite ?Ht; simpl; split;
    try reflexivity; intros H; try discriminate H.
  eexists. split; reflexivity.
Qed.

Lemma deck_schema_variants_agree_witness :
  _build_deck_file deck_with_attitude "P300L123" "2024-01-01T00:00:00+00:00"
  = _build_deck_file deck_with_matrix "P300L123" "2024-01-01T00:00:00+00:00"
  /\ (Py.truthy identity_matrix = true ->
      exists record,
        _build_deck_file deck_with_attitude "P300L123" "2024-01-01T00:00:00+00:00" = Ok record
        /\ lookup record "attitude" = Some identity_matrix).
Proof.
  apply (deck_schema_variants_agree deck_with_attitude deck_with_matrix
           [("attitude", identity_matrix); ("pipetteCalibratedWith", JStr "P20SV202020070101")]
           [("matrix", identity_matrix); ("pipetteCalibratedWith", JStr "P20SV202020070101")]
           identity_matrix); try reflexivity.
  intros k Hk1 Hk2. simpl.
  destruct (String.eqb_spec k "attitude"); [contradiction|].
  destruct (String.eqb_spec k "matrix"); [contradiction|].
  reflexivity.
Defined.

(** C5, as the code has it. On an unwrapped deck template the builder
    fails with the schema error exactly when neither [attitude] nor
    [matrix] holds a value that is true in Python's sense; in particular it
    fails when both keys are absent, and a record that is built carries
    that value as its attitude, never a default. *)
Theorem deck_attitude_mandatory
  (src : json) (fields : list (string * json)) (default_pipette now : string) :
  deck_of_source src = Ok (JObj fields) ->
  (_build_deck_file src default_pipette now = Err schema_mismatch
   <-> Py.truthy (attitude_of (JObj fields)) = false)
  /\ (Py.assoc "attitude" fields = None -> Py.assoc "matrix" fields = None ->
      _build_deck_file src default_pipette now = Err schema_mismatch)
  /\ (forall record,
        _build_deck_file src default_pipette now = Ok record ->
        lookup record "attitude" = Some (attitude_of (JObj fields))
        /\ Py.truthy (attitude_of (JObj fields)) = true
        /\ (attitude_of (JObj fields) = value_or_null (JObj fields) "attitude"
            \/ attitude_of (JObj fields) = value_or_null (JObj fields) "matrix")).
Proof.
  intros Hsrc. rewrite (build_deck_file_unwrapped _ _ _ _ Hsrc).
  split; [|split].
  - destruct (Py.truthy (attitude_of (JObj fields))); split;
      intros H; try reflexivity; discriminate.
  - intros Ha Hm. unfold attitude_of, value_or_null, lookup, Py.por.
    rewrite Ha, Hm. reflexivity.
  - intros record H.
    destruct (Py.truthy (attitude_of (JObj fields))) eqn:Ht; [|discriminate].
    injection H as <-. split; [reflexivity|]. split; [reflexivity|].
    unfold attitude_of, Py.por.
    destruct (Py.truthy (value_or_null (JObj fields) "attitude")); auto.
Qed.

Lemma deck_attitude_mandatory_witness :
  _build_deck_file (JObj [("source", JStr "user")]) "P300L123" "2024-01-01T00:00:00+00:00"
  = Err schema_mismatch.
Proof.
  apply (deck_attitude_mandatory (JObj [("source", JStr "user")])
           [("source", JStr "user")] "P300L123" "2024-01-01T00:00:00+00:00");
    reflexivity.
Defined.

(** C5 as the spec words it does not hold: a template whose [attitude] key
    is present with an empty list is refused with the schema error. *)
Lemma deck_attitude_present_but_refused :
  ~ (forall (src : json) (fields : list (string * json)) (default_pipette now : string),
       deck_of_source src = Ok (JObj fields) ->
       (_build_deck_file src default_pipette now = Err schema_mismatch
        <-> (Py.assoc "attitude" fields = None /\ Py.assoc "matrix" fields = None))).
Proof.
  intros H.
  destruct (H (JObj [("attitude", JArr [])]) [("attitude", JArr [])]
              "P300L123" "2024-01-01T00:00:00+00:00" eq_refl) as [Hfail _].
  destruct (Hfail eq_refl) as [Habsent _]. discriminate Habsent.
Qed.

(** C9. The pipette-calibrated-with field of a built deck record is the
    template's [pipette_calibrated_with] when that key is present, else
    its [pipetteCalibratedWith] when that key is present, else the default
    serial of the caller; a template with a true attitude builds a record. *)
Theorem deck_calibrated_with_precedence
  (src : json) (fields : list (string * json)) (default_pipette now : string) :
  deck_of_source src = Ok (JObj fields) ->
  (forall record,
     _build_deck_file src default_pipette now = Ok record ->
     lookup record "pipette_calibrated_with" =
     Some (match Py.assoc "pipette_calibrated_with" fields with
           | Some snake => snake
           | None =>
               match Py.assoc "pipetteCalibratedWith" fields with
               | Some camel => camel
               | None => JStr default_pipette
               end
           end))
  /\ (Py.truthy (attitude_of (JObj fields)) = true ->
      exists record, _build_deck_file src default_pipette now = Ok record).
Proof.
  intros Hsrc. rewrite (build_deck_file_unwrapped _ _ _ _ Hsrc).
  destruct (Py.truthy (attitude_of (JObj fields))); split.
  - intros record H. injection H as <-. reflexivity.
  - intros _. eexists. reflexivity.
  - intros record H. discriminate H.
  - intros H. discriminate H.
Qed.

Lemma deck_calibrated_with_precedence_witness :
  (forall record,
     _build_deck_file deck_with_matrix "P300L123" "2024-01-01T00:00:00+00:00" = Ok record ->
     lookup record "pipette_calibrated_with" = Some (JStr "P20SV202020070101"))
  /\ (Py.truthy identity_matrix = true ->
      exists record,
        _build_deck_file deck_with_matrix "P300L123" "2024-01-01T00:00:00+00:00" = Ok record).
Proof.
  apply (deck_calibrated_with_precedence deck_with_matrix
           [("matrix", identity_matrix); ("pipetteCalibratedWith", JStr "P20SV202020070101")]
           "P300L123" "2024-01-01T00:00:00+00:00").
  reflexivity.
Defined.

End DeckClaims.

Section TipLengthClaims.

Lemma find_tip_loop_spec (entries : list json) (serial : string) :
  forallb is_dict entries = true ->
  find_tip_loop entries serial = Ok (find (bound_to serial) entries).
Proof.
  induction entries as [|e rest IH]; simpl; intros H.
  - reflexivity.
  - apply andb_true_iff in H as [He Hrest].
    destruct (get_text e "pipette" He) as (v & -> & Hv). simpl.
    unfold bound_to at 1. rewrite <- Hv.
    destruct (String.eqb _ serial); [reflexivity | auto].
Qed.

(** C3, as the code has it. With a non-empty preferred serial, the first
    entry whose pipette field, read as text without the blanks around it,
    equals the serial is selected; with an empty or absent serial, or when
    no entry is bound to it, the first entry of the set is selected; an
    empty set fails with the no-templates error. *)
Theorem tip_template_selection
  (tip_lengths : json) (entries : list json) (preferred_serial : option string) :
  Py.get tip_lengths "data" (JArr []) = Ok (JArr entries) ->
  forallb is_dict entries = true ->
  _find_tip_template_for_pipette tip_lengths preferred_serial =
  match (if opt_truthy preferred_serial
         then find (bound_to (fmt_opt preferred_serial)) entries
         else None) with
  | Some entry => Ok entry
  | None =>
      match entries with
      | first :: _ => Ok first
      | [] => Err no_tip_templates
      end
  end.
Proof.
  intros Hdata Hdicts. unfold _find_tip_template_for_pipette.
  destruct preferred_serial as [s|]; simpl; [destruct (PyStr.nonempty s); simpl|];
    rewrite ?Hdata; simpl.
  - rewrite (find_tip_loop_spec _ _ Hdicts). simpl.
    destruct (find (bound_to s) entries); [reflexivity|].
    rewrite ?Hdata. destruct entries; reflexivity.
  - destruct entries; reflexivity.
  - destruct entries; reflexivity.
Qed.

(** The set with entries for S1 and S2, asked for S3, yields the entry
    of S1. *)
Lemma tip_template_selection_witness :
  _find_tip_template_for_pipette
    (tip_set [tip_entry "S1" "51.2"; tip_entry "S2" "51.7"]) (Some "S3")
  = Ok (tip_entry "S1" "51.2").
Proof.
  apply (tip_template_selection
           (tip_set [tip_entry "S1" "51.2"; tip_entry "S2" "51.7"])
           [tip_entry "S1" "51.2"; tip_entry "S2" "51.7"] (Some "S3"));
    reflexivity.
Defined.

(** C3 as the spec words it does not hold: the entry selected need not be
    the first whose pipette field equals the serial, because an earlier
    entry whose field has blanks around the serial is taken. *)
Lemma tip_template_field_not_equal :
  ~ (forall (tip_lengths : json) (entries : list json) (serial : string) (entry : json),
       Py.get tip_lengths "data" (JArr []) = Ok (JArr entries) ->
       forallb is_dict entries = true ->
       PyStr.nonempty serial = true ->
       find (field_equals "pipette" serial) entries = Some entry ->
       _find_tip_template_for_pipette tip_lengths (Some serial) = Ok entry).
Proof.
  intros H.
  specialize (H (tip_set [tip_entry " S1" "51.2"; tip_entry "S1" "51.7"])
                [tip_entry " S1" "51.2"; tip_entry "S1" "51.7"] "S1"
                (tip_entry "S1" "51.7") eq_refl eq_refl eq_refl eq_refl).
  vm_compute in H. discriminate H.
Qed.

End TipLengthClaims.

Section InstrumentClaims.

Lemma eligible_inv (e : json) (m s : string) :
  eligible e = Some (m, s) ->
  lookup e "instrumentType" = Some (JStr "pipette")
  /\ m = PyStr.lower (field_text e "mount")
  /\ (m = "left" \/ m = "right")
  /\ s = PyStr.strip (field_text e "serialNumber")
  /\ s <> EmptyString.
Proof.
  unfold eligible. intros H.
  destruct (Py.eq_str _ "pipette") eqn:Hty; [|discriminate].
  destruct (String.eqb _ "left" || String.eqb _ "right") eqn:Hm; [|discriminate].
  destruct (PyStr.nonempty _) eqn:Hs; [|discriminate].
  simpl in H. injection H as <- <-.
  split; [|split; [reflexivity | split; [|split; [reflexivity|]]]].
  - destruct (lookup e "instrumentType") as [[]|]; simpl in Hty; try discriminate.
    apply String.eqb_eq in Hty. subst. reflexivity.
  - apply orb_true_iff in Hm as [Hm|Hm]; apply String.eqb_eq in Hm; auto.
  - intros Hempty. rewrite Hempty in Hs. discriminate.
Qed.

Lemma in_bindings (entries : list json) (p : string * string) :
  In p (bindings entries) -> exists e, In e entries /\ eligible e = Some p.
Proof.
  unfold bindings. rewrite in_flat_map. intros (e & He & Hp).
  exists e. split; [exact He|].
  destruct (eligible e) as [q|]; simpl in Hp; [|contradiction].
  destruct Hp as [->|[]]. reflexivity.
Qed.

Lemma assoc_in {A : Type} (k : string) (v : A) (l : list (string * A)) :
  Py.assoc k l = Some v -> In (k, v) l.
Proof.
  induction l as [|[k' v'] rest IH]; simpl; [discriminate|].
  destruct (String.eqb_spec k k') as [->|]; intros H.
  - injection H as ->. auto.
  - auto.
Qed.

(** C7, as the code has it. From a directory whose entries are dicts the
    query returns a binding for each mount; a mount is bound to a serial
    only through an entry of pipette type whose mount, in lower case, is
    left or right and whose serial, without the blanks around it, is that
    non-empty serial; the last such entry of a mount wins.  The [ok] flag
    of an entry is not read. *)
Theorem attached_serials_binding (payload : json) (entries : list json) :
  Py.get payload "data" (JArr []) = Ok (JArr entries) ->
  forallb is_dict entries = true ->
  exists out,
    attached_of_payload payload = Ok out
    /\ (forall m, Py.assoc m out = Py.assoc m (rev (bindings entries)))
    /\ (forall m s,
          Py.assoc m out = Some s ->
          (m = "left" \/ m = "right") /\ s <> EmptyString
          /\ exists e, In e entries
                       /\ lookup e "instrumentType" = Some (JStr "pipette")
                       /\ PyStr.lower (field_text e "mount") = m
                       /\ PyStr.strip (field_text e "serialNumber") = s).
Proof.
  intros Hdata Hdicts. unfold attached_of_payload. rewrite Hdata. simpl.
  destruct (attached_loop_spec entries Hdicts []) as (out & Hrun & Hout).
  exists out. split; [exact Hrun|].
  assert (Hall : forall m, Py.assoc m out = Py.assoc m (rev (bindings entries))).
  { intros m. rewrite Hout. destruct (Py.assoc m (rev (bindings entries))); reflexivity. }
  split; [exact Hall|].
  intros m s Hm. rewrite Hall in Hm.
  apply assoc_in, in_rev, in_bindings in Hm as (e & He & Hel).
  apply eligible_inv in Hel as (Hty & Hmount & Hlr & Hserial & Hne).
  split; [exact Hlr|]. split; [exact Hne|].
  exists e. auto.
Qed.

Lemma attached_serials_binding_witness :
  exists out,
    attached_of_payload
      (directory [instrument "pipette" "Left" " P300L123 " false;
                  instrument "gripper" "right" "G1" true]) = Ok out
    /\ Py.assoc "left" out = Some "P300L123"
    /\ Py.assoc "right" out = None.
Proof.
  destruct (attached_serials_binding
              (directory [instrument "pipette" "Left" " P300L123 " false;
                          instrument "gripper" "right" "G1" true])
              [instrument "pipette" "Left" " P300L123 " false;
               instrument "gripper" "right" "G1" true]
              eq_refl eq_refl) as (out & Hrun & Hall & _).
  exists out. split; [exact Hrun|]. split; rewrite Hall; reflexivity.
Defined.

(** C7 as the spec words it does not hold: an entry whose [ok] flag is
    false is bound all the same. *)
Lemma attached_serials_ignore_ok_flag :
  ~ (forall (payload : json) (entries : list json) (out : list (string * string))
            (m s : string),
       Py.get payload "data" (JArr []) = Ok (JArr entries) ->
       attached_of_payload payload = Ok out ->
       Py.assoc m out = Some s ->
       exists e, In e entries /\ operational e = true
                 /\ PyStr.strip (field_text e "serialNumber") = s).
Proof.
  intros H.
  destruct (H (directory [instrument "pipette" "left" "P300L123" false])
              [instrument "pipette" "left" "P300L123" false]
              [("left", "P300L123")] "left" "P300L123" eq_refl eq_refl eq_refl)
    as (e & [<-|[]] & Hok & _).
  discriminate Hok.
Qed.

End InstrumentClaims.


(** ** Reasoning about computations over the history *)

Section Effects.

Context {A : Type}.

Variable P : event -> Prop.

Lemma yields_weaken (Q Q' : A -> Prop) (m : M A) :
  (forall a, Q a -> Q' a) -> yields P Q m -> yields P Q' m.
Proof.
  intros HQ Hm tr. destruct (Hm tr) as (evs & H1 & H2 & H3).
  exists evs. auto.
Qed.

Lemma yields_ret (Q : A -> Prop) (a : A) : Q a -> yields P Q (ret a).
Proof.
  intros Ha tr. exists []. simpl. rewrite app_nil_r.
  repeat split; auto. intros b H. injection H as <-. exact Ha.
Qed.

Lemma yields_raise (Q : A -> Prop) (e : pyerr) : yields P Q (raise e).
Proof.
  intros tr. exists []. simpl. rewrite app_nil_r.
  repeat split; auto. intros b H. discriminate H.
Qed.

Lemma yields_diverge (Q : A -> Prop) : yields P Q diverge.
Proof.
  intros tr. exists []. simpl. rewrite app_nil_r.
  repeat split; auto. intros b H. discriminate H.
Qed.

Lemma yields_lift (r : result A) : yields P (fun _ => True) (lift r).
Proof.
  intros tr. exists []. simpl. rewrite app_nil_r. repeat split; auto.
Qed.

Lemma yields_query (f : trace -> A) : yields P (fun _ => True) (query f).
Proof.
  intros tr. exists []. simpl. rewrite app_nil_r. repeat split; auto.
Qed.

Lemma yields_call (ev : event) (f : trace -> answer A) :
  P ev -> yields P (fun _ => True) (call ev f).
Proof.
  intros Hev tr. exists [ev]. simpl. repeat split; auto.
Qed.

Lemma yields_catch (Q : A -> Prop) (m : M A) (handler : pyerr -> M A) :
  yields P Q m -> (forall e, yields P Q (handler e)) -> yields P Q (catch m handler).
Proof.
  intros Hm Hh tr. unfold catch.
  destruct (Hm tr) as (evs & H1 & H2 & H3).
  destruct (m tr) as [[a|e|] tr1]; simpl in *; subst tr1.
  - exists evs. auto.
  - destruct (Hh e (tr +++ evs)) as (evs' & H1' & H2' & H3').
    exists (evs +++ evs'). rewrite H1', app_assoc.
    repeat split; auto. apply Forall_app; auto.
  - exists evs. auto.
Qed.

Lemma yields_finally (Q : A -> Prop) (m : M A) (cleanup : M unit) :
  yields P Q m ->
  (forall tr, exists evs, snd (cleanup tr) = tr +++ evs /\ Forall P evs) ->
  yields P Q (finally m cleanup).
Proof.
  intros Hm Hc tr. unfold finally.
  destruct (Hm tr) as (evs & H1 & H2 & H3).
  destruct (m tr) as [r tr1]; simpl in *; subst tr1.
  destruct (Hc (tr +++ evs)) as (evs' & H1' & H2').
  destruct (cleanup (tr +++ evs)) as [[[]|e|] tr2]; simpl in *; subst tr2;
    exists (evs +++ evs'); rewrite app_assoc; repeat split;
    try (apply Forall_app; auto); auto; intros a H; discriminate H.
Qed.






Lemma guarded_of_yields (B : pyerr -> Prop) (Q : A -> Prop) (m : M A) :
  yields P Q m -> guarded P B m.
Proof.
  intros Hm tr. destruct (Hm tr) as (evs & H1 & H2 & _). exists evs. auto.
Qed.



End Effects.

Section EffectsBind.

Context {A B : Type}.
Variable P : event -> Prop.

Lemma yields_bind (Q : A -> Prop) (R : B -> Prop) (m : M A) (f : A -> M B) :
  yields P Q m -> (forall a, Q a -> yields P R (f a)) -> yields P R (bind m f).
Proof.
  intros Hm Hf tr. unfold bind.
  destruct (Hm tr) as (evs & H1 & H2 & H3).
  destruct (m tr) as [[a|e|] tr1]; simpl in *; subst tr1.
  - destruct (Hf a (H3 a eq_refl) (tr +++ evs)) as (evs' & H1' & H2' & H3').
    exists (evs +++ evs'). rewrite H1', app_assoc.
    repeat split; auto. apply Forall_app; auto.
  - exists evs. repeat split; auto. intros b H. discriminate H.
  - exists evs. repeat split; auto. intros b H. discriminate H.
Qed.




End EffectsBind.

Lemma yields_emit (P : event -> Prop) (ev : event) :
  P ev -> yields P (fun _ => True) (emit ev).
Proof. intros Hev tr. exists [ev]. simpl. repeat split; auto. Qed.


Lemma yields_for_each {A : Type} (P : event -> Prop) (xs : list A) (body : A -> M unit) :
  (forall x, yields P (fun _ => True) (body x)) ->
  yields P (fun _ => True) (for_each xs body).
Proof.
  intros Hb. induction xs as [|x rest IH]; simpl.
  - apply yields_ret. exact I.
  - eapply yields_bind; [apply Hb | intros _ _; exact IH].
Qed.


(** ** The steps of the script, event by event *)

Section ScriptEffects.

Variable E : Env.
Variable P : event -> Prop.

Lemma yields_run_process (cmd : list string) (input : option string) :
  P (EvSubprocess cmd input) -> yields P (fun _ => True) (run_process E cmd input).
Proof. intros H. apply yields_call. exact H. Qed.

Lemma yields_clock_read : P EvClock -> yields P (fun _ => True) (clock_read E).
Proof. intros H tr. exists [EvClock]. simpl. auto. Qed.

Lemma yields_http_get (url api_version : string) (timeout : float) :
  P (EvHttpGet url api_version timeout) ->
  yields P (fun _ => True) (http_get E url api_version timeout).
Proof. intros H tr. exists [EvHttpGet url api_version timeout]. simpl. auto. Qed.

End ScriptEffects.

Ltac yields_leaf :=
  first [ exact I | assumption | reflexivity | (simpl; tauto) | idtac ].

Ltac yields_step :=
  lazymatch goal with
  | |- yields _ _ (bind _ _) => apply (yields_bind _ (fun _ => True)); [ | intros ? _ ]
  | |- yields _ _ (ret _) => apply yields_ret; yields_leaf
  | |- yields _ _ (raise _) => apply yields_raise
  | |- yields _ _ diverge => apply yields_diverge
  | |- yields _ _ (lift _) => apply yields_lift
  | |- yields _ _ (query _) => apply yields_query
  | |- yields _ _ (emit _) => apply yields_emit; yields_leaf
  | |- yields _ _ (call _ _) => apply yields_call; yields_leaf
  | |- yields _ _ (run_process _ _ _) => apply yields_run_process; yields_leaf
  | |- yields _ _ (clock_read _) => apply yields_clock_read; yields_leaf
  | |- yields _ _ (http_get _ _ _ _) => apply yields_http_get; yields_leaf
  | |- yields _ _ (catch _ _) => apply yields_catch; [ | intros ? ]
  | |- yields _ _ (for_each _ _) => apply yields_for_each; intros ?
  | |- yields _ _ (if ?b then _ else _) => destruct b
  | |- yields _ _ (match ?x with _ => _ end) => destruct x
  end.

Ltac yields_auto :=
  repeat first
    [ yields_step
    | progress unfold when, print, sleep, _run, _http_json, _load_json, _write_json,
        _ssh_copy_file, _robot_name, _attached_pipette_serials, answered,
        _default_key_dir, home_config ].

Section MainEffects.

Variable E : Env.

Lemma wait_loop_yields (P : event -> Prop) (steps : nat) (url api_version : string)
  (start timeout_seconds : float) (last_err : option string) :
  P EvClock -> (forall s, P (EvSleep s)) -> (forall u v t, P (EvHttpGet u v t)) ->
  yields P (fun _ => True) (wait_loop E steps url api_version start timeout_seconds last_err).
Proof.
  intros Hc Hs Hh. revert last_err.
  induction steps as [|n IH]; intros last_err; simpl.
  - apply yields_diverge.
  - yields_auto; auto.
Qed.

Lemma ssh_preflight_yields (P : event -> Prop) (args : Args) :
  P (EvSubprocess (_ssh_base args +++ ["true"]) None) ->
  yields P (fun _ => True) (_ssh_preflight E args).
Proof. intros H. unfold _ssh_preflight. yields_auto. Qed.


End MainEffects.

Section ScriptSafety.

Variable E : Env.
Variable B : pyerr -> Prop.





End ScriptSafety.




Section MainSafety.

Variable E : Env.








End MainSafety.

Section MountClaims.



End MountClaims.

Section DryRunClaims.

Variable E : Env.

Lemma bind_emit {B : Type} (ev : event) (f : unit -> M B) (tr : trace) :
  bind (emit ev) f tr = f tt (tr +++ [ev]).
Proof. reflexivity. Qed.

Lemma for_each_emit {A : Type} (xs : list A) (ev : A -> event) (tr : trace) :
  for_each xs (fun x => emit (ev x)) tr = (Ok tt, tr +++ map ev xs).
Proof.
  revert tr. induction xs as [|x rest IH]; intros tr; simpl.
  - unfold ret. rewrite app_nil_r. reflexivity.
  - rewrite bind_emit, IH, <- app_assoc. reflexivity.
Qed.

Lemma remote_apply_dry_run (steps : nat) (args : Args)
  (local_left local_right local_tip_left local_tip_right : option string)
  (local_deck : string) (left_serial right_serial : option string) (tr : trace) :
  dry_run args = true ->
  _remote_apply E steps args local_left local_right local_tip_left local_tip_right
    local_deck left_serial right_serial tr
  = (Ok tt,
     tr +++ map EvPrint
              (dry_run_report
                 (to_copy_of (remote_tmp_of args) local_left local_right local_tip_left
                    local_tip_right local_deck left_serial right_serial)
                 (remote_script_of (remote_tmp_of args) local_left local_right
                    local_tip_left local_tip_right left_serial right_serial))).
Proof.
  intros Hdry. unfold _remote_apply. cbv zeta. rewrite Hdry.
  unfold print, dry_run_report.
  rewrite bind_emit. unfold bind at 1. rewrite for_each_emit.
  rewrite bind_emit. unfold emit.
  rewrite !map_app, map_map, <- !app_assoc. reflexivity.
Qed.






End DryRunClaims.

Section DryRunTheorems.




End DryRunTheorems.

Section StagingDirectory.


Lemma append_associative (s t u : string) : (s ++ t) ++ u = s ++ t ++ u.
Proof. induction s as [|c s IH]; simpl; [reflexivity | rewrite IH; reflexivity]. Qed.





End StagingDirectory.

Section CommitOrder.

Variable E : Env.

Lemma ssh_copy_file_ok (args : Args) (src dst : string) (tr tr' : trace) :
  _ssh_copy_file E args src dst tr = (Ok tt, tr') ->
  exists data, tr' = tr +++ [upload_event args data dst].
Proof.
  unfold _ssh_copy_file, upload_event, bind, query, lift, run_process, call. cbv zeta.
  destruct (read_bytes E tr src) as [data|t m]; [|discriminate].
  destruct (subprocess_run E tr _ (Some data)) as [proc|t m]; [|discriminate].
  destruct (negb (returncode proc =? 0)%Z); unfold raise, ret; intros H;
    [discriminate H|].
  injection H as <-. exists data. reflexivity.
Qed.

Lemma for_each_uploads (args : Args) (to_copy : list (string * string)) (tr tr' : trace) :
  for_each to_copy (fun p => _ssh_copy_file E args (fst p) (snd p)) tr = (Ok tt, tr') ->
  exists uploads,
    tr' = tr +++ uploads
    /\ Forall2 (fun ev p => exists data, ev = upload_event args data (snd p)) uploads to_copy.
Proof.
  revert tr. induction to_copy as [|p rest IH]; intros tr; simpl.
  - unfold ret. intros H. injection H as <-. exists []. rewrite app_nil_r. auto.
  - unfold bind at 1.
    destruct (_ssh_copy_file E args (fst p) (snd p) tr) as [[[]|e|] tr1] eqn:Hcopy;
      try discriminate.
    intros Hrest. apply ssh_copy_file_ok in Hcopy as (data & ->).
    apply IH in Hrest as (uploads & -> & Hall).
    exists (upload_event args data (snd p) :: uploads).
    rewrite <- app_assoc. split; [reflexivity|].
    constructor; eauto.
Qed.

Lemma run_ok (cmd : list string) (tr tr' : trace) (proc : CompletedProcess) :
  _run E cmd true tr = (Ok proc, tr') -> tr' = tr +++ [EvSubprocess cmd None].
Proof.
  unfold _run, bind, run_process, call.
  destruct (subprocess_run E tr cmd None) as [p|t m]; [|discriminate].
  destruct (true && negb (returncode p =? 0)%Z); unfold raise, ret; intros H;
    [discriminate H|].
  injection H as _ <-. reflexivity.
Qed.

(** A run of [_remote_apply] that is not dry and ends well: the staging
    directory is made, then every file is uploaded, then the one commit
    script runs; nothing is uploaded after that. *)
Lemma remote_apply_sequence (steps : nat) (args : Args)
  (local_left local_right local_tip_left local_tip_right : option string)
  (local_deck : string) (left_serial right_serial : option string) (tr tr' : trace) :
  dry_run args = false ->
  _remote_apply E steps args local_left local_right local_tip_left local_tip_right
    local_deck left_serial right_serial tr = (Ok tt, tr') ->
  exists uploads rest,
    tr' = tr
          +++ [EvSubprocess (_ssh_base args +++ ["mkdir -p " ++ remote_tmp_of args]) None]
          +++ uploads
          +++ [EvSubprocess
                 (_ssh_base args
                  +++ [remote_script_of (remote_tmp_of args) local_left local_right
                         local_tip_left local_tip_right left_serial right_serial]) None]
          +++ rest
    /\ Forall2 (fun ev p => exists data, ev = upload_event args data (snd p)) uploads
         (to_copy_of (remote_tmp_of args) local_left local_right local_tip_left
            local_tip_right local_deck left_serial right_serial)
    /\ Forall not_upload rest.
Proof.
  intros Hdry. unfold _remote_apply. cbv zeta. rewrite Hdry.
  unfold bind at 1.
  destruct (_run E _ true tr) as [[p1|e|] tr1] eqn:H1; try discriminate.
  apply run_ok in H1 as ->.
  unfold bind at 1.
  destruct (for_each _ _ _) as [[[]|e|] tr2] eqn:H2; try discriminate.
  apply for_each_uploads in H2 as (uploads & -> & Hall).
  unfold bind at 1.
  destruct (_run E _ true _) as [[p3|e|] tr3] eqn:H3; try discriminate.
  apply run_ok in H3 as ->.
  intros Hrest. exists uploads.
  assert (Hq : yields not_upload (fun _ => True)
                 (if restart_robot_server args
                  then
                    _run E (_ssh_base args +++ ["systemctl restart opentrons-robot-server"])
                      true ;;;
                    _wait_for_robot_server_ready E steps (host args) (api_port args)
                      (api_version args) (restart_wait_seconds args)
                  else ret tt)%M).
  { unfold _wait_for_robot_server_ready. cbv zeta. yields_auto.
    apply wait_loop_yields; intros; exact I. }
  match type of Hrest with ?m ?t = _ => destruct (Hq t) as (rest & Hsnd & Hrq & _) end.
  rewrite Hrest in Hsnd. cbn [snd] in Hsnd. subst tr'.
  exists rest. split; [|split; assumption].
  rewrite <- !app_assoc. reflexivity.
Qed.

End CommitOrder.

Lemma bind_ok {A B : Type} (m : M A) (f : A -> M B) (tr tr1 : trace) (a : A) :
  m tr = (Ok a, tr1) -> bind m f tr = f a tr1.
Proof. intros H. unfold bind. rewrite H. reflexivity. Qed.

Lemma bind_err {A B : Type} (m : M A) (f : A -> M B) (tr tr1 : trace) (e : pyerr) :
  m tr = (Err e, tr1) -> bind m f tr = (Err e, tr1).
Proof. intros H. unfold bind. rewrite H. reflexivity. Qed.

Lemma bind_diverge {A B : Type} (m : M A) (f : A -> M B) (tr tr1 : trace) :
  m tr = (Diverge, tr1) -> bind m f tr = (Diverge, tr1).
Proof. intros H. unfold bind. rewrite H. reflexivity. Qed.

Section StagingSteps.

Variable E : Env.

Lemma run_checked (cmd : list string) (tr : trace) :
  _run E cmd true tr =
  (match subprocess_run E tr cmd None with
   | Fine proc =>
       if (returncode proc =? 0)%Z then Ok proc
       else Err (RuntimeError ("Command failed: " ++ PyStr.join " " cmd ++ PyStr.nl
                               ++ failure_detail proc))
   | Raised t m => Err (OtherError t m)
   end, tr +++ [EvSubprocess cmd None]).
Proof.
  unfold _run, bind, run_process, call.
  destruct (subprocess_run E tr cmd None) as [proc|t m]; [|reflexivity].
  cbn [andb]. destruct (returncode proc =? 0)%Z; reflexivity.
Qed.

Lemma run_checked_ok (cmd : list string) (tr : trace) (proc : CompletedProcess) :
  fst (_run E cmd true tr) = Ok proc -> exited_zero (subprocess_run E tr cmd None).
Proof.
  rewrite run_checked. cbn [fst].
  destruct (subprocess_run E tr cmd None) as [p|t m]; [|discriminate].
  destruct (returncode p =? 0)%Z eqn:Hrc; [|discriminate].
  intros _. apply Z.eqb_eq. exact Hrc.
Qed.

(** One upload: no event when the file cannot be read, else the one
    event of its [ssh] command; it ends well exactly when the command
    exited with status 0. *)
Lemma ssh_copy_file_cases (args : Args) (src dst : string) (tr : trace) :
  (exists e, _ssh_copy_file E args src dst tr = (Err e, tr))
  \/ (exists e data,
        _ssh_copy_file E args src dst tr = (Err e, tr +++ [upload_event args data dst]))
  \/ (exists data proc,
        _ssh_copy_file E args src dst tr = (Ok tt, tr +++ [upload_event args data dst])
        /\ read_bytes E tr src = Fine data
        /\ subprocess_run E tr (_ssh_base args +++ ["cat > " ++ PyStr.quote dst]) (Some data)
           = Fine proc
        /\ returncode proc = 0%Z).
Proof.
  unfold _ssh_copy_file, upload_event, bind, query, lift, run_process, call. cbv zeta.
  destruct (read_bytes E tr src) as [data|t m]; [|left; eauto].
  destruct (subprocess_run E tr _ (Some data)) as [proc|t m] eqn:Hrun;
    [|right; left; eauto].
  destruct (returncode proc =? 0)%Z eqn:Hrc; cbn [negb]; unfold raise, ret.
  - right. right. exists data, proc. apply Z.eqb_eq in Hrc. auto.
  - right. left. eauto.
Qed.

Lemma for_each_staged (args : Args) (files : list (string * string)) :
  forall tr, exists evs,
    snd (for_each files (fun p => _ssh_copy_file E args (fst p) (snd p)) tr) = tr +++ evs
    /\ Forall is_upload evs
    /\ ((fst (for_each files (fun p => _ssh_copy_file E args (fst p) (snd p)) tr) = Ok tt
         /\ staged E args tr evs files)
        \/ exists e,
             fst (for_each files (fun p => _ssh_copy_file E args (fst p) (snd p)) tr)
             = Err e).
Proof.
  induction files as [|p rest IH]; intros tr.
  - exists []. simpl. rewrite app_nil_r. repeat split; auto.
    left. split; [reflexivity | constructor].
  - cbn [for_each]. unfold bind at 1 2 3.
    destruct (ssh_copy_file_cases args (fst p) (snd p) tr)
      as [(e & ->)|[(e & data & ->)|(data & proc & -> & Hread & Hrun & Hrc)]].
    + exists []. cbn [fst snd]. rewrite app_nil_r. repeat split; eauto.
    + exists [upload_event args data (snd p)]. cbn [fst snd].
      repeat split; eauto. repeat constructor.
    + destruct (IH (tr +++ [upload_event args data (snd p)]))
        as (evs & Hsnd & Hup & Hcase).
      exists (upload_event args data (snd p) :: evs).
      split; [rewrite Hsnd, <- app_assoc; reflexivity|].
      split; [constructor; [exact I | exact Hup]|].
      destruct Hcase as [[Hok Hst]|[e He]]; [left | right; eauto].
      split; [exact Hok|]. econstructor; eauto.
Qed.

(** From the commit script on: its one event, then at most the restart
    and the waiter, and no upload. *)
Lemma commit_tail (steps : nat) (args : Args) (script : string) (h : trace) :
  exists rest,
    snd ((_run E (_ssh_base args +++ [script]) true ;;;
          (if restart_robot_server args
           then
             _run E (_ssh_base args +++ ["systemctl restart opentrons-robot-server"]) true ;;;
             _wait_for_robot_server_ready E steps (host args) (api_port args)
               (api_version args) (restart_wait_seconds args)
           else ret tt))%M h)
    = h +++ [EvSubprocess (_ssh_base args +++ [script]) None] +++ rest
    /\ Forall not_upload rest.
Proof.
  unfold bind at 1. rewrite run_checked.
  assert (Hq : yields not_upload (fun _ => True)
                 (if restart_robot_server args
                  then
                    _run E (_ssh_base args +++ ["systemctl restart opentrons-robot-server"])
                      true ;;;
                    _wait_for_robot_server_ready E steps (host args) (api_port args)
                      (api_version args) (restart_wait_seconds args)
                  else ret tt)%M).
  { unfold _wait_for_robot_server_ready. cbv zeta. yields_auto.
    apply wait_loop_yields; intros; exact I. }
  destruct (subprocess_run E h (_ssh_base args +++ [script]) None) as [proc|t m].
  - destruct (returncode proc =? 0)%Z.
    + destruct (Hq (h +++ [EvSubprocess (_ssh_base args +++ [script]) None]))
        as (rest & Hrest & Hnot & _).
      exists rest. rewrite Hrest, <- app_assoc. auto.
    + exists []. cbn [snd]. auto.
  - exists []. cbn [snd]. auto.
Qed.

Lemma remote_apply_stages (steps : nat) (args : Args)
  (local_left local_right local_tip_left local_tip_right : option string)
  (local_deck : string) (left_serial right_serial : option string)
  (tr tr' : trace) (r : result unit) :
  dry_run args = false ->
  _remote_apply E steps args local_left local_right local_tip_left local_tip_right
    local_deck left_serial right_serial tr = (r, tr') ->
  exists evs,
    tr' = tr +++ [EvSubprocess (_ssh_base args +++ ["mkdir -p " ++ remote_tmp_of args]) None]
             +++ evs
    /\ (((exists e, r = Err e) /\ Forall is_upload evs)
        \/ exists uploads rest,
             evs = uploads
                   +++ [EvSubprocess
                          (_ssh_base args
                           +++ [remote_script_of (remote_tmp_of args) local_left local_right
                                  local_tip_left local_tip_right left_serial right_serial])
                          None]
                   +++ rest
             /\ exited_zero
                  (subprocess_run E tr (_ssh_base args +++ ["mkdir -p " ++ remote_tmp_of args])
                     None)
             /\ staged E args
                  (tr +++ [EvSubprocess (_ssh_base args +++ ["mkdir -p " ++ remote_tmp_of args])
                             None])
                  uploads
                  (to_copy_of (remote_tmp_of args) local_left local_right local_tip_left
                     local_tip_right local_deck left_serial right_serial)
             /\ Forall not_upload rest).
Proof.
  intros Hdry. unfold _remote_apply. cbv zeta. rewrite Hdry.
  set (mk := EvSubprocess (_ssh_base args +++ ["mkdir -p " ++ remote_tmp_of args]) None).
  set (files := to_copy_of (remote_tmp_of args) local_left local_right local_tip_left
                  local_tip_right local_deck left_serial right_serial).
  set (script := remote_script_of (remote_tmp_of args) local_left local_right
                   local_tip_left local_tip_right left_serial right_serial).
  destruct (_run E (_ssh_base args +++ ["mkdir -p " ++ remote_tmp_of args]) true tr)
    as [r1 tr1] eqn:H1.
  pose proof (run_checked_ok (_ssh_base args +++ ["mkdir -p " ++ remote_tmp_of args]) tr)
    as Hmk.
  rewrite H1 in Hmk. cbn [fst] in Hmk.
  assert (Htr1 : tr1 = tr +++ [mk]).
  { pose proof (f_equal snd H1) as X. rewrite run_checked in X. cbn [snd] in X.
    symmetry. exact X. }
  subst tr1.
  assert (Hr1 : r1 <> Diverge).
  { pose proof (f_equal fst H1) as X. rewrite run_checked in X. cbn [fst] in X.
    rewrite <- X.
    destruct (subprocess_run E tr (_ssh_base args +++ ["mkdir -p " ++ remote_tmp_of args])
                None) as [q|? ?]; [destruct (returncode q =? 0)%Z|]; discriminate. }
  destruct r1 as [p1|e1|]; [| |contradiction].
  - rewrite (bind_ok _ _ _ _ _ H1). specialize (Hmk p1 eq_refl).
    destruct (for_each_staged args files (tr +++ [mk])) as (ups & Hsnd & Hup & Hcase).
    destruct (for_each files (fun p => _ssh_copy_file E args (fst p) (snd p)) (tr +++ [mk]))
      as [r2 tr2] eqn:H2.
    cbn [fst snd] in Hsnd, Hcase. subst tr2.
    destruct Hcase as [[-> Hst]|[e ->]].
    + rewrite (bind_ok _ _ _ _ _ H2). intros Hrun.
      destruct (commit_tail steps args script ((tr +++ [mk]) +++ ups))
        as (rest & Hrest & Hnot).
      rewrite Hrun in Hrest. cbn [snd] in Hrest. subst tr'.
      exists (ups +++ [EvSubprocess (_ssh_base args +++ [script]) None] +++ rest).
      split; [rewrite <- !app_assoc; reflexivity|].
      right. exists ups, rest. auto.
    + rewrite (bind_err _ _ _ _ _ H2). intros H. injection H as <- <-.
      exists ups. split; [rewrite <- app_assoc; reflexivity|].
      left. split; [eauto | exact Hup].
  - rewrite (bind_err _ _ _ _ _ H1). intros H. injection H as <- <-.
    exists []. rewrite app_nil_r.
    split; [reflexivity|]. left. split; [eauto | constructor].
Qed.


End StagingSteps.

Section CommitScript.





End CommitScript.


Section FloatOrder.

Lemma lex_lt (e1 : Z) (m1 : positive) (e2 : Z) (m2 : positive) :
  lex e1 m1 e2 m2 = Lt <-> (e1 < e2)%Z \/ (e1 = e2 /\ (m1 < m2)%positive).
Proof.
  unfold lex. change (Pos.compare_cont Eq m1 m2) with (Pos.compare m1 m2).
  destruct (Z.compare_spec e1 e2), (Pos.compare_spec m1 m2); split; intros ?;
    try discriminate; try reflexivity; try lia.
Qed.

Lemma lex_eq (e1 : Z) (m1 : positive) (e2 : Z) (m2 : positive) :
  lex e1 m1 e2 m2 = Eq <-> e1 = e2 /\ m1 = m2.
Proof.
  unfold lex. change (Pos.compare_cont Eq m1 m2) with (Pos.compare m1 m2).
  destruct (Z.compare_spec e1 e2), (Pos.compare_spec m1 m2); split; intros ?;
    try discriminate; try reflexivity; try lia; auto.
Qed.

Lemma lex_gt (e1 : Z) (m1 : positive) (e2 : Z) (m2 : positive) :
  lex e1 m1 e2 m2 = Gt <-> (e2 < e1)%Z \/ (e1 = e2 /\ (m2 < m1)%positive).
Proof.
  unfold lex. change (Pos.compare_cont Eq m1 m2) with (Pos.compare m1 m2).
  destruct (Z.compare_spec e1 e2), (Pos.compare_spec m1 m2); split; intros ?;
    try discriminate; try reflexivity; try lia.
Qed.

Lemma lexo_opp (e1 : Z) (m1 : positive) (e2 : Z) (m2 : positive) :
  lexo e1 m1 e2 m2 = CompOpp (lex e1 m1 e2 m2).
Proof. unfold lexo, lex. destruct (Z.compare e1 e2); reflexivity. Qed.

Ltac lex_cases :=
  repeat match goal with
         | |- context [lex ?a ?b ?c ?d] =>
             let H := fresh in
             destruct (lex a b c d) eqn:H;
             [apply lex_eq in H | apply lex_lt in H | apply lex_gt in H]
         | H : context [lex ?a ?b ?c ?d] |- _ =>
             let H' := fresh in
             destruct (lex a b c d) eqn:H';
             [apply lex_eq in H' | apply lex_lt in H' | apply lex_gt in H']
         end.

Lemma SF_lt_le_trans (a b c : spec_float) :
  SFltb a b = true -> SFleb b c = true -> SFltb a c = true.
Proof.
  unfold SFltb, SFleb.
  destruct a as [sa|sa| |sa ma ea], b as [sb|sb| |sb mb eb], c as [sc|sc| |sc mc ec];
    try destruct sa; try destruct sb; try destruct sc; cbn [SFcompare];
    try (intros; discriminate); try (intros; reflexivity);
    fold (lex ea ma eb mb); fold (lex eb mb ec mc); fold (lex ea ma ec mc);
    fold (lexo ea ma eb mb); fold (lexo eb mb ec mc); fold (lexo ea ma ec mc);
    rewrite ?lexo_opp;
    intros H1 H2; lex_cases; cbn [CompOpp] in *;
    try discriminate; try reflexivity; exfalso; lia.
Qed.

Lemma SF_le_not_lt (a b : spec_float) : SFleb a b = true -> SFltb b a = false.
Proof.
  unfold SFltb, SFleb.
  destruct a as [sa|sa| |sa ma ea], b as [sb|sb| |sb mb eb];
    try destruct sa; try destruct sb; cbn [SFcompare];
    try (intros; discriminate); try (intros; reflexivity);
    fold (lex ea ma eb mb); fold (lex eb mb ea ma);
    fold (lexo ea ma eb mb); fold (lexo eb mb ea ma); rewrite ?lexo_opp;
    intros H1; lex_cases; cbn [CompOpp] in *;
    try discriminate; try reflexivity; exfalso; lia.
Qed.

(** [a < b] and [b <= c] give [a < c] on Python floats. *)
Lemma float_lt_le_trans (a b c : float) :
  PrimFloat.ltb a b = true -> PrimFloat.leb b c = true -> PrimFloat.ltb a c = true.
Proof. rewrite !FloatAxioms.ltb_spec, FloatAxioms.leb_spec. apply SF_lt_le_trans. Qed.

(** [a <= b] excludes [b < a] on Python floats. *)
Lemma float_le_not_lt (a b : float) :
  PrimFloat.leb a b = true -> PrimFloat.ltb b a = false.
Proof. rewrite FloatAxioms.ltb_spec, FloatAxioms.leb_spec. apply SF_le_not_lt. Qed.

End FloatOrder.

Section ReadinessWaiter.

Variable E : Env.

Lemma failure_text_nonempty (a : http_answer) (d : string) :
  failure_text a = Some d -> PyStr.nonempty d = true.
Proof.
  destruct a as [p|code [text|t0 m0]|t m]; simpl; intros H; try discriminate;
    injection H as <-; [reflexivity|].
  destruct t; reflexivity.
Qed.

Lemma existsb_probe_app (l1 l2 : list event) :
  existsb is_probe (l1 +++ l2) = existsb is_probe l1 || existsb is_probe l2.
Proof. apply existsb_app. Qed.

(** One round of the loop. *)
Lemma wait_loop_round (n : nat) (url api_version : string) (start timeout_seconds : float)
  (last_err : option string) (tr : trace) :
  wait_loop E (S n) url api_version start timeout_seconds last_err tr =
  if elapsed_exceeds (time_time E tr) start timeout_seconds
  then (Err (RuntimeError (timeout_message url last_err)), tr +++ [EvClock])
  else
    match urlopen_json E (tr +++ [EvClock]) url api_version 2 with
    | HttpJson _ => (Ok tt, (tr +++ [EvClock]) +++ [EvHttpGet url api_version 2])
    | HttpStatus _ (Raised t m) =>
        (Err (OtherError t m), (tr +++ [EvClock]) +++ [EvHttpGet url api_version 2])
    | a =>
        wait_loop E n url api_version start timeout_seconds (failure_text a)
          (((tr +++ [EvClock]) +++ [EvHttpGet url api_version 2]) +++ [EvSleep 2])
    end.
Proof.
  cbn [wait_loop]. unfold bind at 1, clock_read at 1.
  destruct (elapsed_exceeds (time_time E tr) start timeout_seconds); [reflexivity|].
  unfold bind at 1, http_get at 1.
  destruct (urlopen_json E (tr +++ [EvClock]) url api_version 2) as [p|code [text|t m]|t m];
    reflexivity.
Qed.

(** What the loop has done when it raises.  Either it raises its timeout:
    then it never probed and reports the detail it started with, or it
    reports the failure of its last probe.  Or its last probe was answered
    with an HTTP error whose body could not be read. *)
Lemma wait_loop_raises (url api_version : string) (start timeout_seconds : float)
  (steps : nat) :
  forall (last_err : option string) (tr : trace) (e : pyerr),
    fst (wait_loop E steps url api_version start timeout_seconds last_err tr) = Err e ->
    exists evs,
      snd (wait_loop E steps url api_version start timeout_seconds last_err tr) = tr +++ evs
      /\ ((exists last,
             e = RuntimeError (timeout_message url last)
             /\ ((existsb is_probe evs = false /\ last = last_err)
                 \/ (existsb is_probe evs = true
                     /\ exists pre post,
                          tr +++ evs = pre +++ EvHttpGet url api_version 2 :: post
                          /\ existsb is_probe post = false
                          /\ last = failure_text (urlopen_json E pre url api_version 2)
                          /\ last <> None)))
          \/ (existsb is_probe evs = true
              /\ exists pre,
                   tr +++ evs = pre +++ [EvHttpGet url api_version 2]
                   /\ body_unreadable (urlopen_json E pre url api_version 2) e)).
Proof.
  induction steps as [|n IH]; intros last_err tr e; [discriminate|].
  rewrite wait_loop_round.
  destruct (elapsed_exceeds (time_time E tr) start timeout_seconds).
  - cbn [fst snd]. intros H. injection H as <-.
    exists [EvClock]. split; [reflexivity|]. left. exists last_err. auto.
  - set (tr1 := tr +++ [EvClock]).
    destruct (urlopen_json E tr1 url api_version 2) as [p|code [text|t m]|t m] eqn:Ha;
      [discriminate | | |].
    2:{ cbn [fst snd]. intros H. injection H as <-.
        exists [EvClock; EvHttpGet url api_version 2].
        split; [unfold tr1; rewrite <- !app_assoc; reflexivity|].
        right. split; [reflexivity|]. exists tr1.
        split; [unfold tr1; rewrite <- !app_assoc; reflexivity|].
        rewrite Ha. exists code, t, m. auto. }
    all: intros Hrun;
      destruct (IH _ _ _ Hrun) as (evs & Hsnd & Hcase);
      exists ([EvClock; EvHttpGet url api_version 2; EvSleep 2] +++ evs);
      (split; [rewrite Hsnd; unfold tr1; rewrite <- !app_assoc; reflexivity|]);
      destruct Hcase as [(last & He & Hlast)|(_ & pre & Heq & Hbody)];
      [ left; exists last; split; [exact He|]; right; split; [reflexivity|];
        destruct Hlast as [[Hnone ->]|(_ & pre & post & Heq & Hpost & Hlast & Hsome)];
        [ exists tr1, (EvSleep 2 :: evs);
          split; [unfold tr1; rewrite <- !app_assoc; reflexivity|];
          split; [exact Hnone|]; rewrite Ha; split; [reflexivity | discriminate]
        | exists pre, post; split; [|auto];
          rewrite <- Heq; unfold tr1; rewrite <- !app_assoc; reflexivity ]
      | right; split; [reflexivity|]; exists pre; split; [|exact Hbody];
        rewrite <- Heq; unfold tr1; rewrite <- !app_assoc; reflexivity ].
Qed.

End ReadinessWaiter.

Section ReadinessClaims.

Lemma within_timeout_not_late (now start timeout_seconds : float) :
  PrimFloat.leb (PrimFloat.sub now start) timeout_seconds = true ->
  elapsed_exceeds now start timeout_seconds = false.
Proof. apply float_le_not_lt. Qed.

Lemma negative_timeout_late (now start timeout_seconds : float) :
  PrimFloat.ltb timeout_seconds 0 = true ->
  PrimFloat.leb 0 (PrimFloat.sub now start) = true ->
  elapsed_exceeds now start timeout_seconds = true.
Proof. apply float_lt_le_trans. Qed.

Lemma timeout_message_detail (url : string) (a : http_answer) (detail : string) :
  failure_text a = Some detail ->
  timeout_message url (Some detail)
  = "Timed out waiting for robot-server to become ready at " ++ url ++ "." ++ PyStr.nl
    ++ detail.
Proof.
  intros H. unfold timeout_message. cbn [opt_truthy fmt_opt].
  rewrite (failure_text_nonempty a detail H). reflexivity.
Qed.

(** C10, as the code has it.  The first deadline test is made on the
    first two clock reads, in floating point.  When it succeeds the waiter
    raises its timeout error at once, without any probe and with the fixed
    detail; when it fails a probe is issued first.  The test fails when
    the computed elapsed time is at most the timeout, and succeeds for a
    negative timeout when the computed elapsed time is at least zero.
    Whenever the waiter raises, it raises either its timeout error, which
    carries the detail of the last probe that failed when there was one,
    or the exception of reading the body of the HTTP error its last probe
    was answered with. *)
Theorem readiness_timeout (E : Env) (steps : nat) (host : string) (api_port : Z)
  (api_version : string) (timeout_seconds : float) (tr : trace) :
  (elapsed_exceeds (time_time E (tr +++ [EvClock])) (time_time E tr) timeout_seconds = true ->
   _wait_for_robot_server_ready E (S steps) host api_port api_version timeout_seconds tr
   = (Err (RuntimeError (timeout_message (health_url host api_port) None)),
      tr +++ [EvClock; EvClock]))
  /\ (elapsed_exceeds (time_time E (tr +++ [EvClock])) (time_time E tr) timeout_seconds
      = false ->
      exists rest,
        snd (_wait_for_robot_server_ready E (S steps) host api_port api_version
               timeout_seconds tr)
        = tr +++ [EvClock; EvClock; EvHttpGet (health_url host api_port) api_version 2]
             +++ rest)
  /\ (PrimFloat.leb
        (PrimFloat.sub (time_time E (tr +++ [EvClock])) (time_time E tr)) timeout_seconds
      = true ->
      elapsed_exceeds (time_time E (tr +++ [EvClock])) (time_time E tr) timeout_seconds
      = false)
  /\ (PrimFloat.ltb timeout_seconds 0 = true ->
      PrimFloat.leb 0 (PrimFloat.sub (time_time E (tr +++ [EvClock])) (time_time E tr))
      = true ->
      elapsed_exceeds (time_time E (tr +++ [EvClock])) (time_time E tr) timeout_seconds
      = true)
  /\ forall e,
       fst (_wait_for_robot_server_ready E steps host api_port api_version
              timeout_seconds tr) = Err e ->
       exists evs,
         snd (_wait_for_robot_server_ready E steps host api_port api_version
                timeout_seconds tr) = tr +++ evs
         /\ ((exists last,
                e = RuntimeError (timeout_message (health_url host api_port) last)
                /\ (existsb is_probe evs = false -> last = None)
                /\ (existsb is_probe evs = true ->
                    exists pre post detail,
                      tr +++ evs
                      = pre +++ EvHttpGet (health_url host api_port) api_version 2 :: post
                      /\ existsb is_probe post = false
                      /\ failure_text
                           (urlopen_json E pre (health_url host api_port) api_version 2)
                         = Some detail
                      /\ last = Some detail
                      /\ e = RuntimeError
                               ("Timed out waiting for robot-server to become ready at "
                                ++ health_url host api_port ++ "." ++ PyStr.nl ++ detail)))
             \/ (existsb is_probe evs = true
                 /\ exists pre,
                      tr +++ evs
                      = pre +++ [EvHttpGet (health_url host api_port) api_version 2]
                      /\ body_unreadable
                           (urlopen_json E pre (health_url host api_port) api_version 2) e)).
Proof.
  set (url := health_url host api_port).
  set (start := time_time E tr).
  set (tr1 := tr +++ [EvClock]).
  assert (Hrun : forall n,
            _wait_for_robot_server_ready E n host api_port api_version timeout_seconds tr
            = wait_loop E n url api_version start timeout_seconds None tr1)
    by reflexivity.
  split; [|split; [|split; [|split]]].
  - intros Hlate. rewrite Hrun, wait_loop_round. fold tr1 in Hlate. rewrite Hlate.
    unfold tr1. rewrite <- app_assoc. reflexivity.
  - intros Hlate. rewrite Hrun, wait_loop_round. fold tr1 in Hlate. rewrite Hlate.
    set (tr2 := tr1 +++ [EvClock]).
    assert (Hext : forall n last h,
              exists rest,
                snd (wait_loop E n url api_version start timeout_seconds last h)
                = h +++ rest).
    { intros n last h.
      destruct (wait_loop_yields E (fun _ => True) n url api_version start timeout_seconds
                  last I (fun _ => I) (fun _ _ _ => I) h) as (rest & Hsnd & _).
      eauto. }
    destruct (urlopen_json E tr2 url api_version 2) as [p|code [text|t m]|t m];
      try (exists []; cbn [snd]; unfold tr2, tr1; rewrite <- !app_assoc; reflexivity);
      match goal with
      | |- context [wait_loop E ?n url api_version start timeout_seconds ?last ?h] =>
          destruct (Hext n last h) as (rest & ->)
      end;
      exists (EvSleep 2 :: rest); unfold tr2, tr1; rewrite <- !app_assoc; reflexivity.
  - apply within_timeout_not_late.
  - apply negative_timeout_late.
  - intros e. rewrite Hrun. intros Herr.
    destruct (wait_loop_raises E _ _ _ _ _ _ _ _ Herr) as (evs & Hsnd & Hcase).
    exists (EvClock :: evs).
    split; [rewrite Hsnd; unfold tr1; rewrite <- app_assoc; reflexivity|].
    destruct Hcase as [(last & He & Hlast)|(Hprobe & pre & Heq & Hbody)].
    + left. exists last. split; [exact He|].
      destruct Hlast as [[Hnone ->]|(Hsome & pre & post & Heq & Hpost & Hlast & Hne)].
      * split; [reflexivity|]. cbn [existsb is_probe orb]. rewrite Hnone. discriminate.
      * split; [cbn [existsb is_probe orb]; rewrite Hsome; discriminate|].
        intros _. destruct last as [detail|]; [|contradiction].
        exists pre, post, detail.
        split; [rewrite <- Heq; unfold tr1; rewrite <- app_assoc; reflexivity|].
        split; [exact Hpost|]. split; [symmetry; exact Hlast|]. split; [reflexivity|].
        rewrite He. f_equal.
        apply (timeout_message_detail url _ detail (eq_sym Hlast)).
    + right. split; [exact Hprobe|]. exists pre. split; [|exact Hbody].
      rewrite <- Heq. unfold tr1. rewrite <- app_assoc. reflexivity.
Qed.

End ReadinessClaims.

Section ReadinessWitnesses.

(** The controller keeps answering 503 and three seconds are allowed:
    the first test fails, so a probe is issued. *)
Lemma readiness_timeout_witness :
  exists rest,
    snd (_wait_for_robot_server_ready (lab [] lab_both lab_starting) 10 "ot2" 31950 "2" 3 [])
    = [] +++ [EvClock; EvClock; EvHttpGet (health_url "ot2" 31950) "2" 2] +++ rest.
Proof.
  apply (proj1 (proj2 (readiness_timeout (lab [] lab_both lab_starting) 9 "ot2" 31950 "2"
                         3 []))).
  reflexivity.
Defined.

(** C10 as the spec words it does not hold: with a timeout of zero and a
    clock that has moved on between the two reads, the waiter raises
    before any probe. *)
Lemma readiness_timeout_before_first_probe :
  ~ (forall (E : Env) (steps : nat) (host : string) (api_port : Z)
            (api_version : string) (timeout_seconds : float) (e : pyerr),
       PrimFloat.leb 0 timeout_seconds = true ->
       fst (_wait_for_robot_server_ready E steps host api_port api_version
              timeout_seconds []) = Err e ->
       existsb is_probe
         (snd (_wait_for_robot_server_ready E steps host api_port api_version
                 timeout_seconds [])) = true).
Proof.
  intros H.
  specialize (H (lab [] lab_both lab_starting) 9 "ot2" 31950%Z "2" 0%float
                (RuntimeError (timeout_message (health_url "ot2" 31950) None))
                eq_refl eq_refl).
  vm_compute in H. discriminate H.
Qed.

End ReadinessWitnesses.

Section CommitWitness.


End CommitWitness.

(** * Further properties of the script *)

Section RecordBuilders.

(** X1. The pipette-offset builder copies the offset and the tip rack of
    a dict template as they are and stamps the given time; a template
    without [offset], or with it but without [tiprack], is a [KeyError]
    naming the missing key, while [uri], [source] and [status] have
    defaults ([tiprackUri] before [uri] before the empty text). *)
Theorem pipette_file_fields (fields : list (string * json)) (now : string) :
  _build_pipette_file (JObj fields) now =
  match Py.assoc "offset" fields, Py.assoc "tiprack" fields with
  | None, _ => Err (KeyError "'offset'")
  | Some _, None => Err (KeyError "'tiprack'")
  | Some offset, Some tiprack =>
      Ok (JObj [("offset", offset);
                ("tiprack", tiprack);
                ("uri", match Py.assoc "tiprackUri" fields with
                        | Some u => u
                        | None => match Py.assoc "uri" fields with
                                  | Some u => u
                                  | None => JStr EmptyString
                                  end
                        end);
                ("last_modified", JStr now);
                ("source", match Py.assoc "source" fields with
                           | Some v => v | None => JStr "user" end);
                ("status", match Py.assoc "status" fields with
                           | Some v => v | None => default_status end)])
  end.
Proof.
  unfold _build_pipette_file, Py.item, Py.get.
  destruct (Py.assoc "offset" fields); [|reflexivity].
  destruct (Py.assoc "tiprack" fields); reflexivity.
Qed.

(** X2. The tip-length builder, on a dict template, raises a [KeyError]
    naming the first of [uri], [tipLength] and [tiprack] that is missing,
    in that order.  With the three present, a [uri] that is a list or a
    dict cannot be a key and is a [TypeError]; any other [uri] gives a
    one-key document under it, whose [tipLength] is the template's and
    whose [definitionHash] is the template's [tiprack]. *)
Theorem tip_length_file_fields (fields : list (string * json)) (now : string) :
  _build_tip_length_file (JObj fields) now =
  match Py.assoc "uri" fields, Py.assoc "tipLength" fields, Py.assoc "tiprack" fields with
  | None, _, _ => Err (KeyError "'uri'")
  | Some _, None, _ => Err (KeyError "'tipLength'")
  | Some _, Some _, None => Err (KeyError "'tiprack'")
  | Some uri, Some tip_length, Some tiprack =>
      key <- Py.key_text uri ;;
      Ok (JObj [(key,
                 JObj [("tipLength", tip_length);
                       ("lastModified", JStr now);
                       ("source", match Py.assoc "source" fields with
                                  | Some v => v | None => JStr "user" end);
                       ("status", match Py.assoc "status" fields with
                                  | Some v => v | None => default_status end);
                       ("definitionHash", tiprack)])])
  end.
Proof.
  unfold _build_tip_length_file, Py.item, Py.get.
  destruct (Py.assoc "uri" fields); [|reflexivity].
  destruct (Py.assoc "tipLength" fields); [|reflexivity].
  destruct (Py.assoc "tiprack" fields); reflexivity.
Qed.

(** A builder applied to anything but a dict is a [TypeError]. *)
Lemma builders_need_a_dict (template : json) (now : string) :
  is_dict template = false ->
  _build_pipette_file template now = Err TypeError
  /\ _build_tip_length_file template now = Err TypeError.
Proof. destruct template; simpl; intros H; try discriminate H; split; reflexivity. Qed.

(** X3. A nested deck document and the flat document it wraps build the
    same record: when [src] is a dict whose [deckCalibration] is a dict
    whose [data] is the dict [deck], and [deck] itself has no
    [deckCalibration] key, building from [src] is building from [deck]. *)
Theorem deck_nested_is_flat
  (src_fields wrapper deck : list (string * json)) (default_pipette now : string) :
  Py.assoc "deckCalibration" src_fields = Some (JObj wrapper) ->
  Py.assoc "data" wrapper = Some (JObj deck) ->
  Py.assoc "deckCalibration" deck = None ->
  _build_deck_file (JObj src_fields) default_pipette now
  = _build_deck_file (JObj deck) default_pipette now.
Proof.
  intros Hsrc Hdata Hflat.
  assert (Hn : deck_of_source (JObj src_fields) = Ok (JObj deck)).
  { unfold deck_of_source, Py.contains, Py.item. rewrite Hsrc. simpl.
    rewrite ?Hsrc. simpl. rewrite Hdata. reflexivity. }
  assert (Hf : deck_of_source (JObj deck) = Ok (JObj deck)).
  { unfold deck_of_source, Py.contains. rewrite Hflat. reflexivity. }
  rewrite (build_deck_file_unwrapped _ _ _ _ Hn), (build_deck_file_unwrapped _ _ _ _ Hf).
  reflexivity.
Qed.

Lemma deck_nested_is_flat_witness :
  _build_deck_file deck_with_matrix "P300L123" "2024-01-01T00:00:00+00:00"
  = _build_deck_file
      (JObj [("matrix", identity_matrix); ("pipetteCalibratedWith", JStr "P20SV202020070101")])
      "P300L123" "2024-01-01T00:00:00+00:00".
Proof.
  apply (deck_nested_is_flat
           [("deckCalibration",
             JObj [("data", JObj [("matrix", identity_matrix);
                                  ("pipetteCalibratedWith", JStr "P20SV202020070101")])])]
           [("data", JObj [("matrix", identity_matrix);
                           ("pipetteCalibratedWith", JStr "P20SV202020070101")])]
           [("matrix", identity_matrix); ("pipetteCalibratedWith", JStr "P20SV202020070101")]);
    reflexivity.
Defined.

(** X4. A deck document that has a [deckCalibration] key is read as
    nested and nothing else: if that value is not a dict the build is a
    [TypeError], and if it is a dict without [data] the build is a
    [KeyError] for [data], whatever else the document holds. *)
Theorem deck_nested_malformed
  (src_fields : list (string * json)) (wrapper : json) (default_pipette now : string) :
  Py.assoc "deckCalibration" src_fields = Some wrapper ->
  (is_dict wrapper = false ->
   _build_deck_file (JObj src_fields) default_pipette now = Err TypeError)
  /\ (forall inner,
        wrapper = JObj inner -> Py.assoc "data" inner = None ->
        _build_deck_file (JObj src_fields) default_pipette now = Err (KeyError "'data'")).
Proof.
  intros Hsrc. unfold _build_deck_file, deck_of_source, Py.contains, Py.item.
  rewrite Hsrc. cbn [rbind]. rewrite ?Hsrc. cbn [rbind]. split.
  - destruct wrapper; simpl; intros H; try discriminate H; reflexivity.
  - intros inner -> Hdata. rewrite Hdata. reflexivity.
Qed.

Lemma deck_nested_malformed_witness :
  _build_deck_file (JObj [("deckCalibration", JNull); ("attitude", identity_matrix)])
    "P300L123" "2024-01-01T00:00:00+00:00" = Err TypeError.
Proof.
  apply (deck_nested_malformed
           [("deckCalibration", JNull); ("attitude", identity_matrix)] JNull
           "P300L123" "2024-01-01T00:00:00+00:00"); reflexivity.
Defined.

End RecordBuilders.

Section TextLemmas.

Lemma append_nil_r (s : string) : s ++ EmptyString = s.
Proof. induction s as [|c s IH]; simpl; [reflexivity | rewrite IH; reflexivity]. Qed.

Lemma rev_onto_append (s acc : string) :
  PyStr.rev_onto s acc = PyStr.rev s ++ acc.
Proof.
  unfold PyStr.rev. revert acc.
  induction s as [|c s IH]; intros acc; simpl; [reflexivity|].
  rewrite (IH (String c acc)), (IH (String c EmptyString)).
  rewrite append_associative. reflexivity.
Qed.

Lemma rev_cons (c : ascii) (s : string) :
  PyStr.rev (String c s) = PyStr.rev s ++ String c EmptyString.
Proof. unfold PyStr.rev at 1. simpl. apply rev_onto_append. Qed.

Lemma rev_append (s t : string) : PyStr.rev (s ++ t) = PyStr.rev t ++ PyStr.rev s.
Proof.
  induction s as [|c s IH]; simpl.
  - rewrite append_nil_r. reflexivity.
  - rewrite !rev_cons, IH, append_associative. reflexivity.
Qed.

Lemma rev_involutive (s : string) : PyStr.rev (PyStr.rev s) = s.
Proof.
  induction s as [|c s IH]; [reflexivity|].
  rewrite rev_cons, rev_append, IH. reflexivity.
Qed.

Lemma all_chars_append (p : ascii -> bool) (s t : string) :
  all_chars p (s ++ t) = all_chars p s && all_chars p t.
Proof.
  induction s as [|c s IH]; simpl; [reflexivity|].
  rewrite IH, andb_assoc. reflexivity.
Qed.

Lemma all_chars_rev (p : ascii -> bool) (s : string) :
  all_chars p (PyStr.rev s) = all_chars p s.
Proof.
  induction s as [|c s IH]; [reflexivity|].
  rewrite rev_cons, all_chars_append, IH. simpl.
  rewrite andb_true_r, andb_comm. reflexivity.
Qed.

Lemma all_chars_lstrip (q p : ascii -> bool) (s : string) :
  all_chars q s = true -> all_chars q (PyStr.lstrip_by p s) = true.
Proof.
  induction s as [|c s IH]; simpl; [reflexivity|]. intros H.
  destruct (p c); [|exact H].
  apply andb_true_iff in H as [_ H]. auto.
Qed.

Lemma all_chars_strip_by (q p : ascii -> bool) (s : string) :
  all_chars q s = true -> all_chars q (PyStr.strip_by p s) = true.
Proof.
  intros H. unfold PyStr.strip_by.
  rewrite all_chars_rev. apply all_chars_lstrip.
  rewrite all_chars_rev. apply all_chars_lstrip. exact H.
Qed.

Lemma starts_with_lstrip (p : ascii -> bool) (s : string) :
  starts_with p (PyStr.lstrip_by p s) = false.
Proof.
  induction s as [|c s IH]; simpl; [reflexivity|].
  destruct (p c) eqn:Hc; [exact IH | simpl; exact Hc].
Qed.

Lemma lstrip_fixed (p : ascii -> bool) (s : string) :
  starts_with p s = false -> PyStr.lstrip_by p s = s.
Proof. destruct s as [|c s]; simpl; [reflexivity|]. intros ->. reflexivity. Qed.

(** Stripping on the left leaves a last character that is kept alone. *)
Lemma lstrip_keeps_last (p : ascii -> bool) (x : string) (c : ascii) :
  p c = false ->
  exists y, PyStr.lstrip_by p (x ++ String c EmptyString) = y ++ String c EmptyString.
Proof.
  intros Hc. induction x as [|d x IH]; simpl.
  - rewrite Hc. exists EmptyString. reflexivity.
  - destruct (p d); [exact IH|]. exists (String d x). reflexivity.
Qed.

Lemma strip_by_no_ends (p : ascii -> bool) (s : string) :
  starts_with p (PyStr.strip_by p s) = false
  /\ ends_with p (PyStr.strip_by p s) = false.
Proof.
  unfold PyStr.strip_by, ends_with. split.
  - pose proof (starts_with_lstrip p s) as Ht.
    destruct (PyStr.lstrip_by p s) as [|c t]; [reflexivity|].
    simpl in Ht. rewrite rev_cons.
    destruct (lstrip_keeps_last p (PyStr.rev t) c Ht) as (y & ->).
    rewrite rev_append.
    change (PyStr.rev (String c EmptyString)) with (String c EmptyString).
    simpl. exact Ht.
  - rewrite rev_involutive. apply starts_with_lstrip.
Qed.

Lemma strip_by_fixed (p : ascii -> bool) (s : string) :
  starts_with p s = false -> ends_with p s = false -> PyStr.strip_by p s = s.
Proof.
  intros Hs He. unfold PyStr.strip_by.
  rewrite (lstrip_fixed p s Hs), (lstrip_fixed p _ He). apply rev_involutive.
Qed.

End TextLemmas.

Section SlugLemmas.

Lemma string_pair_ind (P : string -> Prop) :
  P EmptyString ->
  (forall c, P (String c EmptyString)) ->
  (forall c d s, P s -> P (String d s) -> P (String c (String d s))) ->
  forall s, P s.
Proof.
  intros H0 H1 H2 s.
  assert (H : P s /\ forall c, P (String c s)).
  { induction s as [|d s [IHs IHc]]; split; auto. }
  apply H.
Qed.

Lemma is_dash_sym (c : ascii) : Ascii.eqb c "-" = is_dash c.
Proof. apply Ascii.eqb_sym. Qed.

Lemma is_dash_true (c : ascii) : is_dash c = true -> c = "-"%char.
Proof. unfold is_dash. intros H. apply Ascii.eqb_eq in H. auto. Qed.

Lemma prefix_cons (a b : ascii) (s1 s2 : string) :
  String.prefix (String a s1) (String b s2)
  = if ascii_dec a b then String.prefix s1 s2 else false.
Proof. reflexivity. Qed.

Lemma prefix_double_dash (c d : ascii) (r : string) :
  String.prefix "--" (String c (String d r)) = is_dash c && is_dash d.
Proof.
  unfold is_dash. rewrite !prefix_cons.
  destruct (Ascii.eqb_spec "-" c) as [Hc|Hc], (Ascii.eqb_spec "-" d) as [Hd|Hd];
    destruct (ascii_dec "-" c); try contradiction; try reflexivity;
    destruct (ascii_dec "-" d); try contradiction; try reflexivity.
  destruct r; reflexivity.
Qed.

(** ["--" in s] is [double_dash s]. *)
Lemma contains_double_dash (s : string) : PyStr.contains "--" s = double_dash s.
Proof.
  induction s as [|c s IH]; [reflexivity|].
  destruct s as [|d r].
  - cbn [PyStr.contains double_dash]. rewrite prefix_cons.
    destruct (ascii_dec "-" c); reflexivity.
  - change (PyStr.contains "--" (String c (String d r)))
      with (String.prefix "--" (String c (String d r)) || PyStr.contains "--" (String d r)).
    rewrite prefix_double_dash, IH. reflexivity.
Qed.

Lemma replace_double_dash_cons (c d : ascii) (r : string) :
  replace_double_dash (String c (String d r)) =
  if is_dash c && is_dash d then String "-" (replace_double_dash r)
  else String c (replace_double_dash (String d r)).
Proof. simpl. rewrite !is_dash_sym. reflexivity. Qed.

Lemma replace_double_dash_one (c : ascii) :
  replace_double_dash (String c EmptyString) = String c EmptyString.
Proof. reflexivity. Qed.

Lemma all_chars_replace (q : ascii -> bool) (s : string) :
  all_chars q s = true -> all_chars q (replace_double_dash s) = true.
Proof.
  induction s as [| c | c d s IHs IHd] using string_pair_ind; intros H;
    [reflexivity | exact H |].
  rewrite replace_double_dash_cons.
  destruct (is_dash c && is_dash d) eqn:Hcd.
  - apply andb_true_iff in Hcd as [Hc _]. apply is_dash_true in Hc. subst c.
    simpl in *. apply andb_true_iff in H as [Hq H].
    apply andb_true_iff in H as [_ H]. rewrite Hq. auto.
  - cbn [all_chars] in *. apply andb_true_iff in H as [Hq H].
    rewrite Hq. apply IHd. exact H.
Qed.

Lemma length_replace_le (s : string) :
  (String.length (replace_double_dash s) <= String.length s)%nat.
Proof.
  induction s as [| c | c d s IHs IHd] using string_pair_ind; [simpl; lia ..|].
  rewrite replace_double_dash_cons.
  destruct (is_dash c && is_dash d); cbn [String.length] in *; lia.
Qed.

Lemma length_replace_lt (s : string) :
  double_dash s = true ->
  (String.length (replace_double_dash s) < String.length s)%nat.
Proof.
  induction s as [| c | c d s IHs IHd] using string_pair_ind; intros H;
    [discriminate H ..|].
  rewrite replace_double_dash_cons.
  cbn [double_dash] in H.
  destruct (is_dash c && is_dash d).
  - pose proof (length_replace_le s). cbn [String.length]. lia.
  - simpl orb in H. specialize (IHd H). cbn [String.length] in *. lia.
Qed.

Lemma collapse_fixed (n : nat) (s : string) :
  double_dash s = false -> collapse_dashes n s = s.
Proof.
  intros H. destruct n; simpl; [reflexivity|].
  rewrite contains_double_dash, H. reflexivity.
Qed.

(** The loop of [_slug] leaves no double dash: its passes are enough. *)
Lemma collapse_no_double_dash (n : nat) :
  forall s, (String.length s <= n)%nat -> double_dash (collapse_dashes n s) = false.
Proof.
  induction n as [|n IH]; intros s Hlen; simpl.
  - destruct s; [reflexivity | simpl in Hlen; lia].
  - rewrite contains_double_dash.
    destruct (double_dash s) eqn:Hd; [|exact Hd].
    apply IH. pose proof (length_replace_lt s Hd). lia.
Qed.

Lemma all_chars_collapse (q : ascii -> bool) (n : nat) :
  forall s, all_chars q s = true -> all_chars q (collapse_dashes n s) = true.
Proof.
  induction n as [|n IH]; intros s H; simpl; [exact H|].
  destruct (PyStr.contains "--" s); [|exact H].
  apply IH, all_chars_replace, H.
Qed.

Lemma starts_with_replace (s : string) :
  starts_with is_dash (replace_double_dash s) = starts_with is_dash s.
Proof.
  destruct s as [|c [|d r]]; [reflexivity ..|].
  rewrite replace_double_dash_cons.
  destruct (is_dash c && is_dash d) eqn:Hcd; [|reflexivity].
  apply andb_true_iff in Hcd as [Hc _]. simpl. rewrite Hc. reflexivity.
Qed.

Lemma ends_with_cons (p : ascii -> bool) (c : ascii) (s : string) :
  ends_with p (String c s) =
  match s with
  | EmptyString => p c
  | String _ _ => ends_with p s
  end.
Proof.
  unfold ends_with. rewrite rev_cons.
  destruct s as [|d r]; [reflexivity|].
  destruct (PyStr.rev (String d r)) as [|e t] eqn:Hr; [|reflexivity].
  apply (f_equal PyStr.rev) in Hr. rewrite rev_involutive in Hr. discriminate Hr.
Qed.

Lemma replace_nonempty (c : ascii) (s : string) :
  replace_double_dash (String c s) <> EmptyString.
Proof.
  destruct s as [|d r]; [discriminate|].
  rewrite replace_double_dash_cons. destruct (is_dash c && is_dash d); discriminate.
Qed.

Lemma ends_with_replace (s : string) :
  ends_with is_dash (replace_double_dash s) = ends_with is_dash s.
Proof.
  induction s as [| c | c d s IHs IHd] using string_pair_ind; [reflexivity ..|].
  rewrite replace_double_dash_cons.
  destruct (is_dash c && is_dash d) eqn:Hcd.
  - apply andb_true_iff in Hcd as [_ Hd].
    rewrite !ends_with_cons.
    destruct s as [|e r]; [simpl; rewrite Hd; reflexivity|].
    destruct (replace_double_dash (String e r)) eqn:Hr;
      [exfalso; exact (replace_nonempty e r Hr)|].
    exact IHs.
  - rewrite (ends_with_cons is_dash c (String d s)).
    rewrite ends_with_cons.
    destruct (replace_double_dash (String d s)) eqn:Hr;
      [exfalso; exact (replace_nonempty d s Hr)|].
    exact IHd.
Qed.

Lemma starts_with_collapse (n : nat) :
  forall s, starts_with is_dash (collapse_dashes n s) = starts_with is_dash s.
Proof.
  induction n as [|n IH]; intros s; simpl; [reflexivity|].
  destruct (PyStr.contains "--" s); [|reflexivity].
  rewrite IH. apply starts_with_replace.
Qed.

Lemma ends_with_collapse (n : nat) :
  forall s, ends_with is_dash (collapse_dashes n s) = ends_with is_dash s.
Proof.
  induction n as [|n IH]; intros s; simpl; [reflexivity|].
  destruct (PyStr.contains "--" s); [|reflexivity].
  rewrite IH. apply ends_with_replace.
Qed.

Lemma slug_loop_alphabet (value : string) :
  forall prev_dash, all_chars slug_keep (slug_loop value prev_dash) = true.
Proof.
  induction value as [|c v IH]; intros prev_dash; simpl; [reflexivity|].
  destruct (slug_keep c) eqn:Hc; simpl.
  - rewrite Hc. apply IH.
  - destruct prev_dash; [apply IH|]. simpl. apply IH.
Qed.

End SlugLemmas.

Section SlugProperties.

Lemma keep_not_space (c : ascii) : slug_keep c = true -> PyStr.isspace c = false.
Proof.
  destruct c as [[] [] [] [] [] [] [] []]; vm_compute; intros H;
    first [reflexivity | discriminate H].
Qed.

Lemma keep_is_lower (c : ascii) : slug_keep c = true -> PyStr.lower_char c = c.
Proof.
  destruct c as [[] [] [] [] [] [] [] []]; vm_compute; intros H;
    first [reflexivity | discriminate H].
Qed.

Lemma starts_with_excluded (q p : ascii -> bool) (s : string) :
  (forall c, q c = true -> p c = false) ->
  all_chars q s = true -> starts_with p s = false.
Proof.
  intros Hqp. destruct s as [|c s]; simpl; [reflexivity|].
  intros H. apply andb_true_iff in H as [Hc _]. auto.
Qed.

Lemma lower_fixed (s : string) : all_chars slug_keep s = true -> PyStr.lower s = s.
Proof.
  induction s as [|c s IH]; simpl; [reflexivity|]. intros H.
  apply andb_true_iff in H as [Hc H]. rewrite (keep_is_lower c Hc), IH; auto.
Qed.

Lemma slug_loop_fixed (s : string) :
  all_chars slug_keep s = true -> forall prev_dash, slug_loop s prev_dash = s.
Proof.
  induction s as [|c s IH]; simpl; [reflexivity|]. intros H prev_dash.
  apply andb_true_iff in H as [Hc H]. rewrite Hc, IH; auto.
Qed.

(** The result of [_slug] has the shape of a slug. *)
Lemma slug_has_shape (value : string) : slug_shape (_slug value).
Proof.
  unfold _slug. cbv zeta.
  set (s0 := PyStr.strip_char "-" (slug_loop (PyStr.lower (PyStr.strip value)) false)).
  set (t := collapse_dashes (String.length s0) s0).
  assert (Ha : all_chars slug_keep t = true).
  { apply all_chars_collapse, all_chars_strip_by, slug_loop_alphabet. }
  assert (Hd : double_dash t = false) by (apply collapse_no_double_dash; lia).
  destruct (strip_by_no_ends is_dash
              (slug_loop (PyStr.lower (PyStr.strip value)) false)) as [Hs He].
  assert (Hst : starts_with is_dash t = false)
    by (unfold t; rewrite starts_with_collapse; exact Hs).
  assert (Het : ends_with is_dash t = false)
    by (unfold t; rewrite ends_with_collapse; exact He).
  unfold PyStr.or_else, slug_shape.
  destruct (PyStr.nonempty t) eqn:Hn.
  - repeat split; assumption.
  - repeat split; reflexivity.
Qed.

(** A text that already has the shape of a slug is its own slug. *)
Lemma slug_fixed (s : string) : slug_shape s -> _slug s = s.
Proof.
  intros (Ha & Hn & Hd & Hs & He).
  assert (Hstrip : PyStr.strip s = s).
  { apply strip_by_fixed.
    - apply (starts_with_excluded slug_keep); [exact keep_not_space | exact Ha].
    - unfold ends_with.
      apply (starts_with_excluded slug_keep); [exact keep_not_space|].
      rewrite all_chars_rev. exact Ha. }
  unfold _slug. cbv zeta.
  rewrite Hstrip, (lower_fixed s Ha), (slug_loop_fixed s Ha).
  unfold PyStr.strip_char. change (Ascii.eqb "-") with is_dash.
  rewrite (strip_by_fixed is_dash s Hs He), (collapse_fixed _ s Hd).
  unfold PyStr.or_else. rewrite Hn. reflexivity.
Qed.

(** X5. Whatever the name, [_slug] returns a non-empty text made only of
    the characters a-z, 0-9, dot, underscore and dash, with no two dashes
    side by side and no dash at either end; in particular the loop that
    removes double dashes has finished its work when it stops. *)
Theorem slug_well_formed (value : string) :
  all_chars slug_keep (_slug value) = true
  /\ PyStr.nonempty (_slug value) = true
  /\ double_dash (_slug value) = false
  /\ starts_with is_dash (_slug value) = false
  /\ ends_with is_dash (_slug value) = false.
Proof. exact (slug_has_shape value). Qed.

(** X6. [_slug] is idempotent: the slug of a slug is that slug, so a key
    file name derived from a robot name does not change when it is derived
    again from its own slug. *)
Theorem slug_idempotent (value : string) : _slug (_slug value) = _slug value.
Proof. apply slug_fixed, slug_has_shape. Qed.

End SlugProperties.

Section TwoSlugs.

Lemma sub_foreign_runs_is_loop (value : string) :
  forall flag, EnsureSshKey.sub_foreign_runs value flag = slug_loop value flag.
Proof.
  induction value as [|c v IH]; intros flag; simpl; [reflexivity|].
  destruct (slug_keep c); simpl; rewrite ?IH; reflexivity.
Qed.

Lemma squeeze_after_dash (s : string) :
  starts_with is_dash s = false -> squeeze true s = squeeze false s.
Proof. destruct s as [|c r]; simpl; [reflexivity|]. intros ->. reflexivity. Qed.

Lemma squeeze_leading_dash (s : string) :
  starts_with is_dash s = true -> squeeze false s = String "-" (squeeze true s).
Proof. destruct s as [|c r]; simpl; [discriminate|]. intros ->. reflexivity. Qed.

Lemma sub_dash_runs_is_squeeze (s : string) :
  forall flag, EnsureSshKey.sub_dash_runs s flag = squeeze flag s.
Proof.
  induction s as [|c r IH]; intros flag; [reflexivity|].
  cbn [EnsureSshKey.sub_dash_runs squeeze].
  destruct (is_dash c) eqn:Hc; [|rewrite IH; reflexivity].
  destruct flag; [apply IH|].
  apply is_dash_true in Hc. subst c.
  destruct r as [|d r']; [reflexivity|].
  destruct (is_dash d) eqn:Hd; [rewrite IH; reflexivity|].
  rewrite IH. f_equal. symmetry. apply squeeze_after_dash. exact Hd.
Qed.

Lemma squeeze_replace (s : string) :
  forall prev, squeeze prev (replace_double_dash s) = squeeze prev s.
Proof.
  induction s as [| c | c d s IHs IHd] using string_pair_ind; intros prev;
    [reflexivity ..|].
  rewrite replace_double_dash_cons.
  destruct (is_dash c && is_dash d) eqn:Hcd.
  - apply andb_true_iff in Hcd as [Hc Hd].
    cbn [squeeze]. rewrite Hc, Hd. change (is_dash "-") with true. cbn iota.
    rewrite IHs. reflexivity.
  - cbn [squeeze]. destruct (is_dash c); [destruct prev|]; rewrite IHd; reflexivity.
Qed.

Lemma squeeze_fixed (s : string) :
  double_dash s = false ->
  forall prev, (prev = true -> starts_with is_dash s = false) -> squeeze prev s = s.
Proof.
  induction s as [|c r IH]; intros Hd prev Hp; [reflexivity|].
  cbn [squeeze].
  assert (Hr : double_dash r = false).
  { destruct r as [|d r']; [reflexivity|].
    cbn [double_dash] in Hd. apply orb_false_iff in Hd as [_ Hd]. exact Hd. }
  destruct (is_dash c) eqn:Hc.
  - destruct prev; [specialize (Hp eq_refl); simpl in Hp; congruence|].
    apply is_dash_true in Hc. subst c. f_equal. apply IH; [exact Hr|].
    intros _. destruct r as [|d r']; [reflexivity|].
    cbn [double_dash] in Hd. apply orb_false_iff in Hd as [Hd _].
    simpl. exact Hd.
  - f_equal. apply IH; [exact Hr | discriminate].
Qed.

(** The loop of the deployment script squeezes the runs of dashes. *)
Lemma collapse_is_squeeze (n : nat) :
  forall s, (String.length s <= n)%nat -> collapse_dashes n s = squeeze false s.
Proof.
  induction n as [|n IH]; intros s Hlen; simpl.
  - destruct s; [reflexivity | simpl in Hlen; lia].
  - rewrite contains_double_dash.
    destruct (double_dash s) eqn:Hd.
    + rewrite IH, squeeze_replace; [reflexivity|].
      pose proof (length_replace_lt s Hd). lia.
    + symmetry. apply squeeze_fixed; [exact Hd | discriminate].
Qed.

Lemma squeeze_lstrip (s : string) :
  forall prev,
    PyStr.lstrip_by is_dash (squeeze prev s) = squeeze false (PyStr.lstrip_by is_dash s).
Proof.
  induction s as [|c r IH]; intros prev; [reflexivity|].
  cbn [squeeze PyStr.lstrip_by].
  destruct (is_dash c) eqn:Hc.
  - destruct prev; [apply IH|].
    cbn [PyStr.lstrip_by]. change (is_dash "-") with true. cbn iota. apply IH.
  - cbn [PyStr.lstrip_by squeeze]. rewrite Hc. reflexivity.
Qed.

(** Squeezing a text that ends with one more character. *)
Lemma squeeze_snoc (s : string) (c : ascii) :
  forall prev,
    squeeze prev (s ++ String c EmptyString) =
    if is_dash c && match s with
                    | EmptyString => prev
                    | String _ _ => ends_with is_dash s
                    end
    then squeeze prev s
    else squeeze prev s ++ String c EmptyString.
Proof.
  induction s as [|d r IH]; intros prev.
  - simpl. destruct (is_dash c) eqn:Hc; [|reflexivity].
    destruct prev; [reflexivity|]. apply is_dash_true in Hc. subst c. reflexivity.
  - change (String d r ++ String c EmptyString) with (String d (r ++ String c EmptyString)).
    cbn [squeeze]. rewrite ends_with_cons.
    destruct (is_dash d) eqn:Hd.
    + rewrite IH. destruct r as [|e r'].
      * destruct (is_dash c), prev; reflexivity.
      * destruct (is_dash c && ends_with is_dash (String e r')), prev; reflexivity.
    + rewrite IH. destruct r as [|e r'].
      * rewrite andb_false_r. reflexivity.
      * destruct (is_dash c && ends_with is_dash (String e r')); reflexivity.
Qed.

Lemma squeeze_rev (s : string) :
  squeeze false (PyStr.rev s) = PyStr.rev (squeeze false s).
Proof.
  induction s as [|c r IH]; [reflexivity|].
  rewrite rev_cons, squeeze_snoc, IH.
  assert (Hlast : match PyStr.rev r with
                  | EmptyString => false
                  | String _ _ => ends_with is_dash (PyStr.rev r)
                  end = starts_with is_dash r).
  { unfold ends_with. rewrite rev_involutive.
    destruct (PyStr.rev r) eqn:Hr; [|reflexivity].
    apply (f_equal PyStr.rev) in Hr. rewrite rev_involutive in Hr.
    subst r. reflexivity. }
  rewrite Hlast. cbn [squeeze].
  destruct (is_dash c) eqn:Hc; cbn [andb].
  - apply is_dash_true in Hc. subst c.
    destruct (starts_with is_dash r) eqn:Hs.
    + rewrite (squeeze_leading_dash r Hs). reflexivity.
    + rewrite rev_cons, (squeeze_after_dash r Hs). reflexivity.
  - rewrite rev_cons. reflexivity.
Qed.

Lemma squeeze_strip (s : string) :
  PyStr.strip_by is_dash (squeeze false s) = squeeze false (PyStr.strip_by is_dash s).
Proof.
  unfold PyStr.strip_by.
  rewrite squeeze_lstrip, <- squeeze_rev, squeeze_lstrip, <- squeeze_rev.
  reflexivity.
Qed.

(** X7. The key helper and the deployment script compute the same slug,
    the one by two regular-expression substitutions and the other by a
    loop, so the per-robot key file the script looks for is the file the
    helper generates. *)
Theorem slugs_agree (value : string) :
  EnsureSshKey._slug value = _slug value
  /\ EnsureSshKey.key_name value = "ot2_" ++ _slug value ++ "_rsa".
Proof.
  assert (H : EnsureSshKey._slug value = _slug value).
  { unfold EnsureSshKey._slug, _slug. cbv zeta.
    rewrite sub_foreign_runs_is_loop, sub_dash_runs_is_squeeze.
    unfold PyStr.strip_char. change (Ascii.eqb "-") with is_dash.
    rewrite squeeze_strip, (collapse_is_squeeze _ _ (le_n _)). reflexivity. }
  split; [exact H|]. unfold EnsureSshKey.key_name. rewrite H. reflexivity.
Qed.

End TwoSlugs.

Section StagingBeforeCommit.

Variable E : Env.

(** X8. Whatever happens in a run of [_remote_apply] that is not dry, the
    staging directory is made first, and the commit script is run only
    after every file of the plan was read, uploaded by a command that
    exited with status 0, and in the order of the plan; a run that stops
    before has uploaded at most some files and has touched nothing else.
    After the commit script comes at most the restart, and nothing is
    uploaded any more. *)
Theorem staging_before_commit (steps : nat) (args : Args)
  (local_left local_right local_tip_left local_tip_right : option string)
  (local_deck : string) (left_serial right_serial : option string) (tr : trace) :
  dry_run args = false ->
  exists evs,
    snd (_remote_apply E steps args local_left local_right local_tip_left local_tip_right
           local_deck left_serial right_serial tr)
    = tr +++ [EvSubprocess (_ssh_base args +++ ["mkdir -p " ++ remote_tmp_of args]) None]
         +++ evs
    /\ (((exists e,
            fst (_remote_apply E steps args local_left local_right local_tip_left
                   local_tip_right local_deck left_serial right_serial tr) = Err e)
         /\ Forall is_upload evs)
        \/ exists uploads rest,
             evs = uploads
                   +++ [EvSubprocess
                          (_ssh_base args
                           +++ [remote_script_of (remote_tmp_of args) local_left local_right
                                  local_tip_left local_tip_right left_serial right_serial])
                          None]
                   +++ rest
             /\ exited_zero
                  (subprocess_run E tr (_ssh_base args +++ ["mkdir -p " ++ remote_tmp_of args])
                     None)
             /\ staged E args
                  (tr +++ [EvSubprocess (_ssh_base args +++ ["mkdir -p " ++ remote_tmp_of args])
                             None])
                  uploads
                  (to_copy_of (remote_tmp_of args) local_left local_right local_tip_left
                     local_tip_right local_deck left_serial right_serial)
             /\ Forall not_upload rest).
Proof.
  intros Hdry.
  destruct (_remote_apply E steps args local_left local_right local_tip_left
              local_tip_right local_deck left_serial right_serial tr) as [r tr'] eqn:Hrun.
  exact (remote_apply_stages E steps args _ _ _ _ _ _ _ tr tr' r Hdry Hrun).
Qed.

End StagingBeforeCommit.

Section PlanAndScript.

(** X9. The commit script copies what the plan stages, and nothing else.
    The plan starts with the deck file.  The script is six lines followed
    by one line for each further file of the plan, in the order of the
    plan: among the six, the fourth copies the staged deck file into
    [$CAL_DIR] when that is set, the fifth copies it to
    [/data/robot/deck_calibration.json], and the sixth is the validator;
    each later line is [cp], the staging path of its file, and the text of
    the destination for the mount or the tip lengths of the serial. *)
Theorem plan_matches_script (remote_tmp : string)
  (local_left local_right local_tip_left local_tip_right : option string)
  (local_deck : string) (left_serial right_serial : option string) :
  exists rest copies,
    to_copy_of remote_tmp local_left local_right local_tip_left local_tip_right
      local_deck left_serial right_serial
    = (local_deck, remote_tmp ++ "/deck_calibration.json") :: rest
    /\ script_lines_of remote_tmp local_left local_right local_tip_left local_tip_right
         left_serial right_serial
       = [strict_mode_command;
          mkdir_command;
          cal_dir_command;
          "if [ -n " ++ PyStr.dq ++ "$CAL_DIR" ++ PyStr.dq ++ " ]; then mkdir -p "
          ++ PyStr.dq ++ "$CAL_DIR" ++ PyStr.dq ++ "; cp "
          ++ (remote_tmp ++ "/deck_calibration.json") ++ " "
          ++ PyStr.dq ++ "$CAL_DIR/deck_calibration.json" ++ PyStr.dq ++ "; fi";
          "cp " ++ (remote_tmp ++ "/deck_calibration.json")
          ++ " /data/robot/deck_calibration.json";
          validator_command]
         +++ copies
    /\ Forall2
         (fun p line =>
            exists dest,
              line = "cp " ++ snd p ++ " " ++ dest
              /\ In dest ["/data/robot/pipettes/left/" ++ fmt_opt left_serial ++ ".json";
                          "/data/robot/pipettes/right/" ++ fmt_opt right_serial ++ ".json";
                          "/data/tip_lengths/" ++ fmt_opt left_serial ++ ".json";
                          "/data/tip_lengths/" ++ fmt_opt right_serial ++ ".json"])
         rest copies.
Proof.
  eexists _, (instrument_copy_commands remote_tmp local_left local_right local_tip_left
                local_tip_right left_serial right_serial).
  split; [reflexivity|]. split.
  - unfold script_lines_of, deck_mirror_command, deck_copy_command, remote_deck_final.
    rewrite !append_associative. reflexivity.
  - unfold instrument_copy_commands.
    destruct (present local_left left_serial), (present local_right right_serial),
      (present local_tip_left left_serial), (present local_tip_right right_serial);
      cbn [app];
      repeat
        (first
           [ apply Forall2_nil
           | apply Forall2_cons;
             [ eexists; split;
               [cbn [snd]; rewrite ?append_associative; reflexivity | cbn [In]; tauto]
             | ] ]).
Qed.

Lemma quote_safe_fixed (s : string) :
  all_chars PyStr.quote_safe s = true -> PyStr.quote s = s.
Proof.
  induction s as [|c s IH]; simpl; [reflexivity|]. intros H.
  apply andb_true_iff in H as [Hc H].
  unfold PyStr.quote_char. rewrite Hc, (IH H). reflexivity.
Qed.

(** X10. When the staging tag and the serials are made of letters, digits
    and the characters [_.-~/], the path each upload writes to is the
    staging path of the plan itself, the one the commit script copies
    from: the quoting of the destination changes nothing. *)
Theorem uploads_land_on_plan (args : Args)
  (local_left local_right local_tip_left local_tip_right : option string)
  (local_deck : string) (left_serial right_serial : option string) :
  all_chars PyStr.quote_safe (remote_tag args) = true ->
  all_chars PyStr.quote_safe (fmt_opt left_serial) = true ->
  all_chars PyStr.quote_safe (fmt_opt right_serial) = true ->
  Forall
    (fun p =>
       forall data,
         upload_event args data (snd p)
         = EvSubprocess (_ssh_base args +++ ["cat > " ++ snd p]) (Some data))
    (to_copy_of (remote_tmp_of args) local_left local_right local_tip_left
       local_tip_right local_deck left_serial right_serial).
Proof.
  intros Htag Hl Hr.
  assert (Hq : forall s, all_chars PyStr.quote_safe s = true ->
                         forall data,
                           upload_event args data s
                           = EvSubprocess (_ssh_base args +++ ["cat > " ++ s]) (Some data)).
  { intros s Hs data. unfold upload_event. rewrite (quote_safe_fixed s Hs). reflexivity. }
  unfold to_copy_of, remote_tmp_of.
  repeat (apply Forall_app; split);
    repeat match goal with
           | |- Forall _ (if ?b then _ else _) => destruct b
           | |- Forall _ [] => constructor
           | |- Forall _ (_ :: _) => constructor; [cbn [snd]; apply Hq|]
           end;
    rewrite ?all_chars_append, ?Htag, ?Hl, ?Hr; reflexivity.
Qed.

Lemma uploads_land_on_plan_witness :
  Forall
    (fun p =>
       forall data,
         upload_event (lab_args (lab ["left"] lab_left_only lab_healthy) false "/root/.ssh/ot2")
           data (snd p)
         = EvSubprocess
             (_ssh_base (lab_args (lab ["left"] lab_left_only lab_healthy) false
                           "/root/.ssh/ot2")
              +++ ["cat > " ++ snd p]) (Some data))
    (to_copy_of "/data/standard-offsets-upload"
       (Some "/tmp/stage/P300L123.left.pipette.json") None
       (Some "/tmp/stage/P300L123.tip_lengths.json") None
       "/tmp/stage/deck_calibration.json" (Some "P300L123") None).
Proof.
  apply (uploads_land_on_plan
           (lab_args (lab ["left"] lab_left_only lab_healthy) false "/root/.ssh/ot2")
           (Some "/tmp/stage/P300L123.left.pipette.json") None
           (Some "/tmp/stage/P300L123.tip_lengths.json") None
           "/tmp/stage/deck_calibration.json" (Some "P300L123") None);
    reflexivity.
Defined.

End PlanAndScript.

Section DryRunPreview.

Variable E : Env.

Lemma forall2_in_right {A B : Type} (R : A -> B -> Prop) (xs : list A) (ys : list B) (y : B) :
  Forall2 R xs ys -> In y ys -> exists x, In x xs /\ R x y.
Proof.
  intros H. induction H as [|x0 y0 xs ys Hxy _ IH]; simpl; [contradiction|].
  intros [<-|Hin]; [eauto|]. destruct (IH Hin) as (x & Hx & Hr). eauto.
Qed.

(** X11. The preview of a dry run is the plan of the real run: for the
    same tag, files and serials, the script a dry run prints is the script
    a run that ends well executes over [ssh], and every file of that run's
    plan is both listed by the dry run and uploaded by the real one. *)
Theorem dry_run_preview_is_faithful (steps : nat) (dry real : Args)
  (local_left local_right local_tip_left local_tip_right : option string)
  (local_deck : string) (left_serial right_serial : option string)
  (tr_dry tr_real : trace) :
  dry_run dry = true -> dry_run real = false -> remote_tag dry = remote_tag real ->
  fst (_remote_apply E steps real local_left local_right local_tip_left local_tip_right
         local_deck left_serial right_serial tr_real) = Ok tt ->
  exists script dry_events real_events,
    snd (_remote_apply E steps dry local_left local_right local_tip_left local_tip_right
           local_deck left_serial right_serial tr_dry) = tr_dry +++ dry_events
    /\ snd (_remote_apply E steps real local_left local_right local_tip_left
              local_tip_right local_deck left_serial right_serial tr_real)
       = tr_real +++ real_events
    /\ In (EvPrint script) dry_events
    /\ In (EvSubprocess (_ssh_base real +++ [script]) None) real_events
    /\ forall p,
         In p (to_copy_of (remote_tmp_of real) local_left local_right local_tip_left
                 local_tip_right local_deck left_serial right_serial) ->
         In (EvPrint ("  " ++ fst p ++ " -> " ++ snd p)) dry_events
         /\ exists data, In (upload_event real data (snd p)) real_events.
Proof.
  intros Hdry Hreal Htag Hok.
  assert (Htmp : remote_tmp_of dry = remote_tmp_of real)
    by (unfold remote_tmp_of; rewrite Htag; reflexivity).
  rewrite (remote_apply_dry_run E steps dry _ _ _ _ _ _ _ tr_dry Hdry). rewrite Htmp.
  destruct (_remote_apply E steps real local_left local_right local_tip_left
              local_tip_right local_deck left_serial right_serial tr_real)
    as [r tr'] eqn:Hrun.
  cbn [fst] in Hok. subst r.
  destruct (remote_apply_sequence E steps real _ _ _ _ _ _ _ tr_real tr' Hreal Hrun)
    as (uploads & rest & -> & Hall & _).
  eexists _, _, _. cbn [snd].
  split; [reflexivity|]. split; [reflexivity|].
  split; [|split].
  - apply in_map. unfold dry_run_report. rewrite !in_app_iff. right. right.
    right. left. reflexivity.
  - rewrite !in_app_iff. right. right. left. left. reflexivity.
  - intros p Hp. split.
    + apply in_map. unfold dry_run_report. rewrite !in_app_iff. right. left.
      apply (in_map (fun q => "  " ++ fst q ++ " -> " ++ snd q)). exact Hp.
    + assert (Hflip : Forall2 (fun q ev => exists data, ev = upload_event real data (snd q))
                        (to_copy_of (remote_tmp_of real) local_left local_right
                           local_tip_left local_tip_right local_deck left_serial
                           right_serial) uploads).
      { clear -Hall. induction Hall; constructor; auto. }
      destruct (forall2_in_right _ _ _ p (Forall2_flip Hflip) Hp) as (ev & Hev & data & ->).
      exists data. rewrite !in_app_iff. right. left. exact Hev.
Qed.

End DryRunPreview.

Section StagingWitnesses.

Lemma staging_before_commit_witness :
  exists evs,
    snd (_remote_apply lab_bench 9 lab_real_run
           (Some "/tmp/stage/P300L123.left.pipette.json") None
           (Some "/tmp/stage/P300L123.tip_lengths.json") None
           "/tmp/stage/deck_calibration.json" (Some "P300L123") None [])
    = [] +++ [EvSubprocess (_ssh_base lab_real_run +++ ["mkdir -p " ++ remote_tmp_of lab_real_run])
                None]
         +++ evs
    /\ (((exists e,
            fst (_remote_apply lab_bench 9 lab_real_run
                   (Some "/tmp/stage/P300L123.left.pipette.json") None
                   (Some "/tmp/stage/P300L123.tip_lengths.json") None
                   "/tmp/stage/deck_calibration.json" (Some "P300L123") None []) = Err e)
         /\ Forall is_upload evs)
        \/ exists uploads rest,
             evs = uploads
                   +++ [EvSubprocess
                          (_ssh_base lab_real_run
                           +++ [remote_script_of (remote_tmp_of lab_real_run)
                                  (Some "/tmp/stage/P300L123.left.pipette.json") None
                                  (Some "/tmp/stage/P300L123.tip_lengths.json") None
                                  (Some "P300L123") None])
                          None]
                   +++ rest
             /\ exited_zero
                  (subprocess_run lab_bench []
                     (_ssh_base lab_real_run +++ ["mkdir -p " ++ remote_tmp_of lab_real_run]) None)
             /\ staged lab_bench lab_real_run
                  ([] +++ [EvSubprocess
                             (_ssh_base lab_real_run +++ ["mkdir -p " ++ remote_tmp_of lab_real_run])
                             None])
                  uploads
                  (to_copy_of (remote_tmp_of lab_real_run)
                     (Some "/tmp/stage/P300L123.left.pipette.json") None
                     (Some "/tmp/stage/P300L123.tip_lengths.json") None
                     "/tmp/stage/deck_calibration.json" (Some "P300L123") None)
             /\ Forall not_upload rest).
Proof.
  apply (staging_before_commit lab_bench 9 lab_real_run
           (Some "/tmp/stage/P300L123.left.pipette.json") None
           (Some "/tmp/stage/P300L123.tip_lengths.json") None
           "/tmp/stage/deck_calibration.json" (Some "P300L123") None []).
  reflexivity.
Defined.

Lemma dry_run_preview_is_faithful_witness :
  exists script dry_events real_events,
    snd (_remote_apply lab_bench 9 lab_dry_run
           (Some "/tmp/stage/P300L123.left.pipette.json") None
           (Some "/tmp/stage/P300L123.tip_lengths.json") None
           "/tmp/stage/deck_calibration.json" (Some "P300L123") None [])
    = [] +++ dry_events
    /\ snd (_remote_apply lab_bench 9 lab_real_run
              (Some "/tmp/stage/P300L123.left.pipette.json") None
              (Some "/tmp/stage/P300L123.tip_lengths.json") None
              "/tmp/stage/deck_calibration.json" (Some "P300L123") None [])
       = [] +++ real_events
    /\ In (EvPrint script) dry_events
    /\ In (EvSubprocess (_ssh_base lab_real_run +++ [script]) None) real_events
    /\ forall p,
         In p (to_copy_of (remote_tmp_of lab_real_run)
                 (Some "/tmp/stage/P300L123.left.pipette.json") None
                 (Some "/tmp/stage/P300L123.tip_lengths.json") None
                 "/tmp/stage/deck_calibration.json" (Some "P300L123") None) ->
         In (EvPrint ("  " ++ fst p ++ " -> " ++ snd p)) dry_events
         /\ exists data, In (upload_event lab_real_run data (snd p)) real_events.
Proof.
  apply (dry_run_preview_is_faithful lab_bench 9 lab_dry_run lab_real_run
           (Some "/tmp/stage/P300L123.left.pipette.json") None
           (Some "/tmp/stage/P300L123.tip_lengths.json") None
           "/tmp/stage/deck_calibration.json" (Some "P300L123") None [] []);
    vm_compute; reflexivity.
Defined.

End StagingWitnesses.

Section WaiterProgress.

Variable E : Env.

(** When the loop returns, its last event is a probe that was answered. *)
Lemma wait_loop_ready (url api_version : string) (start timeout_seconds : float)
  (steps : nat) :
  forall (last_err : option string) (tr : trace),
    fst (wait_loop E steps url api_version start timeout_seconds last_err tr) = Ok tt ->
    exists pre payload,
      snd (wait_loop E steps url api_version start timeout_seconds last_err tr)
      = pre +++ [EvHttpGet url api_version 2]
      /\ urlopen_json E pre url api_version 2 = HttpJson payload.
Proof.
  induction steps as [|n IH]; intros last_err tr; [discriminate|].
  rewrite wait_loop_round.
  destruct (elapsed_exceeds (time_time E tr) start timeout_seconds); [discriminate|].
  destruct (urlopen_json E (tr +++ [EvClock]) url api_version 2)
    as [p|code [text|t m]|t m] eqn:Ha.
  - intros _. exists (tr +++ [EvClock]), p. auto.
  - apply IH.
  - discriminate.
  - apply IH.
Qed.

(** X12. When the readiness waiter returns, the last thing it did was a
    probe of [/health] that was answered with a document: it returns on
    no other ground, and it does nothing after the answer. *)
Theorem waiter_returns_on_answer (steps : nat) (host : string) (api_port : Z)
  (api_version : string) (timeout_seconds : float) (tr : trace) :
  fst (_wait_for_robot_server_ready E steps host api_port api_version timeout_seconds tr)
  = Ok tt ->
  exists pre payload,
    snd (_wait_for_robot_server_ready E steps host api_port api_version timeout_seconds tr)
    = pre +++ [EvHttpGet (health_url host api_port) api_version 2]
    /\ urlopen_json E pre (health_url host api_port) api_version 2 = HttpJson payload.
Proof.
  unfold _wait_for_robot_server_ready. cbv zeta.
  unfold bind, clock_read. apply wait_loop_ready.
Qed.

(** X13. Whatever its outcome, the readiness waiter does nothing but read
    the clock, probe [/health] of the host with a two-second timeout, and
    sleep two seconds. *)
Theorem waiter_only_polls (steps : nat) (host : string) (api_port : Z)
  (api_version : string) (timeout_seconds : float) (tr : trace) :
  exists evs,
    snd (_wait_for_robot_server_ready E steps host api_port api_version timeout_seconds tr)
    = tr +++ evs
    /\ Forall (waiter_event (health_url host api_port) api_version) evs.
Proof.
  unfold _wait_for_robot_server_ready. cbv zeta.
  assert (Hy : forall n start last,
            yields (waiter_event (health_url host api_port) api_version) (fun _ => True)
              (wait_loop E n (health_url host api_port) api_version start
                 timeout_seconds last)).
  { induction n as [|n IH]; intros start last; simpl.
    - apply yields_diverge.
    - yields_auto; unfold waiter_event; auto. }
  assert (Hall : yields (waiter_event (health_url host api_port) api_version)
                   (fun _ => True)
                   (start <- clock_read E ;;
                    wait_loop E steps (health_url host api_port) api_version start
                      timeout_seconds None)%M).
  { apply yields_bind with (Q := fun _ : float => True).
    - apply yields_clock_read. unfold waiter_event. auto.
    - intros start _. apply Hy. }
  destruct (Hall tr) as (evs & Hsnd & Hev & _). exists evs. auto.
Qed.

Lemma sleeps_round (evs : list event) (url api_version : string) :
  sleeps (evs +++ [EvClock; EvHttpGet url api_version 2; EvSleep 2]) = S (sleeps evs).
Proof.
  unfold sleeps. rewrite filter_app, length_app. cbn [filter List.length]. lia.
Qed.

(** The rounds left suffice, when the deadline test succeeds once [rounds]
    sleeps are done. *)
Lemma wait_loop_terminates (url api_version : string) (start timeout_seconds : float)
  (tr : trace) (rounds : nat) :
  (forall evs, sleeps evs = rounds ->
               elapsed_exceeds (time_time E (tr +++ evs)) start timeout_seconds = true) ->
  forall (n : nat) (last_err : option string) (evs : list event),
    sleeps evs + n = rounds ->
    fst (wait_loop E (S n) url api_version start timeout_seconds last_err (tr +++ evs))
    <> Diverge.
Proof.
  intros Hlate.
  induction n as [|n IH]; intros last_err evs Hcount; rewrite wait_loop_round.
  - rewrite (Hlate evs) by lia. discriminate.
  - destruct (elapsed_exceeds (time_time E (tr +++ evs)) start timeout_seconds);
      [discriminate|].
    assert (Hnext : forall last,
              fst (wait_loop E (S n) url api_version start timeout_seconds last
                     ((((tr +++ evs) +++ [EvClock]) +++ [EvHttpGet url api_version 2])
                      +++ [EvSleep 2])) <> Diverge).
    { intros last.
      replace ((((tr +++ evs) +++ [EvClock]) +++ [EvHttpGet url api_version 2])
               +++ [EvSleep 2])
        with (tr +++ (evs +++ [EvClock; EvHttpGet url api_version 2; EvSleep 2]))
        by (rewrite <- !app_assoc; reflexivity).
      apply IH. rewrite sleeps_round. lia. }
    destruct (urlopen_json E ((tr +++ evs) +++ [EvClock]) url api_version 2)
      as [p|code [text|t m]|t m];
      [discriminate | apply Hnext | discriminate | apply Hnext].
Qed.

(** X14. The polling is bounded by the clock: when the elapsed time the
    waiter computes once [rounds] two-second sleeps are done is at least
    [2 * rounds] seconds, and the timeout is less than that, the waiter
    has returned or raised within [rounds + 1] rounds. *)
Theorem waiter_polling_is_bounded (rounds : nat) (host : string) (api_port : Z)
  (api_version : string) (timeout_seconds : float) (tr : trace) :
  PrimFloat.ltb timeout_seconds (seconds_of_nat (2 * rounds)) = true ->
  (forall evs,
     sleeps evs = rounds ->
     PrimFloat.leb (seconds_of_nat (2 * rounds))
       (PrimFloat.sub (time_time E (tr +++ evs)) (time_time E tr)) = true) ->
  fst (_wait_for_robot_server_ready E (S rounds) host api_port api_version
         timeout_seconds tr)
  <> Diverge.
Proof.
  intros Ht Helapsed.
  unfold _wait_for_robot_server_ready. cbv zeta. unfold bind, clock_read.
  apply (wait_loop_terminates _ _ _ _ tr rounds).
  - intros evs Hs. unfold elapsed_exceeds.
    exact (float_lt_le_trans _ _ _ Ht (Helapsed evs Hs)).
  - reflexivity.
Qed.

End WaiterProgress.

Lemma waiter_returns_on_answer_witness :
  exists pre payload,
    snd (_wait_for_robot_server_ready (lab [] lab_both lab_healthy) 9 "ot2" 31950 "2" 60 [])
    = pre +++ [EvHttpGet (health_url "ot2" 31950) "2" 2]
    /\ urlopen_json (lab [] lab_both lab_healthy) pre (health_url "ot2" 31950) "2" 2
       = HttpJson payload.
Proof.
  apply (waiter_returns_on_answer (lab [] lab_both lab_healthy) 9 "ot2" 31950 "2" 60 []).
  reflexivity.
Defined.

Lemma waiter_polling_is_bounded_witness :
  fst (_wait_for_robot_server_ready (lab_steady lab_starting) 4 "ot2" 31950 "2" 5 [])
  <> Diverge.
Proof.
  apply (waiter_polling_is_bounded (lab_steady lab_starting) 3 "ot2" 31950 "2" 5 []).
  - reflexivity.
  - intros evs Hs. cbn [time_time lab_steady app]. rewrite Hs. reflexivity.
Defined.

Section MainProperties.

Variable E : Env.

(** X15. The value of the [--restart-robot-server] flag has no effect on
    a run: [main] overwrites it from [--no-restart-robot-server] before
    anything reads it. *)
Theorem restart_flag_is_ignored (steps : nat) (args : Args) (flag : bool) :
  main E steps (set_restart_robot_server args flag) = main E steps args.
Proof. destruct args. reflexivity. Qed.



End MainProperties.


Section OnlySsh.

Variable E : Env.

Lemma yields_events {A : Type} (P P' : event -> Prop) (Q : A -> Prop) (m : M A) :
  (forall ev, P ev -> P' ev) -> yields P Q m -> yields P' Q m.
Proof.
  intros HP Hm tr. destruct (Hm tr) as (evs & H1 & H2 & H3).
  exists evs. split; [exact H1|]. split; [|exact H3].
  eapply Forall_impl; [exact HP | exact H2].
Qed.

Lemma ssh_to_target_same (a b : Args) (ev : event) :
  _ssh_base a = _ssh_base b -> ssh_to_target a ev -> ssh_to_target b ev.
Proof. intros Hb. destruct ev; cbn [ssh_to_target]; auto. rewrite Hb. auto. Qed.

Lemma remote_apply_only_ssh (steps : nat) (args : Args)
  (local_left local_right local_tip_left local_tip_right : option string)
  (local_deck : string) (left_serial right_serial : option string) :
  yields (ssh_to_target args) (fun _ => True)
    (_remote_apply E steps args local_left local_right local_tip_left local_tip_right
       local_deck left_serial right_serial).
Proof.
  unfold _remote_apply, _wait_for_robot_server_ready. cbv zeta.
  yields_auto; try (simpl; eauto; fail).
  apply wait_loop_yields; simpl; auto.
Qed.

Lemma stage_and_apply_only_ssh (steps : nat) (args : Args) (td : string)
  (pipette_tpl tip_tpl deck_tpl : json) (left_serial right_serial : option string) :
  yields (ssh_to_target args) (fun _ => True)
    (stage_and_apply E steps args td pipette_tpl tip_tpl deck_tpl left_serial right_serial).
Proof.
  unfold stage_and_apply, prepare_mount. cbv zeta.
  repeat (apply (yields_bind _ (fun _ => True)); [solve [yields_auto] | intros ? _]).
  apply remote_apply_only_ssh.
Qed.

(** X17. With [--host] and [--ssh-key] given, the only program [main]
    runs is [ssh], always with the port, the key and the [user@host] of
    the command line and one remote command: neither the host resolver
    nor the key helper is started. *)
Theorem main_runs_only_ssh (steps : nat) (args : Args) (tr : trace) :
  PyStr.nonempty (host args) = true ->
  PyStr.nonempty (ssh_key args) = true ->
  exists evs,
    snd (main E steps args tr) = tr +++ evs /\ Forall (ssh_to_target args) evs.
Proof.
  intros Hhost Hkey.
  cut (yields (ssh_to_target args) (fun _ => True) (main E steps args)).
  { intros Hy. destruct (Hy tr) as (evs & H1 & H2 & _). eauto. }
  pose (same := fun a : Args =>
                  _ssh_base a = _ssh_base args /\ PyStr.nonempty (ssh_key a) = true).
  unfold main. cbv zeta.
  do 8 (apply (yields_bind _ (fun _ => True)); [solve [yields_auto] | intros ? _]).
  apply (yields_bind _ same).
  { unfold resolve_host. cbn [host set_restart_robot_server]. rewrite Hhost.
    apply yields_ret. split; [reflexivity | exact Hkey]. }
  intros args1 [Hbase1 Hkey1].
  apply (yields_bind _ (fun _ => True)); [yields_auto | intros name _].
  apply (yields_bind _ same).
  { cbn [ssh_key set_preflight_hints]. rewrite Hkey1. cbn [negb].
    apply yields_ret. split; [rewrite <- Hbase1; reflexivity | exact Hkey1]. }
  intros args2 [Hbase2 Hkey2].
  apply (yields_bind _ same).
  { unfold ensure_key. cbv zeta. rewrite Hkey2. cbn [negb andb].
    apply yields_ret. split; assumption. }
  intros args3 [Hbase3 Hkey3].
  apply (yields_bind _ (fun _ => True)).
  { unfold when. destruct (negb (dry_run args3)); [|apply yields_ret; exact I].
    apply ssh_preflight_yields. cbn [ssh_to_target]. rewrite Hbase3. eauto. }
  intros _ _.
  do 9 (apply (yields_bind _ (fun _ => True)); [solve [yields_auto] | intros ? _]).
  apply (yields_bind _ (fun _ => True)).
  { apply yields_finally.
    - apply (yields_events (ssh_to_target args3)).
      + intros ev. apply ssh_to_target_same. exact Hbase3.
      + apply stage_and_apply_only_ssh.
    - intros h. eexists. split; [reflexivity|]. repeat constructor. }
  intros _ _. yields_auto.
Qed.

End OnlySsh.

Lemma main_runs_only_ssh_witness :
  exists evs,
    snd (main (lab ["left"] lab_left_only lab_healthy) 9
           (lab_args (lab ["left"] lab_left_only lab_healthy) false "/root/.ssh/ot2") [])
    = [] +++ evs
    /\ Forall (ssh_to_target
                 (lab_args (lab ["left"] lab_left_only lab_healthy) false "/root/.ssh/ot2"))
         evs.
Proof.
  apply (main_runs_only_ssh (lab ["left"] lab_left_only lab_healthy) 9
           (lab_args (lab ["left"] lab_left_only lab_healthy) false "/root/.ssh/ot2") []);
    reflexivity.
Defined.

Section TemporaryDirectory.

Variable E : Env.

Lemma split_after {A : Type} (P : A -> Prop) (l1 l2 pre post : list A) (x : A) :
  Forall P l1 -> ~ P x -> l1 +++ l2 = pre +++ x :: post ->
  exists pre', pre = l1 +++ pre' /\ l2 = pre' +++ x :: post.
Proof.
  intros Hall Hx. revert pre.
  induction Hall as [|a l1 Ha _ IH]; intros pre Heq.
  - exists pre. auto.
  - destruct pre as [|b pre]; simpl in Heq; injection Heq as Hab Hrest.
    + subst a. contradiction.
    + subst b. destruct (IH pre Hrest) as (pre' & -> & H2). exists pre'. auto.
Qed.

Lemma no_split {A : Type} (P : A -> Prop) (l pre post : list A) (x : A) :
  Forall P l -> ~ P x -> l <> pre +++ x :: post.
Proof.
  intros Hall Hx Heq. subst l. apply Forall_app in Hall as [_ Hall].
  inversion Hall. contradiction.
Qed.

Lemma not_mkdtemp_made (prefix : string) : ~ not_mkdtemp (EvMkdtemp prefix).
Proof. intros H. exact H. Qed.

Lemma removes_of_yields {A : Type} (Q : A -> Prop) (m : M A) :
  yields not_mkdtemp Q m -> removes_what_it_makes E m.
Proof.
  intros Hm tr. destruct (Hm tr) as (evs & H1 & H2 & _).
  exists evs. split; [exact H1|]. intros _ pre post prefix td Heq.
  exfalso. exact (no_split _ _ _ _ _ H2 (not_mkdtemp_made prefix) Heq).
Qed.

Lemma removes_bind {A B : Type} (Q : A -> Prop) (m : M A) (f : A -> M B) :
  yields not_mkdtemp Q m ->
  (forall a, removes_what_it_makes E (f a)) ->
  removes_what_it_makes E (bind m f).
Proof.
  intros Hm Hf tr. destruct (Hm tr) as (e1 & H1 & HP & _). unfold bind.
  destruct (m tr) as [[a|e|] tr1]; cbn [snd] in H1; subst tr1.
  - destruct (Hf a (tr +++ e1)) as (e2 & H2 & Hc).
    exists (e1 +++ e2). split; [rewrite H2, app_assoc; reflexivity|].
    intros Hend pre post prefix td Heq Hmk.
    destruct (split_after _ _ _ _ _ _ HP (not_mkdtemp_made prefix) Heq)
      as (pre' & -> & Heq2).
    apply (Hc Hend pre' post prefix td Heq2). rewrite <- app_assoc. exact Hmk.
  - exists e1. split; [reflexivity|]. intros _ pre post prefix td Heq.
    exfalso. exact (no_split _ _ _ _ _ HP (not_mkdtemp_made prefix) Heq).
  - exists e1. split; [reflexivity|]. intros _ pre post prefix td Heq.
    exfalso. exact (no_split _ _ _ _ _ HP (not_mkdtemp_made prefix) Heq).
Qed.

Lemma bind_call {A B : Type} (ev : event) (f : trace -> answer A) (g : A -> M B)
  (tr : trace) :
  bind (call ev f) g tr
  = match f tr with
    | Fine a => g a (tr +++ [ev])
    | Raised t m => (Err (OtherError t m), tr +++ [ev])
    end.
Proof. unfold bind, call. destruct (f tr); reflexivity. Qed.

(** [with tempfile.TemporaryDirectory(prefix=...) as td: body] and what
    follows it. *)
Lemma removes_with_directory {A : Type} (prefix : string) (body : string -> M A)
  (rest : string -> A -> M unit) :
  (forall td, yields not_mkdtemp (fun _ => True) (body td)) ->
  (forall td a, yields not_mkdtemp (fun _ => True) (rest td a)) ->
  removes_what_it_makes E
    (bind (call (EvMkdtemp prefix) (fun tr => mkdtemp E tr prefix))
       (fun td => bind (finally (body td) (emit (EvRmtree td))) (rest td))).
Proof.
  intros Hbody Hrest tr. rewrite bind_call.
  destruct (mkdtemp E tr prefix) as [td|t msg] eqn:Hmk.
  - unfold bind, finally, emit.
    destruct (Hbody td (tr +++ [EvMkdtemp prefix])) as (eb & Hb & HPb & _).
    destruct (body td (tr +++ [EvMkdtemp prefix])) as [r trb]; cbn [snd] in Hb; subst trb.
    assert (Hone : forall evs pre post p' td',
              Forall not_mkdtemp evs ->
              EvMkdtemp prefix :: evs = pre +++ EvMkdtemp p' :: post ->
              mkdtemp E (tr +++ pre) p' = Fine td' ->
              post = evs /\ td' = td).
    { intros evs pre post p' td' Hevs Heq Hmk'.
      destruct pre as [|x pre]; simpl in Heq; injection Heq as Hx Hr.
      - subst p'. rewrite app_nil_r, Hmk in Hmk'. injection Hmk' as <-. auto.
      - exfalso. exact (no_split _ _ _ _ _ Hevs (not_mkdtemp_made p') Hr). }
    destruct r as [a|e|].
    + destruct (Hrest td a (((tr +++ [EvMkdtemp prefix]) +++ eb) +++ [EvRmtree td]))
        as (er & Hr & HPr & _).
      exists (EvMkdtemp prefix :: eb +++ EvRmtree td :: er).
      split; [rewrite Hr, <- !app_assoc; reflexivity|].
      intros _ pre post p' td' Heq Hmk'.
      destruct (Hone (eb +++ EvRmtree td :: er) pre post p' td') as [-> ->]; auto.
      * apply Forall_app. split; [exact HPb|]. constructor; [exact I | exact HPr].
      * apply in_elt.
    + exists (EvMkdtemp prefix :: eb +++ [EvRmtree td]).
      split; [cbn [snd]; rewrite <- !app_assoc; reflexivity|].
      intros _ pre post p' td' Heq Hmk'.
      destruct (Hone (eb +++ [EvRmtree td]) pre post p' td') as [-> ->]; auto.
      * apply Forall_app. split; [exact HPb|]. constructor; [exact I | constructor].
      * apply in_elt.
    + exists (EvMkdtemp prefix :: eb +++ [EvRmtree td]).
      split; [cbn [snd]; rewrite <- !app_assoc; reflexivity|].
      intros Hend. exfalso. apply Hend. reflexivity.
  - exists [EvMkdtemp prefix]. split; [reflexivity|].
    intros _ pre post p' td' Heq Hmk'.
    destruct pre as [|x pre]; simpl in Heq; injection Heq as Hx Hr.
    + subst p'. rewrite app_nil_r, Hmk in Hmk'. discriminate.
    + destruct pre; discriminate.
Qed.

Lemma remote_apply_makes_no_directory (steps : nat) (args : Args)
  (local_left local_right local_tip_left local_tip_right : option string)
  (local_deck : string) (left_serial right_serial : option string) :
  yields not_mkdtemp (fun _ => True)
    (_remote_apply E steps args local_left local_right local_tip_left local_tip_right
       local_deck left_serial right_serial).
Proof.
  unfold _remote_apply, _wait_for_robot_server_ready. cbv zeta.
  yields_auto. apply wait_loop_yields; intros; exact I.
Qed.

Lemma stage_and_apply_makes_no_directory (steps : nat) (args : Args) (td : string)
  (pipette_tpl tip_tpl deck_tpl : json) (left_serial right_serial : option string) :
  yields not_mkdtemp (fun _ => True)
    (stage_and_apply E steps args td pipette_tpl tip_tpl deck_tpl left_serial right_serial).
Proof.
  unfold stage_and_apply, prepare_mount. cbv zeta.
  repeat (apply (yields_bind _ (fun _ => True)); [solve [yields_auto] | intros ? _]).
  apply remote_apply_makes_no_directory.
Qed.

(** X18. [main] leaves no temporary directory behind: whenever it made
    one and the run came to an end, with or without an error, the
    directory was removed afterwards. *)
Theorem main_removes_its_directory (steps : nat) (args : Args) (tr : trace)
  (pre post : list event) (prefix td : string) :
  fst (main E steps args tr) <> Diverge ->
  snd (main E steps args tr) = (tr +++ pre) +++ EvMkdtemp prefix :: post ->
  mkdtemp E (tr +++ pre) prefix = Fine td ->
  In (EvRmtree td) post.
Proof.
  assert (Hmain : removes_what_it_makes E (main E steps args)).
  { unfold main. cbv zeta.
    repeat (apply (removes_bind (fun _ => True));
            [solve [unfold resolve_host, ensure_key, _ssh_preflight; cbv zeta; yields_auto]
            | intros ?]).
    apply removes_with_directory.
    - intros d. apply stage_and_apply_makes_no_directory.
    - intros d []. yields_auto. }
  intros Hend Hsnd Hmk.
  destruct (Hmain tr) as (evs & Hevs & Hc).
  apply (Hc Hend pre post prefix td); [|exact Hmk].
  rewrite Hevs, <- app_assoc in Hsnd. apply app_inv_head in Hsnd. exact Hsnd.
Qed.

End TemporaryDirectory.

Lemma main_removes_its_directory_witness :
  In (EvRmtree "/tmp/apply-standard-offsets-k3x9")
    (skipn 6 (snd (main lab_bench 9 lab_dry_run []))).
Proof.
  apply (main_removes_its_directory lab_bench 9 lab_dry_run []
           (firstn 5 (snd (main lab_bench 9 lab_dry_run [])))
           (skipn 6 (snd (main lab_bench 9 lab_dry_run [])))
           "apply-standard-offsets-" "/tmp/apply-standard-offsets-k3x9").
  - vm_compute. discriminate.
  - vm_compute. reflexivity.
  - reflexivity.
Defined.

Section WaiterDeadline.

Variable E : Env.

Lemma wait_loop_late (url api_version : string) (start timeout_seconds : float)
  (steps : nat) :
  forall (last_err : option string) (tr : trace) (e : pyerr),
    fst (wait_loop E steps url api_version start timeout_seconds last_err tr) = Err e ->
    (exists pre last,
       snd (wait_loop E steps url api_version start timeout_seconds last_err tr)
       = pre +++ [EvClock]
       /\ elapsed_exceeds (time_time E pre) start timeout_seconds = true
       /\ e = RuntimeError (timeout_message url last))
    \/ (exists pre,
          snd (wait_loop E steps url api_version start timeout_seconds last_err tr)
          = pre +++ [EvHttpGet url api_version 2]
          /\ body_unreadable (urlopen_json E pre url api_version 2) e).
Proof.
  induction steps as [|n IH]; intros last_err tr e; [discriminate|].
  rewrite wait_loop_round.
  destruct (elapsed_exceeds (time_time E tr) start timeout_seconds) eqn:Hlate.
  - intros H. injection H as <-. left. exists tr, last_err. auto.
  - destruct (urlopen_json E (tr +++ [EvClock]) url api_version 2)
      as [p|code [text|t m]|t m] eqn:Ha;
      [discriminate | apply IH | | apply IH].
    intros H. injection H as <-. right. exists (tr +++ [EvClock]).
    split; [reflexivity|]. rewrite Ha. exists code, t, m. auto.
Qed.

(** X19. The waiter never gives up early: when it raises its timeout
    error, the last thing it did was to read the clock, and the deadline
    test on that reading and the reading taken at the start held.  The
    only other exception that leaves it is the one of reading the body of
    an HTTP error, right after the probe that got that answer. *)
Theorem waiter_gives_up_only_late (steps : nat) (host : string) (api_port : Z)
  (api_version : string) (timeout_seconds : float) (tr : trace) (e : pyerr) :
  fst (_wait_for_robot_server_ready E steps host api_port api_version timeout_seconds tr)
  = Err e ->
  (exists pre last,
     snd (_wait_for_robot_server_ready E steps host api_port api_version timeout_seconds tr)
     = pre +++ [EvClock]
     /\ elapsed_exceeds (time_time E pre) (time_time E tr) timeout_seconds = true
     /\ e = RuntimeError (timeout_message (health_url host api_port) last))
  \/ (exists pre,
        snd (_wait_for_robot_server_ready E steps host api_port api_version
               timeout_seconds tr)
        = pre +++ [EvHttpGet (health_url host api_port) api_version 2]
        /\ body_unreadable (urlopen_json E pre (health_url host api_port) api_version 2) e).
Proof.
  unfold _wait_for_robot_server_ready. cbv zeta.
  unfold bind, clock_read. apply wait_loop_late.
Qed.

End WaiterDeadline.

Lemma waiter_gives_up_only_late_witness :
  (exists pre last,
     snd (_wait_for_robot_server_ready (lab_steady lab_starting) 9 "ot2" 31950 "2" 5 [])
     = pre +++ [EvClock]
     /\ elapsed_exceeds (time_time (lab_steady lab_starting) pre)
          (time_time (lab_steady lab_starting) []) 5 = true
     /\ RuntimeError (timeout_message (health_url "ot2" 31950) (failure_text lab_starting))
        = RuntimeError (timeout_message (health_url "ot2" 31950) last))
  \/ (exists pre,
        snd (_wait_for_robot_server_ready (lab_steady lab_starting) 9 "ot2" 31950 "2" 5 [])
        = pre +++ [EvHttpGet (health_url "ot2" 31950) "2" 2]
        /\ body_unreadable
             (urlopen_json (lab_steady lab_starting) pre (health_url "ot2" 31950) "2" 2)
             (RuntimeError
                (timeout_message (health_url "ot2" 31950) (failure_text lab_starting)))).
Proof.
  apply (waiter_gives_up_only_late (lab_steady lab_starting) 9 "ot2" 31950 "2" 5 []
           (RuntimeError
              (timeout_message (health_url "ot2" 31950) (failure_text lab_starting)))).
  reflexivity.
Defined.

Section PreflightGate.

Variable E : Env.

Lemma fails_bind_ok {A B : Type} (P : event -> Prop) (m : M A) (f : A -> M B)
  (tr : trace) (a : A) (e1 : list event) :
  m tr = (Ok a, tr +++ e1) -> Forall P e1 ->
  fails_within P (f a) (tr +++ e1) -> fails_within P (bind m f) tr.
Proof.
  intros Hm HP (e2 & H2 & HP2 & e & He). unfold fails_within, bind. rewrite Hm.
  exists (e1 +++ e2). rewrite H2, app_assoc.
  split; [reflexivity|]. split; [apply Forall_app; auto | eauto].
Qed.

Lemma fails_bind_quiet {A B : Type} (P : event -> Prop) (m : M A) (f : A -> M B)
  (tr : trace) (a : A) :
  m tr = (Ok a, tr) -> fails_within P (f a) tr -> fails_within P (bind m f) tr.
Proof.
  intros Hm H. apply (fails_bind_ok P m f tr a []); rewrite ?app_nil_r; auto.
Qed.

Lemma fails_bind_first {A B : Type} (P : event -> Prop) (m : M A) (f : A -> M B)
  (tr : trace) :
  fails_within P m tr -> fails_within P (bind m f) tr.
Proof.
  intros (evs & H1 & HP & e & He). unfold fails_within, bind.
  destruct (m tr) as [r tr1]; cbn [fst snd] in *; subst r tr1.
  exists evs. cbn [fst snd]. eauto.
Qed.

Lemma fails_raise {A : Type} (P : event -> Prop) (e : pyerr) (tr : trace) :
  fails_within P (@raise A e) tr.
Proof. exists []. cbn [raise fst snd]. rewrite app_nil_r. eauto. Qed.

Lemma quiet_for_each {A : Type} (xs : list A) (body : A -> M unit) (tr : trace) :
  (forall x, body x tr = (Ok tt, tr) \/ exists e, body x tr = (Err e, tr)) ->
  for_each xs body tr = (Ok tt, tr) \/ exists e, for_each xs body tr = (Err e, tr).
Proof.
  intros Hbody. induction xs as [|x rest IH]; cbn [for_each]; [left; reflexivity|].
  unfold bind. destruct (Hbody x) as [->|[e ->]]; [exact IH | right; eauto].
Qed.

(** The checks of the template files leave no event. *)
Lemma template_checks (paths : list string) (tr : trace) :
  let check := fun p =>
    (found <- query (fun h => is_file E h p) ;;
     if negb found then raise (RuntimeError ("Template file not found: " ++ p))
     else ret tt)%M in
  for_each paths check tr = (Ok tt, tr)
  \/ exists e, for_each paths check tr = (Err e, tr).
Proof.
  cbv zeta. apply quiet_for_each. intros p. unfold bind, query.
  destruct (is_file E tr p); cbn [negb]; [left; reflexivity | right; eexists; reflexivity].
Qed.

(** The lookup of the robot name in [main] cannot fail: whatever goes
    wrong gives the name [opentrons]. *)
Lemma robot_name_or_default (host : string) (api_port : Z) (api_version : string)
  (tr : trace) :
  exists name,
    catch (_robot_name E host api_port api_version) (fun _ => ret "opentrons") tr
    = (Ok name, tr +++ [EvHttpGet (health_url host api_port) api_version 5]).
Proof.
  unfold catch, _robot_name, _http_json, bind, http_get, lift, ret, raise.
  fold (health_url host api_port).
  destruct (urlopen_json E tr (health_url host api_port) api_version 5) as [payload| |];
    eauto.
  destruct payload; cbn [Py.get]; eauto.
Qed.

Lemma quiet_ret {A : Type} (a : A) : quiet (ret a).
Proof. intros tr. left. eexists. reflexivity. Qed.

Lemma quiet_query {A : Type} (f : trace -> A) : quiet (query f).
Proof. intros tr. left. eexists. reflexivity. Qed.

Lemma quiet_answered {A : Type} (a : answer A) : quiet (answered a).
Proof. intros tr. destruct a; [left | right]; eexists; reflexivity. Qed.

Lemma quiet_bind {A B : Type} (m : M A) (f : A -> M B) :
  quiet m -> (forall a, quiet (f a)) -> quiet (bind m f).
Proof.
  intros Hm Hf tr. unfold bind.
  destruct (Hm tr) as [[a ->]|[e ->]]; [apply Hf | right; eexists; reflexivity].
Qed.

Lemma quiet_default_key_dir : quiet (_default_key_dir E).
Proof.
  unfold _default_key_dir, home_config.
  apply quiet_bind; [|intros ?; apply quiet_ret].
  destruct (xdg_config_home E) as [s|]; [destruct (PyStr.nonempty s)|];
    try apply quiet_ret;
    (apply quiet_bind; [apply quiet_answered | intros ?; apply quiet_ret]).
Qed.

(** A step that leaves no event and does not run on for ever. *)
Lemma fails_after_quiet {A B : Type} (P : event -> Prop) (m : M A) (f : A -> M B)
  (tr : trace) :
  quiet m -> (forall a, fails_within P (f a) tr) -> fails_within P (bind m f) tr.
Proof.
  intros Hm Hf. destruct (Hm tr) as [[a Ha]|[e He]].
  - apply (fails_bind_quiet P m f tr a Ha). apply Hf.
  - apply fails_bind_first. exists []. rewrite He. cbn [fst snd].
    rewrite app_nil_r. eauto.
Qed.

Lemma ssh_preflight_fails (args base : Args) (tr : trace) :
  _ssh_base args = _ssh_base base ->
  ~ exited_zero (subprocess_run E tr (_ssh_base base +++ ["true"]) None) ->
  fails_within (before_staging base) (_ssh_preflight E args) tr.
Proof.
  intros Hbase Hrefused. unfold _ssh_preflight. rewrite Hbase.
  assert (HP : Forall (before_staging base)
                 [EvSubprocess (_ssh_base base +++ ["true"]) None])
    by (repeat constructor).
  destruct (subprocess_run E tr (_ssh_base base +++ ["true"]) None) as [proc|t m] eqn:Hans.
  - apply (fails_bind_ok _ _ _ tr proc [EvSubprocess (_ssh_base base +++ ["true"]) None]);
      [unfold run_process, call; rewrite Hans; reflexivity | exact HP |].
    destruct (Z.eqb_spec (returncode proc) 0) as [Hz|_]; [contradiction|].
    cbv zeta.
    apply fails_after_quiet; [|intros extra; apply fails_raise].
    destruct (opt_truthy (args_robot_name args)); [|apply quiet_ret].
    apply quiet_bind.
    { match goal with |- quiet (if ?b then _ else _) => destruct b end;
        [apply quiet_ret | apply quiet_default_key_dir]. }
    intros base0. apply quiet_bind; [apply quiet_answered | intros key_dir].
    apply quiet_bind; [apply quiet_query | intros found; apply quiet_ret].
  - exists [EvSubprocess (_ssh_base base +++ ["true"]) None].
    unfold bind, run_process, call. rewrite Hans. cbn [fst snd]. eauto.
Qed.

(** X20. Nothing is staged unless the probe [ssh ... true] succeeds: in a
    run that is not dry, with host and key given, when the robot refuses
    the probe [main] raises, and all it has done is to send requests to
    the controller and to run that probe; it has written no file, made no
    directory and uploaded nothing. *)
Theorem no_staging_without_preflight (steps : nat) (args : Args) (tr : trace) :
  dry_run args = false ->
  PyStr.nonempty (host args) = true ->
  PyStr.nonempty (ssh_key args) = true ->
  (forall h, ~ exited_zero (subprocess_run E h (_ssh_base args +++ ["true"]) None)) ->
  exists evs,
    snd (main E steps args tr) = tr +++ evs
    /\ Forall (before_staging args) evs
    /\ exists e, fst (main E steps args tr) = Err e.
Proof.
  intros Hdry Hhost Hkey Hrefused.
  change (fails_within (before_staging args) (main E steps args) tr).
  unfold main. cbv zeta.
  do 5 (apply fails_after_quiet; [apply quiet_answered | intros ?]).
  eapply fails_bind_quiet; [reflexivity|].
  match goal with |- context [negb ?b] => destruct b end; cbn [negb].
  2:{ apply fails_bind_first, fails_raise. }
  eapply fails_bind_quiet; [reflexivity|].
  match goal with
  | |- fails_within _ (bind (for_each ?ps ?c) _) _ =>
      destruct (template_checks ps tr) as [Hchecks|[e Hchecks]]
  end.
  2:{ apply fails_bind_first. exists []. cbv zeta in Hchecks. rewrite Hchecks.
      cbn [fst snd]. rewrite app_nil_r. eauto. }
  eapply fails_bind_quiet; [exact Hchecks|].
  unfold resolve_host at 1. cbn [host set_restart_robot_server]. rewrite Hhost.
  eapply fails_bind_quiet; [reflexivity|].
  match goal with
  | |- fails_within _ (bind (catch (_robot_name _ ?h ?p ?v) _) _) _ =>
      destruct (robot_name_or_default h p v tr) as [name Hname]
  end.
  eapply fails_bind_ok; [exact Hname | repeat constructor |].
  cbn [ssh_key set_preflight_hints set_restart_robot_server]. rewrite Hkey. cbn [negb].
  eapply fails_bind_quiet; [reflexivity|].
  unfold ensure_key at 1. cbv zeta.
  cbn [ssh_key set_preflight_hints set_restart_robot_server]. rewrite Hkey.
  cbn [negb andb].
  eapply fails_bind_quiet; [reflexivity|].
  cbn [dry_run set_preflight_hints set_restart_robot_server]. rewrite Hdry.
  cbn [negb when].
  apply fails_bind_first. apply ssh_preflight_fails; [reflexivity | apply Hrefused].
Qed.

End PreflightGate.

Lemma no_staging_without_preflight_witness :
  exists evs,
    snd (main lab_refusing 9 (lab_args lab_refusing false "/root/.ssh/ot2") []) = [] +++ evs
    /\ Forall (before_staging (lab_args lab_refusing false "/root/.ssh/ot2")) evs
    /\ exists e,
         fst (main lab_refusing 9 (lab_args lab_refusing false "/root/.ssh/ot2") []) = Err e.
Proof.
  apply (no_staging_without_preflight lab_refusing 9
           (lab_args lab_refusing false "/root/.ssh/ot2") []).
  - reflexivity.
  - reflexivity.
  - reflexivity.
  - intros h H. discriminate H.
Defined.
